(** * MyPA: alarm triggering and cross-device notification dispatch

    A shallow embedding of the reminder core of the MyPA application:

    - the server's minute scheduler ([checkAndSendAlarms], alarmScheduler.ts),
    - the web-push dispatcher ([sendPushNotification], pushNotification.ts),
    - the browser's trigger coordinator ([GlobalAlarmHandler],
      global-alarm-handler.tsx): polling loop, push handler, dedup gate,
      dismissal,
    - the IndexedDB offline cache (offlineStorage.ts).

    Asynchronous code is embedded sequentially (every [await] is a plain
    call); database rows are records, tables are lists of rows, JavaScript
    [Map]/[Set] objects are [gmap]/[gset]. *)

From Stdlib Require Import ZArith String List Lia Bool.
From stdpp Require Import base option list gmap strings pretty sorting.

Local Open Scope string_scope.
Local Open Scope Z_scope.
Local Open Scope list_scope.

(** ** JavaScript value conventions *)

Module Js.

(** Truthiness of a nullable string: [null], [undefined] and the empty
    string are falsy. *)
Definition truthy (o : option string) : bool :=
  match o with
  | Some s => negb (String.eqb s "")
  | None => false
  end.

(** [o || d] on a nullable string. *)
Definition or_else (o : option string) (d : string) : string :=
  match o with
  | Some s => if String.eqb s "" then d else s
  | None => d
  end.

(** [o || undefined]. *)
Definition or_undefined (o : option string) : option string :=
  if truthy o then o else None.

(** [a === b] where [a] may be [null] and [b] is a string. *)
Definition strict_eq (o : option string) (s : string) : bool :=
  match o with
  | Some t => String.eqb t s
  | None => false
  end.

(** [arr.includes(x)] with strict equality on strings. *)
Definition includes (arr : list string) (x : string) : bool :=
  existsb (String.eqb x) arr.

(** [arr?.includes(x)], read in a boolean position. *)
Definition opt_includes (arr : option (list string)) (x : string) : bool :=
  match arr with
  | Some l => includes l x
  | None => false
  end.

(** [arr && arr.length > 0]. *)
Definition non_empty (arr : option (list string)) : bool :=
  match arr with
  | Some (_ :: _) => true
  | _ => false
  end.

(** [s.substring(0, 5)]. *)
Definition hhmm (s : string) : string := String.substring 0 5 s.

(** [s.padStart(2, '0')] for the decimal rendering of a small number. *)
Definition padStart2 (s : string) : string :=
  if (String.length s <? 2)%nat then "0" +:+ s else s.

End Js.

(** ** Rows of the shared schema *)

Inductive Kind := KAlarm | KMedicine | KMeeting.

#[global] Instance Kind_eq_dec : EqDecision Kind.
Proof. solve_decision. Defined.

Definition kindName (k : Kind) : string :=
  match k with
  | KAlarm => "alarm"
  | KMedicine => "medicine"
  | KMeeting => "meeting"
  end.

Record Alarm := {
  alarm_id : Z;
  alarm_userId : string;
  alarm_title : option string;
  alarm_textToSpeak : option string;
  alarm_time : string;
  alarm_date : option string;
  alarm_days : option (list string);
  alarm_isActive : bool;
}.

Record Medicine := {
  med_id : Z;
  med_userId : string;
  med_name : string;
  med_dosage : option string;
  med_textToSpeak : option string;
  med_times : option (list string);
  med_isActive : bool;
}.

Record Meeting := {
  meeting_id : Z;
  meeting_userId : string;
  meeting_title : string;
  meeting_location : option string;
  meeting_textToSpeak : option string;
  meeting_date : string;
  meeting_time : string;
  meeting_enabled : bool;
}.

Record PushSubscription := {
  sub_id : Z;
  sub_userId : string;
  sub_endpoint : string;
  sub_p256dh : string;
  sub_auth : string;
  sub_supportsFullScreen : bool;
}.

(** [PushPayload], restricted to the fields the scheduler fills in. *)
Record PushPayload := {
  pl_title : string;
  pl_body : string;
  pl_type : Kind;
  pl_id : option Z;
  pl_textToSpeak : option string;
}.

Record Database := {
  alarms : list Alarm;
  medicines : list Medicine;
  meetings : list Meeting;
  pushSubscriptions : list PushSubscription;
}.

(** ** Wall-clock readings *)

Inductive Weekday := Sun | Mon | Tue | Wed | Thu | Fri | Sat.

(** The value of [getUTCDay()]. *)
Definition weekday_index (d : Weekday) : nat :=
  match d with
  | Sun => 0 | Mon => 1 | Tue => 2 | Wed => 3 | Thu => 4 | Fri => 5 | Sat => 6
  end%nat.

(** The getters of a [Date] the scheduler reads. *)
Record DateFields := {
  getUTCHours : Z;
  getUTCMinutes : Z;
  getUTCDay : Weekday;
  getUTCFullYear : Z;
  getUTCMonth : Z;
  getUTCDate : Z;
}.

(** [{ time, day, date }]: "HH:mm", "EEE", "yyyy-MM-dd". *)
Record Now := {
  now_time : string;
  now_day : string;
  now_date : string;
}.

(** ** The server: effects *)

Module Server.

(** Database statements issued by the scheduler and the dispatcher. *)
Inductive DbOp :=
| SelectActiveAlarms
| SelectActiveMedicines
| SelectEnabledMeetings
| SelectSubscriptions (userId : string)
| DeleteSubscription (id : Z).

(** A rejected promise. *)
Inductive Exn :=
| DbError (op : DbOp).

(** Outcome of one [webPush.sendNotification] call; a rejection carries
    [error.statusCode] when the push service answered, and none for
    timeouts and network errors. *)
Inductive SendOutcome :=
| Delivered
| Rejected (statusCode : option Z).

Inductive LogEntry :=
| LogChecking (time day date : string)
| LogTriggering (k : Kind) (id : Z)
| LogNoSubscriptions (userId : string)
| LogSending (k : Kind) (n : nat) (userId : string)
| LogSent (sub : Z)
| LogFailed (sub : Z)
| LogRemoved (sub : Z)
| LogSummary (success failed : nat)
| LogSchedulerError (e : Exn).

(** What lies outside the process: the push transport and the health of
    the database connection. *)
Record Env := {
  transport : PushSubscription -> PushPayload -> SendOutcome;
  db_rejects : DbOp -> bool;
}.

Record World := {
  w_db : Database;
  w_attempts : list (PushSubscription * PushPayload);
  w_console : list LogEntry;
}.

(** State and exceptions: a thrown exception keeps the effects performed
    before it. *)
Definition M (A : Type) : Type := World -> World * (Exn + A).

Definition ret {A} (a : A) : M A := fun w => (w, inr a).

Definition bind {A B} (m : M A) (k : A -> M B) : M B :=
  fun w =>
    match m w with
    | (w', inr a) => k a w'
    | (w', inl e) => (w', inl e)
    end.

Definition throw {A} (e : Exn) : M A := fun w => (w, inl e).

Definition try_catch {A} (m : M A) (h : Exn -> M A) : M A :=
  fun w =>
    match m w with
    | (w', inr a) => (w', inr a)
    | (w', inl e) => h e w'
    end.

Declare Scope server_scope.
Delimit Scope server_scope with server.
Notation "x <- c ;; k" := (bind c (fun x => k))
  (at level 20, c at level 99, k at level 200, only parsing) : server_scope.
Notation "'run' c ;; k" := (bind c (fun _ => k))
  (at level 20, c at level 99, k at level 200, only parsing) : server_scope.
Local Open Scope server_scope.

Definition console (l : LogEntry) : M unit :=
  fun w => ({| w_db := w_db w; w_attempts := w_attempts w;
               w_console := w_console w ++ [l] |}, inr tt).

(** [for (const x of xs) { body }] *)
Fixpoint for_of {A} (xs : list A) (body : A -> M unit) : M unit :=
  match xs with
  | [] => ret tt
  | x :: xs' => run body x ;; for_of xs' body
  end.

(** A loop threading local variables. *)
Fixpoint for_of_acc {A S} (xs : list A) (body : S -> A -> M S) (s : S) : M S :=
  match xs with
  | [] => ret s
  | x :: xs' => s' <- body s x ;; for_of_acc xs' body s'
  end.

Section WithEnv.
Variable env : Env.

(** [await db.<statement>]: rejects when the connection does. *)
Definition db_exec {A} (op : DbOp) (stmt : Database -> Database * A) : M A :=
  fun w =>
    if db_rejects env op then (w, inl (DbError op))
    else
      let (db', a) := stmt (w_db w) in
      ({| w_db := db'; w_attempts := w_attempts w;
          w_console := w_console w |}, inr a).

Definition selectSubscriptions (userId : string) : M (list PushSubscription) :=
  db_exec (SelectSubscriptions userId)
    (fun db => (db, filter (fun s => sub_userId s = userId) (pushSubscriptions db))).

Definition deleteSubscription (id : Z) : M unit :=
  db_exec (DeleteSubscription id)
    (fun db =>
       ({| alarms := alarms db; medicines := medicines db;
           meetings := meetings db;
           pushSubscriptions :=
             filter (fun s => sub_id s <> id) (pushSubscriptions db) |}, tt)).

(** [await webPush.sendNotification(...)], as a value: the attempt is
    recorded, the outcome is handed to the [try]/[catch] around it. *)
Definition webPush_sendNotification (sub : PushSubscription)
    (payload : PushPayload) : M SendOutcome :=
  fun w =>
    ({| w_db := w_db w; w_attempts := w_attempts w ++ [(sub, payload)];
        w_console := w_console w |}, inr (transport env sub payload)).

(** [error.statusCode === 410 || error.statusCode === 404] *)
Definition is_gone (statusCode : option Z) : bool :=
  match statusCode with
  | Some c => (c =? 410) || (c =? 404)
  | None => false
  end.

Record Counts := { success : nat; failed : nat }.

(** Body of the per-device loop of [sendPushNotification]. *)
Definition send_one (payload : PushPayload) (c : Counts)
    (sub : PushSubscription) : M Counts :=
  r <- webPush_sendNotification sub payload ;;
  match r with
  | Delivered =>
      let c := {| success := S (success c); failed := failed c |} in
      run console (LogSent (sub_id sub)) ;;
      ret c
  | Rejected statusCode =>
      let c := {| success := success c; failed := S (failed c) |} in
      run console (LogFailed (sub_id sub)) ;;
      run (if is_gone statusCode
           then run deleteSubscription (sub_id sub) ;;
                console (LogRemoved (sub_id sub))
           else ret tt) ;;
      ret c
  end.

Definition sendPushNotification (userId : string) (payload : PushPayload)
    : M Counts :=
  subscriptions <- selectSubscriptions userId ;;
  if (length subscriptions =? 0)%nat then
    run console (LogNoSubscriptions userId) ;;
    ret {| success := 0; failed := 0 |}
  else
    run console (LogSending (pl_type payload) (length subscriptions) userId) ;;
    c <- for_of_acc subscriptions (send_one payload)
           {| success := 0; failed := 0 |} ;;
    run console (LogSummary (success c) (failed c)) ;;
    ret c.

(** *** alarmScheduler.ts *)

Definition days : list string :=
  ["Sun"; "Mon"; "Tue"; "Wed"; "Thu"; "Fri"; "Sat"].

(** [istTime] is the [Date] shifted by the IST offset. *)
Definition getCurrentTimeIST (istTime : DateFields) : Now :=
  let hours := getUTCHours istTime in
  let minutes := getUTCMinutes istTime in
  let time := Js.padStart2 (pretty hours) +:+ ":" +:+ Js.padStart2 (pretty minutes) in
  let day := nth (weekday_index (getUTCDay istTime)) days "" in
  let year := getUTCFullYear istTime in
  let month := Js.padStart2 (pretty (getUTCMonth istTime + 1)) in
  let dateNum := Js.padStart2 (pretty (getUTCDate istTime)) in
  let date := pretty year +:+ "-" +:+ month +:+ "-" +:+ dateNum in
  {| now_time := time; now_day := day; now_date := date |}.

(** A nullable string inside a template literal. *)
Definition interpolate (o : option string) : string :=
  match o with
  | Some s => s
  | None => "null"
  end.

Definition selectActiveAlarms : M (list Alarm) :=
  db_exec SelectActiveAlarms
    (fun db => (db, filter (fun a => alarm_isActive a = true) (alarms db))).

Definition selectActiveMedicines : M (list Medicine) :=
  db_exec SelectActiveMedicines
    (fun db => (db, filter (fun m => med_isActive m = true) (medicines db))).

Definition selectEnabledMeetings : M (list Meeting) :=
  db_exec SelectEnabledMeetings
    (fun db => (db, filter (fun m => meeting_enabled m = true) (meetings db))).

(** The value of [shouldTrigger] when the alarm loop reaches its test. *)
Definition alarm_shouldTrigger (now : Now) (alarm : Alarm) : bool :=
  let alarmTime := Js.hhmm (alarm_time alarm) in
  if String.eqb alarmTime (now_time now) then
    if Js.truthy (alarm_date alarm) then
      Js.strict_eq (alarm_date alarm) (now_date now)
    else if Js.non_empty (alarm_days alarm) then
      Js.opt_includes (alarm_days alarm) (now_day now)
    else true
  else false.

Definition alarm_payload (alarm : Alarm) : PushPayload :=
  {| pl_title := Js.or_else (alarm_title alarm) "MyPA Alarm";
     pl_body := Js.or_else (alarm_textToSpeak alarm)
                  (interpolate (alarm_title alarm) +:+ " - Time to wake up!");
     pl_type := KAlarm;
     pl_id := Some (alarm_id alarm);
     pl_textToSpeak := Js.or_undefined (alarm_textToSpeak alarm) |}.

Definition medicine_payload (medicine : Medicine) : PushPayload :=
  {| pl_title := "Medicine: " +:+ med_name medicine;
     pl_body := Js.or_else (med_textToSpeak medicine)
                  ("Time to take " +:+ med_name medicine +:+
                   (if Js.truthy (med_dosage medicine)
                    then " - " +:+ interpolate (med_dosage medicine) else ""));
     pl_type := KMedicine;
     pl_id := Some (med_id medicine);
     pl_textToSpeak := Js.or_undefined (med_textToSpeak medicine) |}.

Definition meeting_payload (meeting : Meeting) : PushPayload :=
  {| pl_title := "Meeting: " +:+ meeting_title meeting;
     pl_body := Js.or_else (meeting_textToSpeak meeting)
                  (meeting_title meeting +:+
                   (if Js.truthy (meeting_location meeting)
                    then " at " +:+ interpolate (meeting_location meeting) else ""));
     pl_type := KMeeting;
     pl_id := Some (meeting_id meeting);
     pl_textToSpeak := Js.or_undefined (meeting_textToSpeak meeting) |}.

Definition check_alarm (now : Now) (alarm : Alarm) : M unit :=
  if alarm_shouldTrigger now alarm then
    run console (LogTriggering KAlarm (alarm_id alarm)) ;;
    _counts <- sendPushNotification (alarm_userId alarm) (alarm_payload alarm) ;;
    ret tt
  else ret tt.

Definition check_medicine_time (now : Now) (medicine : Medicine)
    (medTime : string) : M unit :=
  let medTimeHHMM := Js.hhmm medTime in
  if String.eqb medTimeHHMM (now_time now) then
    run console (LogTriggering KMedicine (med_id medicine)) ;;
    _counts <- sendPushNotification (med_userId medicine) (medicine_payload medicine) ;;
    ret tt
  else ret tt.

Definition check_medicine (now : Now) (medicine : Medicine) : M unit :=
  if Js.non_empty (med_times medicine) then
    for_of (default [] (med_times medicine)) (check_medicine_time now medicine)
  else ret tt.

(** Whether some iteration of the two medicine loops passes its test. *)
Definition medicine_shouldTrigger (now : Now) (medicine : Medicine) : bool :=
  Js.non_empty (med_times medicine)
  && existsb (fun medTime => String.eqb (Js.hhmm medTime) (now_time now))
       (default [] (med_times medicine)).

Definition meeting_shouldTrigger (now : Now) (meeting : Meeting) : bool :=
  let meetingTime := Js.hhmm (meeting_time meeting) in
  String.eqb meetingTime (now_time now)
  && String.eqb (meeting_date meeting) (now_date now).

Definition check_meeting (now : Now) (meeting : Meeting) : M unit :=
  if meeting_shouldTrigger now meeting then
    run console (LogTriggering KMeeting (meeting_id meeting)) ;;
    _counts <- sendPushNotification (meeting_userId meeting) (meeting_payload meeting) ;;
    ret tt
  else ret tt.

(** The body of the [try] block. *)
Definition check_all (now : Now) : M unit :=
  activeAlarms <- selectActiveAlarms ;;
  run for_of activeAlarms (check_alarm now) ;;
  activeMedicines <- selectActiveMedicines ;;
  run for_of activeMedicines (check_medicine now) ;;
  activeMeetings <- selectEnabledMeetings ;;
  for_of activeMeetings (check_meeting now).

Definition checkAndSendAlarms (istTime : DateFields) : M unit :=
  let now := getCurrentTimeIST istTime in
  run console (LogChecking (now_time now) (now_day now) (now_date now)) ;;
  try_catch (check_all now) (fun error => console (LogSchedulerError error)).

End WithEnv.

End Server.

(** ** The offline cache (offlineStorage.ts) *)

Module Offline.

Record DismissedRecord := {
  rec_key : string;
  rec_type : string;
  rec_id : Z;
  rec_time : string;
  rec_date : string;
  rec_dismissedAt : Z;
}.

(** The object stores of the "mypa-offline" database; each is keyed by
    its [keyPath]. *)
Record OfflineDB := {
  store_alarms : gmap Z Alarm;
  store_medicines : gmap Z Medicine;
  store_meetings : gmap Z Meeting;
  store_dismissed : gmap string DismissedRecord;
  store_meta : gmap string string;
}.

Definition with_dismissed (d : gmap string DismissedRecord) (db : OfflineDB)
    : OfflineDB :=
  {| store_alarms := store_alarms db;
     store_medicines := store_medicines db;
     store_meetings := store_meetings db;
     store_dismissed := d;
     store_meta := store_meta db |}.

(** The key template of [markDismissed]. *)
Definition dismissed_key (type : string) (id : Z) (time today : string) : string :=
  type +:+ "-" +:+ pretty id +:+ "-" +:+ time +:+ "-" +:+ today.

(** [markDismissed]; [dbInstance] is [None] before [initOfflineDB], in
    which case [getDB] throws and the [catch] swallows it. [today] is
    [getTodayDateStr()], [ms] is [Date.now()]. *)
Definition markDismissed (today : string) (ms : Z) (type : string) (id : Z)
    (time : string) (dbInstance : option OfflineDB) : option OfflineDB :=
  match dbInstance with
  | None => None
  | Some db =>
      let record :=
        {| rec_key := dismissed_key type id time today;
           rec_type := type; rec_id := id; rec_time := time;
           rec_date := today; rec_dismissedAt := ms |} in
      Some (with_dismissed (<[rec_key record := record]> (store_dismissed db)) db)
  end.

(** [isDismissed] *)
Definition isDismissed (today : string) (type : string) (id : Z) (time : string)
    (dbInstance : option OfflineDB) : bool :=
  match dbInstance with
  | None => false
  | Some db =>
      bool_decide (is_Some (store_dismissed db !! dismissed_key type id time today))
  end.

(** One step of the cursor of [clearExpiredDismissals]. *)
Definition cursor_step (today : string) (entry : string * DismissedRecord)
    (store : gmap string DismissedRecord) : gmap string DismissedRecord :=
  if bool_decide (rec_date entry.2 <> today) then delete entry.1 store else store.

(** The cursor visits the records present when it was opened. *)
Definition cursor_sweep (today : string) (entries : list (string * DismissedRecord))
    (store : gmap string DismissedRecord) : gmap string DismissedRecord :=
  foldl (fun acc entry => cursor_step today entry acc) store entries.

(** [clearExpiredDismissals] *)
Definition clearExpiredDismissals (today : string)
    (dbInstance : option OfflineDB) : option OfflineDB :=
  match dbInstance with
  | None => None
  | Some db =>
      Some (with_dismissed
              (cursor_sweep today (map_to_list (store_dismissed db))
                 (store_dismissed db)) db)
  end.

End Offline.

(** ** The Schedule Store as seen from the client *)

(** The request body of [updateAlarm.mutate({ id, isActive })]. *)
Record AlarmUpdate := {
  upd_id : Z;
  upd_isActive : bool;
}.

(** Modelled from the spec: the storage layer behind the alarm update route
    ([storage.updateAlarm]) is not part of the sources; section 6 gives the
    Schedule Store the operation [setActive(id, bool)], which sets the
    active flag of the item with that id and touches nothing else. *)
Definition setActive (id : Z) (b : bool) (db : Database) : Database :=
  {| alarms :=
       map (fun a =>
              if bool_decide (alarm_id a = id) then
                {| alarm_id := alarm_id a; alarm_userId := alarm_userId a;
                   alarm_title := alarm_title a;
                   alarm_textToSpeak := alarm_textToSpeak a;
                   alarm_time := alarm_time a; alarm_date := alarm_date a;
                   alarm_days := alarm_days a; alarm_isActive := b |}
              else a) (alarms db);
     medicines := medicines db;
     meetings := meetings db;
     pushSubscriptions := pushSubscriptions db |}.

Definition apply_update (u : AlarmUpdate) (db : Database) : Database :=
  setActive (upd_id u) (upd_isActive u) db.

(** ** The client trigger coordinator (global-alarm-handler.tsx) *)

Module Client.

(** [ActiveAlarmData]; the audio fields are left out, playback is not
    modelled. *)
Record ActiveAlarmData := {
  popup_id : Z;
  popup_type : Kind;
  popup_title : string;
  popup_message : string;
  popup_isDateAlarm : bool;
}.

(** The fields of the untyped [item] that [triggerAlarm] reads for the
    popup. *)
Record Item := {
  item_id : Z;
  item_title : option string;
  item_name : option string;
  item_textToSpeak : option string;
  item_location : option string;
}.

(** The strings of [useTranslations()] the handler uses. *)
Record Translations := {
  t_alarm : string;
  t_medicine : string;
  t_medicineReminder : string;
  t_myMeetings : string;
  t_timeForMedicine : string;
}.

(** One reading of the device clock: [Date.now()] and the three
    [format(now, ...)] strings. [getTodayDateStr()] renders the same local
    date as [format(now, "yyyy-MM-dd")]. *)
Record Clock := {
  clk_ms : Z;
  clk_now : Now;
}.

Definition currentTime (c : Clock) : string := now_time (clk_now c).
Definition currentDay (c : Clock) : string := now_day (clk_now c).
Definition currentDate (c : Clock) : string := now_date (clk_now c).

Record State := {
  activeAlarms : gset Z;
  activeMeds : gset Z;
  activeMeetings : gset Z;
  dismissedAlarms : gmap Z string;
  dismissedMeds : gmap Z string;
  dismissedMeetings : gmap Z string;
  activeAlarmPopup : option ActiveAlarmData;
  (** [lastTriggeredRef.current] *)
  lastTriggered : gmap string Z;
  (** [isProcessingRef.current] *)
  isProcessing : bool;
  (** [dbInstance] of the offline cache *)
  offline : option Offline.OfflineDB;
  (** requests issued through [updateAlarm.mutate], oldest first *)
  requests : list AlarmUpdate;
  (** every popup opened by [triggerAlarm], oldest first *)
  presented : list ActiveAlarmData;
}.

Definition initial : State :=
  {| activeAlarms := ∅; activeMeds := ∅; activeMeetings := ∅;
     dismissedAlarms := ∅; dismissedMeds := ∅; dismissedMeetings := ∅;
     activeAlarmPopup := None; lastTriggered := ∅; isProcessing := false;
     offline := None; requests := []; presented := [] |}.

(** Which [Set]/[Map] pair of the state belongs to a kind. *)
Definition active_of (k : Kind) (st : State) : gset Z :=
  match k with
  | KAlarm => activeAlarms st
  | KMedicine => activeMeds st
  | KMeeting => activeMeetings st
  end.

Definition dismissed_of (k : Kind) (st : State) : gmap Z string :=
  match k with
  | KAlarm => dismissedAlarms st
  | KMedicine => dismissedMeds st
  | KMeeting => dismissedMeetings st
  end.

(** [setActiveAlarms], [setActiveMeds], [setActiveMeetings] with a
    functional update. *)
Definition set_active (k : Kind) (f : gset Z -> gset Z) (st : State) : State :=
  {| activeAlarms := if decide (k = KAlarm) then f (activeAlarms st) else activeAlarms st;
     activeMeds := if decide (k = KMedicine) then f (activeMeds st) else activeMeds st;
     activeMeetings := if decide (k = KMeeting) then f (activeMeetings st) else activeMeetings st;
     dismissedAlarms := dismissedAlarms st;
     dismissedMeds := dismissedMeds st;
     dismissedMeetings := dismissedMeetings st;
     activeAlarmPopup := activeAlarmPopup st;
     lastTriggered := lastTriggered st;
     isProcessing := isProcessing st;
     offline := offline st;
     requests := requests st;
     presented := presented st |}.

(** [setDismissedAlarms], [setDismissedMeds], [setDismissedMeetings]. *)
Definition set_dismissed (k : Kind) (f : gmap Z string -> gmap Z string)
    (st : State) : State :=
  {| activeAlarms := activeAlarms st;
     activeMeds := activeMeds st;
     activeMeetings := activeMeetings st;
     dismissedAlarms := if decide (k = KAlarm) then f (dismissedAlarms st) else dismissedAlarms st;
     dismissedMeds := if decide (k = KMedicine) then f (dismissedMeds st) else dismissedMeds st;
     dismissedMeetings := if decide (k = KMeeting) then f (dismissedMeetings st) else dismissedMeetings st;
     activeAlarmPopup := activeAlarmPopup st;
     lastTriggered := lastTriggered st;
     isProcessing := isProcessing st;
     offline := offline st;
     requests := requests st;
     presented := presented st |}.

(** [setActiveAlarmPopup] *)
Definition set_popup (p : option ActiveAlarmData) (st : State) : State :=
  {| activeAlarms := activeAlarms st;
     activeMeds := activeMeds st;
     activeMeetings := activeMeetings st;
     dismissedAlarms := dismissedAlarms st;
     dismissedMeds := dismissedMeds st;
     dismissedMeetings := dismissedMeetings st;
     activeAlarmPopup := p;
     lastTriggered := lastTriggered st;
     isProcessing := isProcessing st;
     offline := offline st;
     requests := requests st;
     presented := presented st |}.

(** Everything else the state is made of. *)
Definition set_refs (lt : gmap string Z) (processing : bool)
    (off : option Offline.OfflineDB) (reqs : list AlarmUpdate)
    (shown : list ActiveAlarmData) (st : State) : State :=
  {| activeAlarms := activeAlarms st;
     activeMeds := activeMeds st;
     activeMeetings := activeMeetings st;
     dismissedAlarms := dismissedAlarms st;
     dismissedMeds := dismissedMeds st;
     dismissedMeetings := dismissedMeetings st;
     activeAlarmPopup := activeAlarmPopup st;
     lastTriggered := lt;
     isProcessing := processing;
     offline := off;
     requests := reqs;
     presented := shown |}.

(** *** The dedup gate *)

(** The key template of [isDedupBlocked]. *)
Definition dedupKey (type : Kind) (id : Z) : string :=
  kindName type +:+ "-" +:+ pretty id.

(** [isDedupBlocked]: the verdict and the map afterwards. [ms] is
    [Date.now()]; an absent entry and the timestamp [0] are both falsy. *)
Definition isDedupBlocked (ms : Z) (type : Kind) (id : Z)
    (last : gmap string Z) : bool * gmap string Z :=
  let key := dedupKey type id in
  match last !! key with
  | Some lastTime =>
      if negb (lastTime =? 0) && (ms - lastTime <? 60000)
      then (true, last)
      else (false, <[key := ms]> last)
  | None => (false, <[key := ms]> last)
  end.

(** An absent field of [item] inside a template literal. *)
Definition interpolate (o : option string) : string :=
  match o with
  | Some s => s
  | None => "undefined"
  end.

(** The popup [triggerAlarm] opens. *)
Definition popup_of (item : Item) (type : Kind) (isDateAlarm : bool)
    : ActiveAlarmData :=
  let fallback :=
    match type with
    | KMedicine => "Time for medicine: " +:+ interpolate (item_name item)
    | KMeeting =>
        "Meeting: " +:+ interpolate (item_title item) +:+
        (if Js.truthy (item_location item)
         then " at " +:+ interpolate (item_location item) else "")
    | KAlarm => "Alarm"
    end in
  {| popup_id := item_id item;
     popup_type := type;
     popup_title := Js.or_else (item_title item) (Js.or_else (item_name item) "Alarm");
     popup_message :=
       Js.or_else (item_textToSpeak item) (Js.or_else (item_title item) fallback);
     popup_isDateAlarm := isDateAlarm |}.

(** [triggerAlarm] *)
Definition triggerAlarm (ms : Z) (item : Item) (type : Kind)
    (isDateAlarm : bool) (st : State) : State :=
  let (blocked, last) := isDedupBlocked ms type (item_id item) (lastTriggered st) in
  if blocked then st
  else
    let popup := popup_of item type isDateAlarm in
    set_popup (Some popup)
      (set_refs last (isProcessing st) (offline st) (requests st)
         (presented st ++ [popup]) st).

Section WithTranslations.
Variable t : Translations.

(** [data.id || data.alarmId || 0]; the payload has no [alarmId]. *)
Definition push_id (data : PushPayload) : Z :=
  match pl_id data with
  | Some i => if i =? 0 then 0 else i
  | None => 0
  end.

Definition push_kind (data : PushPayload) : Kind :=
  let isMedicine := bool_decide (pl_type data = KMedicine) in
  let isMeeting := bool_decide (pl_type data = KMeeting) in
  if isMeeting then KMeeting else if isMedicine then KMedicine else KAlarm.

Definition push_item (data : PushPayload) : Item :=
  let isMedicine := bool_decide (pl_type data = KMedicine) in
  let isMeeting := bool_decide (pl_type data = KMeeting) in
  let title := Some (pl_title data) in
  let medName := Js.or_else title (t_medicine t) in
  let defaultMedText := t_timeForMedicine t +:+ ": " +:+ medName in
  {| item_id := push_id data;
     item_title :=
       Some (Js.or_else title
               (if isMeeting then t_myMeetings t
                else if isMedicine then t_medicineReminder t else t_alarm t));
     item_name :=
       Some (Js.or_else title (if isMedicine then t_medicine t else t_alarm t));
     item_textToSpeak :=
       if Js.truthy (pl_textToSpeak data) then pl_textToSpeak data
       else if Js.truthy (Some (pl_body data)) then Some (pl_body data)
       else if isMedicine then Some defaultMedText
       else if isMeeting then Some ("Meeting: " +:+ pl_title data)
       else None;
     item_location := None |}.

(** [triggerFromPushData] *)
Definition triggerFromPushData (ms : Z) (data : PushPayload) (st : State)
    : State :=
  triggerAlarm ms (push_item data) (push_kind data) false st.

End WithTranslations.

(** *** Dismissal *)

(** [dismissAlarm]. The guard [isProcessingRef] is released 300 ms later
    by a timer, see [release_processing]. *)
Definition dismissAlarm (clock : Clock) (st : State) : State :=
  if isProcessing st then st
  else
    match activeAlarmPopup st with
    | Some popup =>
        let id := popup_id popup in
        let type := popup_type popup in
        let st1 := set_active type (fun prev => prev ∖ {[id]}) st in
        let st2 := set_dismissed type (fun prev => <[id := currentTime clock]> prev) st1 in
        let off :=
          Offline.markDismissed (currentDate clock) (clk_ms clock)
            (kindName type) id (currentTime clock) (offline st2) in
        let reqs :=
          match type with
          | KAlarm =>
              if popup_isDateAlarm popup
              then requests st2 ++ [{| upd_id := id; upd_isActive := false |}]
              else requests st2
          | _ => requests st2
          end in
        set_popup None (set_refs (lastTriggered st2) true off reqs (presented st2) st2)
    | None =>
        set_refs (lastTriggered st) true (offline st) (requests st) (presented st) st
    end.

(** The timer armed at the end of [dismissAlarm]. *)
Definition release_processing (st : State) : State :=
  set_refs (lastTriggered st) false (offline st) (requests st) (presented st) st.

(** *** The polling loop *)

Definition item_of_alarm (alarm : Alarm) : Item :=
  {| item_id := alarm_id alarm;
     item_title := alarm_title alarm;
     item_name := None;
     item_textToSpeak := alarm_textToSpeak alarm;
     item_location := None |}.

Definition item_of_medicine (med : Medicine) : Item :=
  {| item_id := med_id med;
     item_title := None;
     item_name := Some (med_name med);
     item_textToSpeak := med_textToSpeak med;
     item_location := None |}.

(** [meetingItem] *)
Definition item_of_meeting (meeting : Meeting) : Item :=
  {| item_id := meeting_id meeting;
     item_title := Some (meeting_title meeting);
     item_name := None;
     item_textToSpeak :=
       Some (Js.or_else (meeting_textToSpeak meeting)
               ("Meeting: " +:+ meeting_title meeting +:+
                (if Js.truthy (meeting_location meeting)
                 then " at " +:+ interpolate (meeting_location meeting) else "")));
     item_location := meeting_location meeting |}.

(** The test of the alarm branch:
    [isTimeMatch && (isDayMatch || isDateMatch || (!alarm.days?.length && !alarm.date))]. *)
Definition alarm_matches (now : Now) (alarm : Alarm) : bool :=
  let isTimeMatch := String.eqb (alarm_time alarm) (now_time now) in
  let isDayMatch := Js.opt_includes (alarm_days alarm) (now_day now) in
  let isDateMatch := Js.strict_eq (alarm_date alarm) (now_date now) in
  isTimeMatch
  && (isDayMatch || isDateMatch
      || (negb (Js.non_empty (alarm_days alarm)) && negb (Js.truthy (alarm_date alarm)))).

(** [med.times?.includes(currentTime)] *)
Definition medicine_matches (now : Now) (med : Medicine) : bool :=
  Js.opt_includes (med_times med) (now_time now).

(** [isTimeMatch && isDateMatch] of the meeting branch. *)
Definition meeting_matches (now : Now) (meeting : Meeting) : bool :=
  String.eqb (meeting_time meeting) (now_time now)
  && String.eqb (meeting_date meeting) (now_date now).

(** The part shared by the three [forEach] bodies. [snap] holds the
    state variables captured by the interval callback; the functional
    [set...] updates and the ref act on the running state [st]. *)
Definition poll_item (snap : State) (clock : Clock) (type : Kind) (id : Z)
    (matches : bool) (item : Item) (isDateAlarm : bool) (st : State) : State :=
  let wasDismissedThisMinute :=
    bool_decide (dismissed_of type snap !! id = Some (currentTime clock)) in
  if matches then
    if negb (bool_decide (id ∈ active_of type snap)) && negb wasDismissedThisMinute then
      let st1 := triggerAlarm (clk_ms clock) item type isDateAlarm st in
      set_active type (fun prev => prev ∪ {[id]}) st1
    else st
  else
    let st1 :=
      if bool_decide (id ∈ active_of type snap)
         && negb (bool_decide (is_Some (activeAlarmPopup snap)))
      then set_active type (fun prev => prev ∖ {[id]}) st
      else st in
    if bool_decide (is_Some (dismissed_of type snap !! id))
       && negb (bool_decide (dismissed_of type snap !! id = Some (currentTime clock)))
    then set_dismissed type (fun prev => delete id prev) st1
    else st1.

Definition poll_alarm (snap : State) (clock : Clock) (alarm : Alarm)
    (st : State) : State :=
  if negb (alarm_isActive alarm) then st
  else
    let isDateMatch := Js.strict_eq (alarm_date alarm) (currentDate clock) in
    poll_item snap clock KAlarm (alarm_id alarm)
      (alarm_matches (clk_now clock) alarm) (item_of_alarm alarm) isDateMatch st.

Definition poll_medicine (snap : State) (clock : Clock) (med : Medicine)
    (st : State) : State :=
  poll_item snap clock KMedicine (med_id med)
    (medicine_matches (clk_now clock) med) (item_of_medicine med) false st.

Definition poll_meeting (snap : State) (clock : Clock) (meeting : Meeting)
    (st : State) : State :=
  if negb (meeting_enabled meeting) then st
  else
    poll_item snap clock KMeeting (meeting_id meeting)
      (meeting_matches (clk_now clock) meeting) (item_of_meeting meeting) false st.

(** One run of the interval callback over the effective lists. *)
Definition poll_tick (clock : Clock) (effectiveAlarms : list Alarm)
    (effectiveMedicines : list Medicine) (effectiveMeetings : list Meeting)
    (st : State) : State :=
  let snap := st in
  let st1 := foldl (fun acc alarm => poll_alarm snap clock alarm acc) st effectiveAlarms in
  let st2 := foldl (fun acc med => poll_medicine snap clock med acc) st1 effectiveMedicines in
  foldl (fun acc meeting => poll_meeting snap clock meeting acc) st2 effectiveMeetings.

(** The due decisions of the polling loop, before the active and
    dismissed gates. *)
Definition alarm_due (now : Now) (alarm : Alarm) : bool :=
  alarm_isActive alarm && alarm_matches now alarm.

Definition medicine_due (now : Now) (med : Medicine) : bool :=
  medicine_matches now med.

Definition meeting_due (now : Now) (meeting : Meeting) : bool :=
  meeting_enabled meeting && meeting_matches now meeting.

End Client.

(** ** Summaries used to state the dispatcher's behaviour *)

Section DispatchSummary.
Import Server.
Variable env : Env.

(** The endpoints the transport accepts the payload for. *)
Definition delivered (payload : PushPayload) (s : PushSubscription) : bool :=
  match transport env s payload with
  | Delivered => true
  | Rejected _ => false
  end.

(** The endpoints whose rejection is "subscription gone" (410 or 404). *)
Definition permanent (payload : PushPayload) (s : PushSubscription) : bool :=
  match transport env s payload with
  | Delivered => false
  | Rejected statusCode => is_gone statusCode
  end.

Definition with_subscriptions (subs : list PushSubscription) (db : Database)
    : Database :=
  {| alarms := alarms db; medicines := medicines db; meetings := meetings db;
     pushSubscriptions := subs |}.

Definition gone_ids (payload : PushPayload) (l : list PushSubscription) : list Z :=
  sub_id <$> filter (fun s => permanent payload s = true) l.

(** What the console receives for one device. *)
Definition device_log (payload : PushPayload) (s : PushSubscription)
    : list LogEntry :=
  match transport env s payload with
  | Delivered => [LogSent (sub_id s)]
  | Rejected statusCode =>
      if is_gone statusCode
      then [LogFailed (sub_id s); LogRemoved (sub_id s)]
      else [LogFailed (sub_id s)]
  end.

End DispatchSummary.

(** ** Summaries used to state the scheduler's behaviour *)

Definition same_schedule (db db' : Database) : Prop :=
  alarms db = alarms db' /\ medicines db = medicines db' /\ meetings db = meetings db'.

(** [pl] is the payload built for an item of [db] that the scheduler
    selects (active or enabled) and finds due at [now]. *)
Definition due_payload (now : Now) (db : Database) (pl : PushPayload) : Prop :=
  (exists a, a ∈ alarms db /\ alarm_isActive a = true
             /\ Server.alarm_shouldTrigger now a = true
             /\ pl = Server.alarm_payload a)
  \/ (exists m, m ∈ medicines db /\ med_isActive m = true
                /\ Server.medicine_shouldTrigger now m = true
                /\ pl = Server.medicine_payload m)
  \/ (exists m, m ∈ meetings db /\ meeting_enabled m = true
                /\ Server.meeting_shouldTrigger now m = true
                /\ pl = Server.meeting_payload m).

(** Frame of one scheduler run started on the schedule of [db0]: the
    schedule tables stay what they were, and every delivery attempt added
    carries the payload of a due item of [db0]. *)
Definition tick_frame (now : Now) (db0 : Database) (w w' : Server.World) : Prop :=
  same_schedule db0 (Server.w_db w) ->
  same_schedule db0 (Server.w_db w')
  /\ exists l, Server.w_attempts w' = Server.w_attempts w ++ l
               /\ Forall (fun x => due_payload now db0 x.2) l.

(** The three kinds of schedule items, as the tagged union the scheduler
    walks through. *)
Inductive ScheduleItem :=
| AlarmItem (alarm : Alarm)
| MedicineItem (medicine : Medicine)
| MeetingItem (meeting : Meeting).

(** The loop body the scheduler runs for an item. *)
Definition check_item (env : Server.Env) (now : Now) (i : ScheduleItem)
    : Server.M unit :=
  match i with
  | AlarmItem alarm => Server.check_alarm env now alarm
  | MedicineItem medicine => Server.check_medicine env now medicine
  | MeetingItem meeting => Server.check_meeting env now meeting
  end.

(** The items one tick walks through, in its order: the three [SELECT]s. *)
Definition selected (db : Database) : list ScheduleItem :=
  (AlarmItem <$> filter (fun a => alarm_isActive a = true) (alarms db))
  ++ (MedicineItem <$> filter (fun m => med_isActive m = true) (medicines db))
  ++ (MeetingItem <$> filter (fun m => meeting_enabled m = true) (meetings db)).

(** The world in which the [try] block of a tick starts. *)
Definition tick_start (now : Now) (w : Server.World) : Server.World :=
  {| Server.w_db := Server.w_db w;
     Server.w_attempts := Server.w_attempts w;
     Server.w_console :=
       Server.w_console w
       ++ [Server.LogChecking (now_time now) (now_day now) (now_date now)] |}.

Definition log_error (e : Server.Exn) (w : Server.World) : Server.World :=
  {| Server.w_db := Server.w_db w;
     Server.w_attempts := Server.w_attempts w;
     Server.w_console := Server.w_console w ++ [Server.LogSchedulerError e] |}.

(** ** The due decisions, side by side *)

(** The occurrence evaluator as section 4.1 of the specification words it;
    time of day is compared at minute granularity (HH:MM only). *)
Module Spec.

Definition timeOfDay_is (now : Now) (timeOfDay : string) : Prop :=
  Js.hhmm timeOfDay = now_time now.

Definition isDue (now : Now) (i : ScheduleItem) : Prop :=
  match i with
  | AlarmItem a =>
      if Js.truthy (alarm_date a) then
        alarm_date a = Some (now_date now) /\ timeOfDay_is now (alarm_time a)
      else if Js.non_empty (alarm_days a) then
        now_day now ∈ default [] (alarm_days a) /\ timeOfDay_is now (alarm_time a)
      else timeOfDay_is now (alarm_time a)
  | MedicineItem m =>
      exists t, t ∈ default [] (med_times m) /\ timeOfDay_is now t
  | MeetingItem m =>
      meeting_enabled m = true
      /\ meeting_date m = now_date now
      /\ timeOfDay_is now (meeting_time m)
  end.

End Spec.

(** The scheduler's decision for an item: the filter of its [SELECT] and
    the test of its loop body. *)
Definition server_due (now : Now) (i : ScheduleItem) : bool :=
  match i with
  | AlarmItem a => alarm_isActive a && Server.alarm_shouldTrigger now a
  | MedicineItem m => med_isActive m && Server.medicine_shouldTrigger now m
  | MeetingItem m => meeting_enabled m && Server.meeting_shouldTrigger now m
  end.

(** The polling loop's decision for an item. *)
Definition client_due (now : Now) (i : ScheduleItem) : bool :=
  match i with
  | AlarmItem a => Client.alarm_due now a
  | MedicineItem m => Client.medicine_due now m
  | MeetingItem m => Client.meeting_due now m
  end.

(** Alarms and medicines carry an active flag. *)
Definition is_active (i : ScheduleItem) : bool :=
  match i with
  | AlarmItem a => alarm_isActive a
  | MedicineItem m => med_isActive m
  | MeetingItem _ => true
  end.

Definition item_kind (i : ScheduleItem) : Kind :=
  match i with
  | AlarmItem _ => KAlarm
  | MedicineItem _ => KMedicine
  | MeetingItem _ => KMeeting
  end.

Definition item_key (i : ScheduleItem) : Z :=
  match i with
  | AlarmItem a => alarm_id a
  | MedicineItem m => med_id m
  | MeetingItem m => meeting_id m
  end.

(** A stored time that is already in HH:mm form. *)
Definition is_hhmm (s : string) : bool := String.eqb (Js.hhmm s) s.

(** The items on which the polling loop and the scheduler compare the
    same strings: times stored as HH:mm, and no alarm that carries both a
    date and weekdays. *)
Definition plain_item (i : ScheduleItem) : bool :=
  match i with
  | AlarmItem a =>
      is_hhmm (alarm_time a)
      && negb (Js.truthy (alarm_date a) && Js.non_empty (alarm_days a))
  | MedicineItem m => forallb is_hhmm (default [] (med_times m))
  | MeetingItem m => is_hhmm (meeting_time m)
  end.

(** ** Triggers reaching the coordinator *)

(** A due-event on its way into [triggerAlarm]: from the polling loop, with
    the item and the flags the loop passes, or from a push message. *)
Inductive Trigger :=
| PollTrigger (item : Client.Item) (type : Kind) (isDateAlarm : bool)
| PushTrigger (data : PushPayload).

(** The key under which the dedup gate files a trigger. *)
Definition trigger_key (t : Client.Translations) (tr : Trigger) : string :=
  match tr with
  | PollTrigger item type _ => Client.dedupKey type (Client.item_id item)
  | PushTrigger data =>
      Client.dedupKey (Client.push_kind data) (Client.item_id (Client.push_item t data))
  end.

(** The popup a trigger opens when it passes the gate. *)
Definition trigger_popup (t : Client.Translations) (tr : Trigger)
    : Client.ActiveAlarmData :=
  match tr with
  | PollTrigger item type isDateAlarm => Client.popup_of item type isDateAlarm
  | PushTrigger data =>
      Client.popup_of (Client.push_item t data) (Client.push_kind data) false
  end.

(** Handing a trigger to the coordinator at [Date.now() = ms]. *)
Definition receive (t : Client.Translations) (ms : Z) (tr : Trigger)
    (st : Client.State) : Client.State :=
  match tr with
  | PollTrigger item type isDateAlarm => Client.triggerAlarm ms item type isDateAlarm st
  | PushTrigger data => Client.triggerFromPushData t ms data st
  end.

(** Whether the gate lets a trigger with this key through. *)
Definition admitted (ms : Z) (key : string) (last : gmap string Z) : bool :=
  match last !! key with
  | Some lastTime => negb (negb (lastTime =? 0) && (ms - lastTime <? 60000))
  | None => true
  end.

(** The trigger the polling loop raises for an item that is due. *)
Definition poll_trigger (now : Now) (i : ScheduleItem) : Trigger :=
  match i with
  | AlarmItem a =>
      PollTrigger (Client.item_of_alarm a) KAlarm
        (Js.strict_eq (alarm_date a) (now_date now))
  | MedicineItem m => PollTrigger (Client.item_of_medicine m) KMedicine false
  | MeetingItem m => PollTrigger (Client.item_of_meeting m) KMeeting false
  end.

(** The payload the scheduler pushes for an item. *)
Definition payload_of (i : ScheduleItem) : PushPayload :=
  match i with
  | AlarmItem a => Server.alarm_payload a
  | MedicineItem m => Server.medicine_payload m
  | MeetingItem m => Server.meeting_payload m
  end.

(** The occurrence key as section 3 of the specification words it:
    kind, item id and firing time of day, as in "alarm-<id>-07:00". *)
Definition spec_occurrenceKey (kind : Kind) (itemId : Z) (firingTimeOfDay : string)
    : string :=
  kindName kind +:+ "-" +:+ pretty itemId +:+ "-" +:+ firingTimeOfDay.

(** The popups opened so far for one item. *)
Definition shown (k : Kind) (id : Z) (st : Client.State)
    : list Client.ActiveAlarmData :=
  filter (fun p => Client.popup_type p = k /\ Client.popup_id p = id)
    (Client.presented st).

(** The lists one run of the interval callback works on. *)
Record PollInput := {
  poll_clock : Client.Clock;
  poll_alarms : list Alarm;
  poll_medicines : list Medicine;
  poll_meetings : list Meeting;
}.

Definition poll (input : PollInput) (st : Client.State) : Client.State :=
  Client.poll_tick (poll_clock input) (poll_alarms input) (poll_medicines input)
    (poll_meetings input) st.

(** Successive runs of the interval callback. *)
Definition polls (inputs : list PollInput) (st : Client.State) : Client.State :=
  foldl (fun acc input => poll input acc) st inputs.

(** The store after the requests the client issued have been served. *)
Definition apply_updates (us : list AlarmUpdate) (db : Database) : Database :=
  foldl (fun acc u => apply_update u acc) db us.

(** No alarm row with this id is active. *)
Definition inactive_in (id : Z) (db : Database) : Prop :=
  forall a, a ∈ alarms db -> alarm_id a = id -> alarm_isActive a = false.

(** ** Concrete data used by the examples *)

Module Examples.
Import Server.

(** Monday 6 January 2025, 07:00 IST. *)
Definition monday_0700 : DateFields :=
  {| getUTCHours := 7; getUTCMinutes := 0; getUTCDay := Mon;
     getUTCFullYear := 2025; getUTCMonth := 0; getUTCDate := 6 |}.

Definition subscription (id : Z) (userId endpoint : string) : PushSubscription :=
  {| sub_id := id; sub_userId := userId; sub_endpoint := endpoint;
     sub_p256dh := "p256dh"; sub_auth := "auth"; sub_supportsFullScreen := false |}.

Definition sub_A := subscription 1 "u1" "https://push.example/A".
Definition sub_B := subscription 2 "u1" "https://push.example/B".
Definition sub_C := subscription 3 "u1" "https://push.example/C".
Definition sub_D := subscription 4 "u2" "https://push.example/D".

(** A accepts, B answers 410 Gone, C times out, every other endpoint
    accepts; the database answers every statement. *)
Definition env_abc : Env :=
  {| transport := fun s _ =>
       if sub_id s =? 2 then Rejected (Some 410)
       else if sub_id s =? 3 then Rejected None
       else Delivered;
     db_rejects := fun _ => false |}.

(** Like [env_abc], but the subscription query for user "u1" is rejected. *)
Definition env_u1_down : Env :=
  {| transport := transport env_abc;
     db_rejects := fun op =>
       match op with
       | SelectSubscriptions userId => String.eqb userId "u1"
       | _ => false
       end |}.

Definition date_alarm : Alarm :=
  {| alarm_id := 1; alarm_userId := "u1"; alarm_title := Some "Dentist";
     alarm_textToSpeak := None; alarm_time := "07:00";
     alarm_date := Some "2025-01-06"; alarm_days := Some [];
     alarm_isActive := true |}.

(** A daily alarm of another user, as the alarm form stores it. *)
Definition daily_alarm : Alarm :=
  {| alarm_id := 2; alarm_userId := "u2"; alarm_title := Some "Wake up";
     alarm_textToSpeak := None; alarm_time := "07:00";
     alarm_date := Some ""; alarm_days := Some [];
     alarm_isActive := true |}.

(** An alarm carrying both a past date and a weekday. *)
Definition dated_monday_alarm : Alarm :=
  {| alarm_id := 3; alarm_userId := "u1"; alarm_title := Some "Gym";
     alarm_textToSpeak := None; alarm_time := "07:00";
     alarm_date := Some "2025-01-01"; alarm_days := Some ["Mon"];
     alarm_isActive := true |}.

Definition standup : Meeting :=
  {| meeting_id := 1; meeting_userId := "u1"; meeting_title := "Standup";
     meeting_location := None; meeting_textToSpeak := None;
     meeting_date := "2025-01-06"; meeting_time := "07:00";
     meeting_enabled := true |}.

Definition pills : Medicine :=
  {| med_id := 1; med_userId := "u2"; med_name := "Aspirin";
     med_dosage := None; med_textToSpeak := None;
     med_times := Some ["07:00"; "19:00"]; med_isActive := true |}.

Definition world_of (db : Database) : World :=
  {| w_db := db; w_attempts := []; w_console := [] |}.

(** User "u1" with the three endpoints A, B, C. *)
Definition db_abc : Database :=
  {| alarms := []; medicines := []; meetings := [];
     pushSubscriptions := [sub_A; sub_B; sub_C] |}.

(** A one-shot alarm and a meeting of "u1", both due on Monday 07:00. *)
Definition db_one_shot : Database :=
  {| alarms := [date_alarm]; medicines := []; meetings := [standup];
     pushSubscriptions := [sub_A] |}.

(** Items of two users due in the same minute. *)
Definition db_two_users : Database :=
  {| alarms := [date_alarm; daily_alarm]; medicines := [pills];
     meetings := [standup]; pushSubscriptions := [sub_A; sub_D] |}.

Definition english : Client.Translations :=
  {| Client.t_alarm := "Alarm"; Client.t_medicine := "Medicine";
     Client.t_medicineReminder := "Medicine Reminder";
     Client.t_myMeetings := "My Meetings";
     Client.t_timeForMedicine := "Time for medicine" |}.

(** The device clock showing Monday 2025-01-06, [hhmm], at [ms]
    milliseconds. *)
Definition clock_at (ms : Z) (hhmm : string) : Client.Clock :=
  {| Client.clk_ms := ms;
     Client.clk_now :=
       {| now_time := hhmm; now_day := "Mon"; now_date := "2025-01-06" |} |}.

(** The handler after [initOfflineDB], before anything was cached. *)
Definition started : Client.State :=
  Client.set_refs ∅ false
    (Some {| Offline.store_alarms := ∅; Offline.store_medicines := ∅;
             Offline.store_meetings := ∅; Offline.store_dismissed := ∅;
             Offline.store_meta := ∅ |})
    [] [] Client.initial.

Definition dismissed_tomorrow : Offline.DismissedRecord :=
  {| Offline.rec_key := "alarm-2-07:00-2025-01-07";
     Offline.rec_type := "alarm"; Offline.rec_id := 2;
     Offline.rec_time := "07:00"; Offline.rec_date := "2025-01-07";
     Offline.rec_dismissedAt := 1736213400000 |}.

Definition offline_db : Offline.OfflineDB :=
  {| Offline.store_alarms := {[ 2 := daily_alarm ]};
     Offline.store_medicines := ∅;
     Offline.store_meetings := ∅;
     Offline.store_dismissed := {[ "alarm-2-07:00-2025-01-07" := dismissed_tomorrow ]};
     Offline.store_meta := ∅ |}.

End Examples.

(** ** Subscription management (pushNotification.ts) and its routes *)

Module Registry.

(** The statements of [savePushSubscription] and [removePushSubscription]. *)
Inductive Statement :=
| SelectByEndpoint (endpoint : string)
| UpdateByEndpoint (endpoint : string)
| InsertSubscription (endpoint : string)
| DeleteByEndpoint (endpoint : string).

(** [.set({ userId, p256dh, auth, supportsFullScreen: supportsFullScreen || false })]
    on one row; the columns platform, deviceType and deviceName are not part
    of [PushSubscription] here. *)
Definition refresh (userId p256dh auth : string) (supportsFullScreen : option bool)
    (s : PushSubscription) : PushSubscription :=
  {| sub_id := sub_id s; sub_userId := userId; sub_endpoint := sub_endpoint s;
     sub_p256dh := p256dh; sub_auth := auth;
     sub_supportsFullScreen := default false supportsFullScreen |}.

(** [savePushSubscription]. Neither function catches anything: a rejected
    statement leaves the function as an exception, [inl], and since each
    call writes at most once the table is then as before. [serial] is the
    value the id sequence hands out if a row is inserted. *)
Definition savePushSubscription (rejects : Statement -> bool) (serial : Z)
    (userId endpoint p256dh auth : string) (supportsFullScreen : option bool)
    (db : Database) : Statement + Database :=
  if rejects (SelectByEndpoint endpoint) then inl (SelectByEndpoint endpoint)
  else
    let existing := filter (fun s => sub_endpoint s = endpoint) (pushSubscriptions db) in
    if (0 <? length existing)%nat then
      if rejects (UpdateByEndpoint endpoint) then inl (UpdateByEndpoint endpoint)
      else
        inr (with_subscriptions
               (map (fun s => if bool_decide (sub_endpoint s = endpoint)
                              then refresh userId p256dh auth supportsFullScreen s
                              else s) (pushSubscriptions db)) db)
    else
      if rejects (InsertSubscription endpoint) then inl (InsertSubscription endpoint)
      else
        inr (with_subscriptions
               (pushSubscriptions db ++
                [{| sub_id := serial; sub_userId := userId; sub_endpoint := endpoint;
                    sub_p256dh := p256dh; sub_auth := auth;
                    sub_supportsFullScreen := default false supportsFullScreen |}]) db).

(** [removePushSubscription] *)
Definition removePushSubscription (rejects : Statement -> bool) (endpoint : string)
    (db : Database) : Statement + Database :=
  if rejects (DeleteByEndpoint endpoint) then inl (DeleteByEndpoint endpoint)
  else
    inr (with_subscriptions
           (filter (fun s => sub_endpoint s <> endpoint) (pushSubscriptions db)) db).

(** The body of POST /api/push/subscribe: [endpoint], [keys.p256dh] and
    [keys.auth] may be missing or empty. *)
Record SubscribeBody := {
  body_endpoint : option string;
  body_p256dh : option string;
  body_auth : option string;
  body_supportsFullScreen : option bool;
}.

(** The handler of POST /api/push/subscribe: the HTTP status it answers
    with and the database afterwards. [authenticated] is
    [isAuthenticatedAny(req)], [userId] is [getUserId(req)]. *)
Definition subscribe_route (rejects : Statement -> bool) (serial : Z)
    (authenticated : bool) (userId : string) (body : SubscribeBody)
    (db : Database) : Z * Database :=
  if negb authenticated then (401, db)
  else if negb (Js.truthy (body_endpoint body))
          || negb (Js.truthy (body_p256dh body))
          || negb (Js.truthy (body_auth body)) then (400, db)
  else
    match savePushSubscription rejects serial userId
            (default "" (body_endpoint body)) (default "" (body_p256dh body))
            (default "" (body_auth body)) (body_supportsFullScreen body) db with
    | inr db' => (200, db')
    | inl _ => (500, db)
    end.

(** The handler of POST /api/push/unsubscribe. *)
Definition unsubscribe_route (rejects : Statement -> bool)
    (endpoint : option string) (db : Database) : Z * Database :=
  if Js.truthy endpoint then
    match removePushSubscription rejects (default "" endpoint) db with
    | inr db' => (200, db')
    | inl _ => (500, db)
    end
  else (200, db).

End Registry.

(** ** Starting and stopping the scheduler (alarmScheduler.ts) *)

Module SchedulerProcess.

(** The timers of the Node process that belong to the scheduler:
    [schedulerInterval], the handles [setInterval] has handed out and not
    yet cleared, the next handle, and how many immediate runs of
    [checkAndSendAlarms] were started. *)
Record Process := {
  schedulerInterval : option nat;
  intervals : gset nat;
  next_handle : nat;
  immediate_runs : nat;
}.

Definition boot : Process :=
  {| schedulerInterval := None; intervals := ∅; next_handle := 0;
     immediate_runs := 0 |}.

(** [startAlarmScheduler] *)
Definition startAlarmScheduler (p : Process) : Process :=
  match schedulerInterval p with
  | Some _ => p
  | None =>
      {| schedulerInterval := Some (next_handle p);
         intervals := intervals p ∪ {[next_handle p]};
         next_handle := S (next_handle p);
         immediate_runs := S (immediate_runs p) |}
  end.

(** [stopAlarmScheduler] *)
Definition stopAlarmScheduler (p : Process) : Process :=
  match schedulerInterval p with
  | Some h =>
      {| schedulerInterval := None;
         intervals := intervals p ∖ {[h]};
         next_handle := next_handle p;
         immediate_runs := immediate_runs p |}
  | None => p
  end.

Inductive Call := Start | Stop.

Definition call (p : Process) (c : Call) : Process :=
  match c with
  | Start => startAlarmScheduler p
  | Stop => stopAlarmScheduler p
  end.

Definition calls (cs : list Call) (p : Process) : Process := foldl call p cs.

(** The interval timers of the scheduler are the one [schedulerInterval]
    holds, if any. *)
Definition one_timer (p : Process) : Prop :=
  intervals p = match schedulerInterval p with
                | Some h => {[h]}
                | None => ∅
                end.

End SchedulerProcess.

(** ** The offline cache: mirroring and reading back *)

Module Cache.
Import Offline.

(** [putAll] on a store keyed by [id]: clear, then [put] every item in turn;
    a later item replaces an earlier one with the same id. *)
Definition putAll {A} (key : A -> Z) (items : list A) : gmap Z A :=
  foldl (fun store item => <[key item := item]> store) ∅ items.

(** The order in which a cursor walks a store keyed by number. *)
Definition key_le {A} (a b : Z * A) : Prop := a.1 <= b.1.

#[global] Instance key_le_dec {A} (a b : Z * A) : Decision (key_le a b).
Proof. unfold key_le. apply _. Defined.

(** The order in which a cursor walks a store keyed by string. *)
Definition skey_le {A} (a b : string * A) : Prop := String.leb a.1 b.1 = true.

#[global] Instance skey_le_dec {A} (a b : string * A) : Decision (skey_le a b).
Proof. unfold skey_le. apply _. Defined.

(** [getAll]: the values of a store, in ascending key order. *)
Definition getAll {A} (store : gmap Z A) : list A :=
  snd <$> merge_sort key_le (map_to_list store).

Definition with_alarms (a : gmap Z Alarm) (db : OfflineDB) : OfflineDB :=
  {| store_alarms := a; store_medicines := store_medicines db;
     store_meetings := store_meetings db; store_dismissed := store_dismissed db;
     store_meta := store_meta db |}.

Definition with_medicines (m : gmap Z Medicine) (db : OfflineDB) : OfflineDB :=
  {| store_alarms := store_alarms db; store_medicines := m;
     store_meetings := store_meetings db; store_dismissed := store_dismissed db;
     store_meta := store_meta db |}.

Definition with_meetings (m : gmap Z Meeting) (db : OfflineDB) : OfflineDB :=
  {| store_alarms := store_alarms db; store_medicines := store_medicines db;
     store_meetings := m; store_dismissed := store_dismissed db;
     store_meta := store_meta db |}.

(** [cacheAlarms], [cacheMedicines], [cacheMeetings]: without a database
    [getDB] throws and the [catch] swallows it. *)
Definition cacheAlarms (alarms : list Alarm) (dbInstance : option OfflineDB)
    : option OfflineDB :=
  (fun db => with_alarms (putAll alarm_id alarms) db) <$> dbInstance.

Definition cacheMedicines (medicines : list Medicine) (dbInstance : option OfflineDB)
    : option OfflineDB :=
  (fun db => with_medicines (putAll med_id medicines) db) <$> dbInstance.

Definition cacheMeetings (meetings : list Meeting) (dbInstance : option OfflineDB)
    : option OfflineDB :=
  (fun db => with_meetings (putAll meeting_id meetings) db) <$> dbInstance.

(** [getCachedAlarms], [getCachedMedicines], [getCachedMeetings]: the empty
    list when [getAll] throws. *)
Definition getCachedAlarms (dbInstance : option OfflineDB) : list Alarm :=
  match dbInstance with
  | Some db => getAll (store_alarms db)
  | None => []
  end.

Definition getCachedMedicines (dbInstance : option OfflineDB) : list Medicine :=
  match dbInstance with
  | Some db => getAll (store_medicines db)
  | None => []
  end.

Definition getCachedMeetings (dbInstance : option OfflineDB) : list Meeting :=
  match dbInstance with
  | Some db => getAll (store_meetings db)
  | None => []
  end.

(** [index.getAll(today)]: the records whose date is [today], in ascending
    order of their primary key. *)
Definition todays_records (today : string) (store : gmap string DismissedRecord)
    : list DismissedRecord :=
  snd <$> merge_sort skey_le
            (map_to_list (filter (fun entry => rec_date entry.2 = today) store)).

(** The loop body of [getTodayDismissals]: a record of a type the result
    has no map for is skipped. *)
Definition add_dismissal (result : gmap string (gmap Z string)) (rec : DismissedRecord)
    : gmap string (gmap Z string) :=
  match result !! rec_type rec with
  | Some typeMap => <[rec_type rec := <[rec_id rec := rec_time rec]> typeMap]> result
  | None => result
  end.

Definition empty_dismissals : gmap string (gmap Z string) :=
  <["meeting" := ∅]> (<["medicine" := ∅]> (<["alarm" := ∅]> ∅)).

(** The types [getTodayDismissals] has a map for. *)
Definition kinds : list string := ["alarm"; "medicine"; "meeting"].

(** [getTodayDismissals] *)
Definition getTodayDismissals (today : string) (dbInstance : option OfflineDB)
    : gmap string (gmap Z string) :=
  match dbInstance with
  | Some db =>
      foldl add_dismissal empty_dismissals (todays_records today (store_dismissed db))
  | None => empty_dismissals
  end.

End Cache.

(** ** The handler around the coordinator: mount, live data, snooze *)

Module Handler.
Import Client.

(** The effect that runs on mount: purge, then load today's dismissals
    into the three maps, each only if it is not empty. *)
Definition load_dismissals (dismissals : gmap string (gmap Z string)) (k : Kind)
    (st : State) : State :=
  match dismissals !! kindName k with
  | Some m => if (0 <? size m)%nat then set_dismissed k (fun _ => m) st else st
  | None => st
  end.

Definition on_mount (today : string) (st : State) : State :=
  let off := Offline.clearExpiredDismissals today (offline st) in
  let dismissals := Cache.getTodayDismissals today off in
  load_dismissals dismissals KMeeting
    (load_dismissals dismissals KMedicine
       (load_dismissals dismissals KAlarm
          (set_refs (lastTriggered st) (isProcessing st) off (requests st)
             (presented st) st))).

(** A page reload: the component state starts afresh, IndexedDB stays. *)
Definition reload (st : State) : State :=
  set_refs ∅ false (offline st) [] [] initial.

(** The live query results and the cached copies held in component state.
    [live_alarms] and [live_medicines] are [undefined] until fetched;
    [live_meetings] defaults to the empty list. *)
Record Data := {
  live_alarms : option (list Alarm);
  live_medicines : option (list Medicine);
  live_meetings : list Meeting;
  cachedAlarms : option (list Alarm);
  cachedMedicines : option (list Medicine);
  cachedMeetings : option (list Meeting);
}.

(** [alarms || cachedAlarms || []] *)
Definition effectiveAlarms (d : Data) : list Alarm :=
  match live_alarms d with
  | Some l => l
  | None => default [] (cachedAlarms d)
  end.

Definition effectiveMedicines (d : Data) : list Medicine :=
  match live_medicines d with
  | Some l => l
  | None => default [] (cachedMedicines d)
  end.

(** [(meetings && meetings.length > 0) ? meetings : (cachedMeetings || [])] *)
Definition effectiveMeetings (d : Data) : list Meeting :=
  match live_meetings d with
  | _ :: _ => live_meetings d
  | [] => default [] (cachedMeetings d)
  end.

(** The three caching effects, run when the live data changes: a list is
    written to the cache only when it is present and not empty. *)
Definition cache_effects (d : Data) (dbInstance : option Offline.OfflineDB)
    : option Offline.OfflineDB :=
  let off1 :=
    match live_alarms d with
    | Some (a :: l) => Cache.cacheAlarms (a :: l) dbInstance
    | _ => dbInstance
    end in
  let off2 :=
    match live_medicines d with
    | Some (m :: l) => Cache.cacheMedicines (m :: l) off1
    | _ => off1
    end in
  match live_meetings d with
  | m :: l => Cache.cacheMeetings (m :: l) off2
  | [] => off2
  end.

(** The three fallback effects: the cached copy is read when the live
    data is absent (for meetings: absent or empty). *)
Definition fallback_effects (dbInstance : option Offline.OfflineDB) (d : Data) : Data :=
  {| live_alarms := live_alarms d;
     live_medicines := live_medicines d;
     live_meetings := live_meetings d;
     cachedAlarms :=
       match live_alarms d with
       | None => Some (Cache.getCachedAlarms dbInstance)
       | Some _ => cachedAlarms d
       end;
     cachedMedicines :=
       match live_medicines d with
       | None => Some (Cache.getCachedMedicines dbInstance)
       | Some _ => cachedMedicines d
       end;
     cachedMeetings :=
       match live_meetings d with
       | [] => Some (Cache.getCachedMeetings dbInstance)
       | _ :: _ => cachedMeetings d
       end |}.

(** New query results arrive: both groups of effects run. *)
Definition on_data (alarms : option (list Alarm)) (medicines : option (list Medicine))
    (meetings : list Meeting) (d : Data) (dbInstance : option Offline.OfflineDB)
    : Data * option Offline.OfflineDB :=
  let d1 := {| live_alarms := alarms; live_medicines := medicines;
               live_meetings := meetings; cachedAlarms := cachedAlarms d;
               cachedMedicines := cachedMedicines d;
               cachedMeetings := cachedMeetings d |} in
  let off := cache_effects d1 dbInstance in
  (fallback_effects off d1, off).

(** What a snooze timer has captured when it was armed. *)
Record SnoozeTimer := {
  snz_alarmData : ActiveAlarmData;
  snz_alarms : list Alarm;
  snz_medicines : list Medicine;
  snz_delay : Z;
}.

(** The coordinator together with its snooze timers: [snoozeTimeout], the
    timers armed and neither fired nor cleared, and the next handle. *)
Record T := {
  core : State;
  snoozeTimeout : option nat;
  timers : gmap nat SnoozeTimer;
  next_timer : nat;
}.

(** [snoozeAlarm(minutes)]; [alarms] and [medicines] are the effective
    lists of the render the callback belongs to. *)
Definition snoozeAlarm (minutes : Z) (alarms : list Alarm) (medicines : list Medicine)
    (h : T) : T :=
  let st := core h in
  if isProcessing st then h
  else
    let busy s := set_refs (lastTriggered s) true (offline s) (requests s) (presented s) s in
    match activeAlarmPopup st with
    | Some alarmData =>
        {| core := busy (set_popup None st);
           snoozeTimeout := Some (next_timer h);
           timers :=
             <[next_timer h :=
                 {| snz_alarmData := alarmData; snz_alarms := alarms;
                    snz_medicines := medicines;
                    snz_delay := minutes * 60 * 1000 |}]> (timers h);
           next_timer := S (next_timer h) |}
    | None =>
        {| core := busy st; snoozeTimeout := snoozeTimeout h;
           timers := timers h; next_timer := next_timer h |}
    end.

(** The object a snooze timer hands to [triggerFromPushData] when the item
    is no longer in the lists. *)
Definition snooze_data (alarmData : ActiveAlarmData) : PushPayload :=
  {| pl_title := popup_title alarmData;
     pl_body := "";
     pl_type := popup_type alarmData;
     pl_id := Some (popup_id alarmData);
     pl_textToSpeak := Some (popup_message alarmData) |}.

(** The callback of a snooze timer, at [Date.now() = ms]. *)
Definition snooze_callback (t : Translations) (ms : Z) (timer : SnoozeTimer)
    (st : State) : State :=
  let alarmData := snz_alarmData timer in
  let st1 :=
    set_refs (delete (dedupKey (popup_type alarmData) (popup_id alarmData))
                (lastTriggered st))
      (isProcessing st) (offline st) (requests st) (presented st) st in
  let item :=
    match popup_type alarmData with
    | KAlarm =>
        item_of_alarm
          <$> List.find (fun a => bool_decide (alarm_id a = popup_id alarmData))
                (snz_alarms timer)
    | _ =>
        item_of_medicine
          <$> List.find (fun m => bool_decide (med_id m = popup_id alarmData))
                (snz_medicines timer)
    end in
  match item with
  | Some item =>
      triggerAlarm ms item (popup_type alarmData) (popup_isDateAlarm alarmData) st1
  | None => triggerFromPushData t ms (snooze_data alarmData) st1
  end.

(** The runtime fires timer [n]: nothing happens if it was cleared or has
    fired already. *)
Definition fire (t : Translations) (ms : Z) (n : nat) (h : T) : T :=
  match timers h !! n with
  | Some timer =>
      {| core := snooze_callback t ms timer (core h);
         snoozeTimeout := snoozeTimeout h;
         timers := delete n (timers h);
         next_timer := next_timer h |}
  | None => h
  end.

(** [dismissAlarm] with its last step, clearing the timer [snoozeTimeout]
    points to. *)
Definition dismiss (clock : Clock) (h : T) : T :=
  if isProcessing (core h) then h
  else
    {| core := dismissAlarm clock (core h);
       snoozeTimeout := None;
       timers :=
         match snoozeTimeout h with
         | Some n => delete n (timers h)
         | None => timers h
         end;
       next_timer := next_timer h |}.

(** An event of the coordinator passes through. *)
Definition lift (f : State -> State) (h : T) : T :=
  {| core := f (core h); snoozeTimeout := snoozeTimeout h;
     timers := timers h; next_timer := next_timer h |}.

(** The record kept in [localStorage] under "pendingAlarmTrigger". *)
Record PendingTrigger := {
  pend_data : PushPayload;
  pend_storedAt : option Z;
}.

(** The effect that handles a deep link, at [Date.now() = ms]. [param] is
    the data built from the URL when it carries an [alarm_id]; [stored] is
    the item in [localStorage]: absent, unparsable, or a record. The
    result is the item afterwards and the data whose trigger is scheduled
    500 ms later, if any. *)
Definition deep_link_effect (ms : Z) (param : option PushPayload)
    (stored : option (option PendingTrigger))
    : option (option PendingTrigger) * option PushPayload :=
  match param with
  | Some data =>
      (Some (Some {| pend_data := data; pend_storedAt := Some ms |}), Some data)
  | None =>
      match stored with
      | Some (Some pending) =>
          let storedAt :=
            match pend_storedAt pending with
            | Some s => s
            | None => 0
            end in
          let age := ms - storedAt in
          (None, if age <? 5 * 60 * 1000 then Some (pend_data pending) else None)
      | Some None => (None, None)
      | None => (None, None)
      end
  end.

End Handler.

(** ** Summaries used to state the further properties *)

(** What one call of [sendPushNotification] writes to the console. *)
Definition dispatch_log (env : Server.Env) (userId : string) (payload : PushPayload)
    (subs : list PushSubscription) : list Server.LogEntry :=
  match subs with
  | [] => [Server.LogNoSubscriptions userId]
  | _ :: _ =>
      [Server.LogSending (pl_type payload) (length subs) userId]
      ++ (subs ≫= device_log env payload)
      ++ [Server.LogSummary
            (length (filter (fun s => delivered env payload s = true) subs))
            (length (filter (fun s => delivered env payload s = false) subs))]
  end.

(** The "Triggering ..." lines of a console, in order. *)
Definition triggered (console : list Server.LogEntry) : list (Kind * Z) :=
  omap (fun entry =>
          match entry with
          | Server.LogTriggering k id => Some (k, id)
          | _ => None
          end) console.

(** The triggers the loop body of an item raises at [now]: one for an
    alarm or a meeting whose test holds, one per matching entry of the time
    list for a medicine. *)
Definition triggers_of (now : Now) (i : ScheduleItem) : list (Kind * Z) :=
  match i with
  | AlarmItem a =>
      if Server.alarm_shouldTrigger now a then [(KAlarm, alarm_id a)] else []
  | MedicineItem m =>
      (fun _ => (KMedicine, med_id m))
        <$> filter (fun medTime => Js.hhmm medTime = now_time now)
              (default [] (med_times m))
  | MeetingItem m =>
      if Server.meeting_shouldTrigger now m then [(KMeeting, meeting_id m)] else []
  end.

(** The items one run of the interval callback walks through, in its
    order. *)
Definition poll_items (input : PollInput) : list ScheduleItem :=
  (AlarmItem <$> poll_alarms input)
  ++ (MedicineItem <$> poll_medicines input)
  ++ (MeetingItem <$> poll_meetings input).

(** The [forEach] body the callback runs for an item. *)
Definition poll_step (snap : Client.State) (clock : Client.Clock) (i : ScheduleItem)
    (st : Client.State) : Client.State :=
  match i with
  | AlarmItem a => Client.poll_alarm snap clock a st
  | MedicineItem m => Client.poll_medicine snap clock m st
  | MeetingItem m => Client.poll_meeting snap clock m st
  end.

(** The popup the polling loop opens for an item. *)
Definition poll_popup (now : Now) (i : ScheduleItem) : Client.ActiveAlarmData :=
  match i with
  | AlarmItem a =>
      Client.popup_of (Client.item_of_alarm a) KAlarm
        (Js.strict_eq (alarm_date a) (now_date now))
  | MedicineItem m => Client.popup_of (Client.item_of_medicine m) KMedicine false
  | MeetingItem m => Client.popup_of (Client.item_of_meeting m) KMeeting false
  end.

(** ** Native notifications (nativeNotifications.ts) *)

Module Native.

(** [AlarmData] *)
Record AlarmData := {
  nat_id : Z;
  nat_title : string;
  nat_body : string;
  nat_time : string;
  nat_days : option (list string);
  nat_date : option string;
  nat_type : Kind;
}.

(** The [dayMap] of [getNextOccurrence]; a name that is not a key gives
    [undefined]. *)
Definition weekday_number (day : string) : option Z :=
  if String.eqb day "Sun" then Some 0
  else if String.eqb day "Mon" then Some 1
  else if String.eqb day "Tue" then Some 2
  else if String.eqb day "Wed" then Some 3
  else if String.eqb day "Thu" then Some 4
  else if String.eqb day "Fri" then Some 5
  else if String.eqb day "Sat" then Some 6
  else None.

(** The [dayMap] of [scheduleNativeAlarm]. *)
Definition dayMap (day : string) : option Z :=
  (fun n => n + 1) <$> weekday_number day.

(** The [Date] that [getNextOccurrence] returns, relative to [now]: built
    from the date string, or [now] moved ahead by a number of days and set
    to the alarm's hour and minute. *)
Inductive Occurrence :=
| OnDate (specificDate : string)
| DaysAhead (n : Z).

(** The loop of [getNextOccurrence] over [days]. [currentDay] is
    [now.getDay()], [ahead] tells whether today at the alarm's time is
    still later than [now]. With [targetDay] undefined every comparison
    on [daysUntil] is false. *)
Fixpoint next_listed_day (currentDay : Z) (ahead : bool) (days : list string)
    (minDaysUntil : Z) : Occurrence :=
  match days with
  | [] => DaysAhead minDaysUntil
  | day :: rest =>
      match weekday_number day with
      | None => next_listed_day currentDay ahead rest minDaysUntil
      | Some targetDay =>
          let daysUntil := targetDay - currentDay in
          let daysUntil := if daysUntil <? 0 then daysUntil + 7 else daysUntil in
          if (daysUntil =? 0) && ahead then DaysAhead 0
          else
            let daysUntil := if daysUntil =? 0 then 7 else daysUntil in
            next_listed_day currentDay ahead rest
              (if daysUntil <? minDaysUntil then daysUntil else minDaysUntil)
      end
  end.

(** [getNextOccurrence] *)
Definition getNextOccurrence (currentDay : Z) (ahead : bool)
    (days : option (list string)) (specificDate : option string) : Occurrence :=
  if Js.truthy specificDate then OnDate (default "" specificDate)
  else if Js.non_empty days then next_listed_day currentDay ahead (default [] days) 7
  else if ahead then DaysAhead 0 else DaysAhead 1.

(** A call of the LocalNotifications plugin: [schedule] with the id of
    the notification ([None] is NaN) and whether it repeats every week, or
    [cancel] with its ids. The instant [at] of a notification is what
    [getNextOccurrence] returns; it and the texts are not recorded. *)
Inductive PluginCall :=
| Schedule (id : option Z) (repeats : bool)
| Cancel (ids : list Z).

(** The loop of [scheduleNativeAlarm] over [alarm.days]: the calls made
    and whether all were accepted; a rejected call ends the loop in the
    [catch]. *)
Fixpoint schedule_days (rejects : PluginCall -> bool) (alarmId : Z)
    (days : list string) : list PluginCall * bool :=
  match days with
  | [] => ([], true)
  | day :: rest =>
      let notificationId := (fun d => alarmId * 10 + d) <$> dayMap day in
      let c := Schedule notificationId true in
      if rejects c then ([c], false)
      else
        let (calls, ok) := schedule_days rejects alarmId rest in
        (c :: calls, ok)
  end.

(** [scheduleNativeAlarm]: the plugin calls it makes and its result. *)
Definition scheduleNativeAlarm (rejects : PluginCall -> bool) (isNativeApp : bool)
    (alarm : AlarmData) : list PluginCall * bool :=
  if negb isNativeApp then ([], false)
  else if Js.non_empty (nat_days alarm) then
    schedule_days rejects (nat_id alarm) (default [] (nat_days alarm))
  else
    let c := Schedule (Some (nat_id alarm)) false in
    ([c], negb (rejects c)).

(** [idsToCancel] *)
Definition idsToCancel (alarmId : Z) : list Z :=
  alarmId :: ((fun i => alarmId * 10 + i) <$> seqZ 1 7).

(** [cancelNativeAlarm] *)
Definition cancelNativeAlarm (isNativeApp : bool) (alarmId : Z) : list PluginCall :=
  if negb isNativeApp then [] else [Cancel (idsToCancel alarmId)].

End Native.

(** ** Further concrete data *)

Module Scenarios.

(** A registry database that answers every statement. *)
Definition db_up : Registry.Statement -> bool := fun _ => false.

(** Monday 6 January 2025, 08:30 IST: nothing of [Examples] is due. *)
Definition monday_0830 : DateFields :=
  {| getUTCHours := 8; getUTCMinutes := 30; getUTCDay := Mon;
     getUTCFullYear := 2025; getUTCMonth := 0; getUTCDate := 6 |}.

(** The polling input of a device that lists the daily alarm. *)
Definition input_at (ms : Z) (hhmm : string) : PollInput :=
  {| poll_clock := Examples.clock_at ms hhmm;
     poll_alarms := [Examples.daily_alarm];
     poll_medicines := []; poll_meetings := [] |}.

(** The handler showing the popup of the daily alarm, no snooze armed. *)
Definition ringing : Handler.T :=
  {| Handler.core := poll (input_at 1000 "07:00") Examples.started;
     Handler.snoozeTimeout := None;
     Handler.timers := ∅;
     Handler.next_timer := 0 |}.

(** The same handler after "snooze 5 minutes". *)
Definition snoozed : Handler.T :=
  Handler.lift Client.release_processing
    (Handler.snoozeAlarm 5 [Examples.daily_alarm] [] ringing).

(** No query has answered yet and nothing was read from the cache. *)
Definition no_data : Handler.Data :=
  {| Handler.live_alarms := None; Handler.live_medicines := None;
     Handler.live_meetings := []; Handler.cachedAlarms := None;
     Handler.cachedMedicines := None; Handler.cachedMeetings := None |}.

(** An alarm for Mondays and Wednesdays, and a one-time alarm whose id
    is the id of the first one's Monday notification. *)
Definition weekly : Native.AlarmData :=
  {| Native.nat_id := 1; Native.nat_title := "Gym"; Native.nat_body := "Gym - Time!";
     Native.nat_time := "07:00"; Native.nat_days := Some ["Mon"; "Wed"];
     Native.nat_date := None; Native.nat_type := KAlarm |}.

Definition one_time : Native.AlarmData :=
  {| Native.nat_id := 12; Native.nat_title := "Dentist";
     Native.nat_body := "Dentist - Time!"; Native.nat_time := "09:00";
     Native.nat_days := None; Native.nat_date := Some "2025-01-10";
     Native.nat_type := KAlarm |}.

(** A plugin that accepts every call. *)
Definition plugin_up : Native.PluginCall -> bool := fun _ => false.

End Scenarios.

(** * Properties *)

(** ** The dispatcher: fan-out, counts and pruning *)

Section Dispatch.
Import Server.
Variable env : Env.

Lemma filter_all {A} (P : A -> Prop) `{forall x, Decision (P x)} (l : list A) :
  (forall x, P x) -> filter P l = l.
Proof.
  intros HP. induction l as [|x l IH]; [done|].
  rewrite filter_cons_True by apply HP. by rewrite IH.
Qed.

Lemma filter_ext_in {A} (P Q : A -> Prop) `{forall x, Decision (P x)}
    `{forall x, Decision (Q x)} (l : list A) :
  (forall x, x ∈ l -> P x <-> Q x) -> filter P l = filter Q l.
Proof.
  induction l as [|x l IH]; intros HPQ; [done|].
  rewrite !filter_cons.
  assert (P x <-> Q x) as Hx by (apply HPQ; left).
  rewrite IH by (intros y Hy; apply HPQ; by right).
  destruct (decide (P x)), (decide (Q x)); tauto.
Qed.

Lemma filter_filter_ids (l : list PushSubscription) (x : Z) (xs : list Z) :
  filter (fun s => sub_id s ∉ xs) (filter (fun s => sub_id s <> x) l)
  = filter (fun s => sub_id s ∉ x :: xs) l.
Proof.
  rewrite list_filter_filter. apply list_filter_iff.
  intros s. rewrite not_elem_of_cons. tauto.
Qed.

(** The device loop, run on any snapshot [l] of subscriptions, when no
    [DELETE] is rejected. *)
Lemma device_loop payload (l : list PushSubscription) :
  (forall id, db_rejects env (DeleteSubscription id) = false) ->
  forall (c : Counts) (w : World),
    for_of_acc l (send_one env payload) c w
    = ({| w_db :=
            with_subscriptions
              (filter (fun s => sub_id s ∉ gone_ids env payload l)
                 (pushSubscriptions (w_db w))) (w_db w);
          w_attempts := w_attempts w ++ ((fun s => (s, payload)) <$> l);
          w_console := w_console w ++ (l ≫= device_log env payload) |},
       inr {| success :=
                success c + length (filter (fun s => delivered env payload s = true) l);
              failed :=
                failed c + length (filter (fun s => delivered env payload s = false) l) |}).
Proof.
  intros Hdel. induction l as [|s l IH]; intros c w.
  - cbn. unfold ret. f_equal.
    + destruct w as [[a m g p] att co]. cbn. unfold with_subscriptions. cbn.
      rewrite !app_nil_r. do 2 f_equal.
      rewrite filter_all; [done|]. intros x. unfold gone_ids. cbn. apply not_elem_of_nil.
    + destruct c. cbn. do 2 f_equal; lia.
  - assert (Hfil : forall (P : PushSubscription -> bool) (v : bool),
              filter (fun x => P x = v) (s :: l)
              = if Bool.eqb (P s) v then s :: filter (fun x => P x = v) l
                else filter (fun x => P x = v) l).
    { intros P v. rewrite filter_cons.
      case_decide as HP; [rewrite HP; by destruct v|].
      by destruct (P s), v. }
    unfold gone_ids. rewrite !Hfil.
    cbn [for_of_acc mbind list_bind]. unfold bind at 1.
    unfold send_one at 1. unfold bind at 1. unfold webPush_sendNotification at 1.
    assert (Hd : delivered env payload s
                 = match transport env s payload with
                   | Delivered => true | Rejected _ => false end) by done.
    assert (Hp : permanent env payload s
                 = match transport env s payload with
                   | Delivered => false | Rejected c => is_gone c end) by done.
    assert (Hl : device_log env payload s
                 = match transport env s payload with
                   | Delivered => [LogSent (sub_id s)]
                   | Rejected c =>
                       if is_gone c
                       then [LogFailed (sub_id s); LogRemoved (sub_id s)]
                       else [LogFailed (sub_id s)]
                   end) by done.
    destruct (transport env s payload) as [|code] eqn:Ht.
    + rewrite Hd, Hp, Hl. cbn. rewrite IH. cbn. f_equal.
      * f_equal; rewrite <- ?app_assoc; done.
      * do 2 f_equal; lia.
    + rewrite Hd, Hp, Hl.
      unfold bind, console, ret, deleteSubscription, db_exec. cbn.
      destruct (is_gone code) eqn:Hg; cbn.
      * rewrite Hdel. cbn. rewrite IH. cbn. f_equal.
        -- f_equal; rewrite <- ?app_assoc; try done.
           unfold with_subscriptions. cbn. f_equal.
           apply filter_filter_ids.
        -- do 2 f_equal; lia.
      * rewrite IH. cbn. f_equal.
        -- f_equal; rewrite <- ?app_assoc; done.
        -- do 2 f_equal; lia.
Qed.

Lemma NoDup_fmap_eq {A B} (f : A -> B) (l : list A) (x y : A) :
  NoDup (f <$> l) -> x ∈ l -> y ∈ l -> f x = f y -> x = y.
Proof.
  induction l as [|a l IH]; intros Hnd Hx Hy Hf; [by apply elem_of_nil in Hx|].
  rewrite fmap_cons in Hnd. apply NoDup_cons in Hnd as [Hnotin Hnd].
  apply elem_of_cons in Hx as [->|Hx]; apply elem_of_cons in Hy as [->|Hy].
  - done.
  - exfalso. apply Hnotin. rewrite Hf. by apply list_elem_of_fmap_2.
  - exfalso. apply Hnotin. rewrite <- Hf. by apply list_elem_of_fmap_2.
  - by apply IH.
Qed.

(** With unique row ids, deleting the gone rows by id removes exactly
    the user's permanently failing endpoints. *)
Lemma prune_by_id payload userId (registry : list PushSubscription) :
  NoDup (sub_id <$> registry) ->
  filter (fun s => sub_id s ∉
                   gone_ids env payload (filter (fun s => sub_userId s = userId) registry))
         registry
  = filter (fun s => ~ (sub_userId s = userId /\ permanent env payload s = true)) registry.
Proof.
  intros Hnd. apply filter_ext_in. intros s Hs. unfold gone_ids. split.
  - intros Hnot [Hu Hp]. apply Hnot.
    apply list_elem_of_fmap_2. apply list_elem_of_filter. split; [done|].
    apply list_elem_of_filter. by split.
  - intros Hnot Hin. apply list_elem_of_fmap in Hin as (s' & Hid & Hs').
    apply list_elem_of_filter in Hs' as [Hp Hs'].
    apply list_elem_of_filter in Hs' as [Hu Hs'].
    assert (s = s') as -> by (eapply NoDup_fmap_eq; eauto).
    by apply Hnot.
Qed.

(** C10. A user without registered endpoints: [sendPushNotification]
    returns [{success: 0, failed: 0}], attempts no delivery and leaves the
    database as it was. *)
Theorem dispatch_without_endpoints userId payload (w : World) :
  filter (fun s => sub_userId s = userId) (pushSubscriptions (w_db w)) = [] ->
  db_rejects env (SelectSubscriptions userId) = false ->
  exists w',
    sendPushNotification env userId payload w
    = (w', inr {| success := 0; failed := 0 |})
    /\ w_attempts w' = w_attempts w
    /\ w_db w' = w_db w.
Proof.
  intros Hnone Hsel.
  unfold sendPushNotification, bind, selectSubscriptions, db_exec.
  rewrite Hsel, Hnone. cbn. eexists. split; [reflexivity|]. by destruct w as [[]].
Qed.

(** C4. Dispatching to a user attempts every endpoint of that user
    exactly once, in order; it returns the number of accepted sends as
    [success] and the number of rejected sends as [failed]; afterwards the
    registry holds exactly the rows that are not an endpoint of this user
    rejected with status 410 or 404; the schedule tables are untouched. *)
Theorem dispatch_counts_and_pruning userId payload (w : World) :
  NoDup (sub_id <$> pushSubscriptions (w_db w)) ->
  db_rejects env (SelectSubscriptions userId) = false ->
  (forall id, db_rejects env (DeleteSubscription id) = false) ->
  let subs := filter (fun s => sub_userId s = userId) (pushSubscriptions (w_db w)) in
  exists w',
    sendPushNotification env userId payload w
    = (w', inr {| success := length (filter (fun s => delivered env payload s = true) subs);
                  failed := length (filter (fun s => delivered env payload s = false) subs) |})
    /\ w_attempts w' = w_attempts w ++ ((fun s => (s, payload)) <$> subs)
    /\ pushSubscriptions (w_db w')
       = filter (fun s => ~ (sub_userId s = userId /\ permanent env payload s = true))
           (pushSubscriptions (w_db w))
    /\ alarms (w_db w') = alarms (w_db w)
    /\ medicines (w_db w') = medicines (w_db w)
    /\ meetings (w_db w') = meetings (w_db w).
Proof.
  intros Hnd Hsel Hdel subs.
  pose proof (prune_by_id payload userId _ Hnd) as Hprune. fold subs in Hprune.
  unfold sendPushNotification, bind, selectSubscriptions, db_exec.
  rewrite Hsel. cbn -[filter]. fold subs.
  destruct (length subs =? 0)%nat eqn:Hlen.
  - apply Nat.eqb_eq in Hlen. apply length_zero_iff_nil in Hlen.
    rewrite Hlen in *. cbn. eexists. split; [reflexivity|]. cbn.
    rewrite app_nil_r. split; [done|]. split; [|by destruct w as [[]]].
    rewrite <- Hprune. unfold gone_ids. cbn.
    rewrite filter_all; [by destruct w as [[]]|]. intros x. apply not_elem_of_nil.
  - rewrite (device_loop payload subs Hdel).
    cbn -[filter]. eexists. split; [reflexivity|]. cbn -[filter].
    split; [by destruct w as [[]]|]. split; [|by destruct w as [[]]].
    rewrite <- Hprune. by destruct w as [[]].
Qed.

End Dispatch.

(** The example of three endpoints: A accepts, B is gone, C times out. The
    dispatcher reports one delivered and two failed, and the registry keeps
    A and C. *)
Lemma dispatch_counts_and_pruning_witness :
  let payload := Server.alarm_payload Examples.date_alarm in
  exists w',
    Server.sendPushNotification Examples.env_abc "u1" payload
      (Examples.world_of Examples.db_abc)
    = (w', inr {| Server.success := 1; Server.failed := 2 |})
    /\ Server.w_attempts w'
       = [(Examples.sub_A, payload); (Examples.sub_B, payload); (Examples.sub_C, payload)]
    /\ pushSubscriptions (Server.w_db w') = [Examples.sub_A; Examples.sub_C].
Proof.
  intros payload.
  destruct (dispatch_counts_and_pruning Examples.env_abc "u1" payload
              (Examples.world_of Examples.db_abc))
    as (w' & Hrun & Hattempts & Hregistry & _).
  - apply (bool_decide_unpack _). vm_compute. exact I.
  - reflexivity.
  - reflexivity.
  - exists w'. split; [exact Hrun|]. split; [exact Hattempts|exact Hregistry].
Defined.

(** A user nobody registered an endpoint for. *)
Lemma dispatch_without_endpoints_witness :
  exists w',
    Server.sendPushNotification Examples.env_abc "u3"
      (Server.alarm_payload Examples.date_alarm) (Examples.world_of Examples.db_abc)
    = (w', inr {| Server.success := 0; Server.failed := 0 |})
    /\ Server.w_attempts w' = []
    /\ Server.w_db w' = Examples.db_abc.
Proof.
  apply (dispatch_without_endpoints Examples.env_abc "u3"
           (Server.alarm_payload Examples.date_alarm)
           (Examples.world_of Examples.db_abc)); reflexivity.
Defined.


(** ** The scheduler: what one tick may change *)

Section Scheduler.
Import Server.
Variable env : Env.
Variable now : Now.
Variable db0 : Database.

Lemma frame_refl w : tick_frame now db0 w w.
Proof.
  intros H. split; [done|]. exists []. by rewrite app_nil_r.
Qed.

Lemma frame_trans w1 w2 w3 :
  tick_frame now db0 w1 w2 -> tick_frame now db0 w2 w3 -> tick_frame now db0 w1 w3.
Proof.
  intros H12 H23 H1.
  destruct (H12 H1) as (H2 & l & Hl & Hall).
  destruct (H23 H2) as (H3 & l' & Hl' & Hall').
  split; [done|]. exists (l ++ l'). split.
  - by rewrite Hl', Hl, app_assoc.
  - by apply Forall_app.
Qed.

Lemma frame_bind {A B} (m : M A) (k : A -> M B) w :
  tick_frame now db0 w (m w).1 ->
  (forall a, (m w).2 = inr a -> tick_frame now db0 (m w).1 (k a (m w).1).1) ->
  tick_frame now db0 w (bind m k w).1.
Proof.
  intros Hm Hk. unfold bind. destruct (m w) as [w' [e|a]]; cbn in *; [done|].
  eapply frame_trans; [exact Hm|]. by apply Hk.
Qed.

Lemma frame_for_of {A} (l : list A) (body : A -> M unit) :
  (forall x, x ∈ l -> forall w, tick_frame now db0 w (body x w).1) ->
  forall w, tick_frame now db0 w (for_of l body w).1.
Proof.
  induction l as [|x l IH]; intros Hbody w; [apply frame_refl|].
  cbn [for_of]. apply frame_bind.
  - apply Hbody. left.
  - intros _ _. apply IH. intros y Hy. apply Hbody. by right.
Qed.

Lemma frame_for_of_acc {A S} (l : list A) (body : S -> A -> M S) :
  (forall x s w, tick_frame now db0 w (body s x w).1) ->
  forall s w, tick_frame now db0 w (for_of_acc l body s w).1.
Proof.
  intros Hbody. induction l as [|x l IH]; intros s w; [apply frame_refl|].
  cbn [for_of_acc]. apply frame_bind; [apply Hbody|]. intros s' _. apply IH.
Qed.

Lemma frame_console entry w : tick_frame now db0 w (console entry w).1.
Proof.
  intros H. split; [done|]. exists []. by rewrite app_nil_r.
Qed.

Lemma frame_select {A} op (q : Database -> A) w :
  tick_frame now db0 w (db_exec env op (fun db => (db, q db)) w).1.
Proof.
  unfold db_exec. destruct (db_rejects env op); cbn; [apply frame_refl|].
  intros H. split; [done|]. exists []. by rewrite app_nil_r.
Qed.

Lemma frame_delete id w : tick_frame now db0 w (deleteSubscription env id w).1.
Proof.
  unfold deleteSubscription, db_exec.
  destruct (db_rejects env _); cbn; [apply frame_refl|].
  intros H. split; [done|]. exists []. by rewrite app_nil_r.
Qed.

Lemma frame_send_one payload c sub w :
  due_payload now db0 payload -> tick_frame now db0 w (send_one env payload c sub w).1.
Proof.
  intros Hdue. unfold send_one. apply frame_bind.
  - intros H. split; [done|]. exists [(sub, payload)]. split; [done|].
    by apply Forall_singleton.
  - intros r _. destruct r as [|code].
    + apply frame_bind; [apply frame_console|]. intros; apply frame_refl.
    + apply frame_bind; [apply frame_console|]. intros _ _.
      apply frame_bind; [|intros; apply frame_refl].
      destruct (is_gone code); [|apply frame_refl].
      apply frame_bind; [apply frame_delete|]. intros; apply frame_console.
Qed.

Lemma frame_sendPushNotification userId payload w :
  due_payload now db0 payload ->
  tick_frame now db0 w (sendPushNotification env userId payload w).1.
Proof.
  intros Hdue. unfold sendPushNotification. apply frame_bind.
  - apply frame_select.
  - intros subs _. destruct (length subs =? 0)%nat.
    + apply frame_bind; [apply frame_console|]. intros; apply frame_refl.
    + apply frame_bind; [apply frame_console|]. intros _ _.
      apply frame_bind.
      * apply frame_for_of_acc. intros. by apply frame_send_one.
      * intros c _. apply frame_bind; [apply frame_console|].
        intros; apply frame_refl.
Qed.

Lemma frame_check_alarm alarm w :
  alarm ∈ alarms db0 -> alarm_isActive alarm = true ->
  tick_frame now db0 w (check_alarm env now alarm w).1.
Proof.
  intros Hin Hact. unfold check_alarm.
  destruct (alarm_shouldTrigger now alarm) eqn:Hdue; [|apply frame_refl].
  apply frame_bind; [apply frame_console|]. intros _ _.
  apply frame_bind; [|intros; apply frame_refl].
  apply frame_sendPushNotification. left. by exists alarm.
Qed.

Lemma frame_check_medicine medicine w :
  medicine ∈ medicines db0 -> med_isActive medicine = true ->
  tick_frame now db0 w (check_medicine env now medicine w).1.
Proof.
  intros Hin Hact. unfold check_medicine.
  destruct (Js.non_empty (med_times medicine)) eqn:Hne; [|apply frame_refl].
  apply frame_for_of. intros medTime HmedTime w'. unfold check_medicine_time.
  destruct (String.eqb (Js.hhmm medTime) (now_time now)) eqn:Hdue; [|apply frame_refl].
  apply frame_bind; [apply frame_console|]. intros _ _.
  apply frame_bind; [|intros; apply frame_refl].
  apply frame_sendPushNotification. right; left. exists medicine.
  repeat split; try done. unfold medicine_shouldTrigger. rewrite Hne. cbn.
  apply existsb_exists. exists medTime. split; [|done]. by apply list_elem_of_In.
Qed.

Lemma frame_check_meeting meeting w :
  meeting ∈ meetings db0 -> meeting_enabled meeting = true ->
  tick_frame now db0 w (check_meeting env now meeting w).1.
Proof.
  intros Hin Hact. unfold check_meeting.
  destruct (meeting_shouldTrigger now meeting) eqn:Hdue; [|apply frame_refl].
  apply frame_bind; [apply frame_console|]. intros _ _.
  apply frame_bind; [|intros; apply frame_refl].
  apply frame_sendPushNotification. right; right. by exists meeting.
Qed.

Lemma db_select_inv {A} op (q : Database -> A) w a :
  (db_exec env op (fun db => (db, q db)) w).2 = inr a ->
  a = q (w_db w) /\ w_db (db_exec env op (fun db => (db, q db)) w).1 = w_db w.
Proof.
  unfold db_exec. destruct (db_rejects env op); cbn; [done|].
  intros [= <-]. done.
Qed.

(** [frame] with its premise discharged, for use between two steps. *)
Lemma frame_from_schedule w w' :
  (same_schedule db0 (w_db w) -> tick_frame now db0 w w') -> tick_frame now db0 w w'.
Proof. intros H Hs. by apply H. Qed.

Lemma frame_check_all w : tick_frame now db0 w (check_all env now w).1.
Proof.
  unfold check_all.
  apply frame_bind; [apply frame_select|]. intros activeAlarms Hsel.
  apply frame_from_schedule. intros (Ha & Hm & Hg).
  assert (forall a, a ∈ activeAlarms -> a ∈ alarms db0 /\ alarm_isActive a = true)
    as HactiveAlarms.
  { intros a Hin. apply db_select_inv in Hsel as [-> Hdb].
    unfold selectActiveAlarms in Ha. rewrite Hdb in Ha.
    apply list_elem_of_filter in Hin as [? ?]. by rewrite Ha. }
  clear Hsel Ha Hm Hg.
  apply frame_bind.
  { apply frame_for_of. intros a Hin w'.
    destruct (HactiveAlarms a Hin). by apply frame_check_alarm. }
  intros _ _.
  apply frame_bind; [apply frame_select|]. intros activeMedicines Hsel.
  apply frame_from_schedule. intros (Ha & Hm & Hg).
  assert (forall m, m ∈ activeMedicines -> m ∈ medicines db0 /\ med_isActive m = true)
    as HactiveMedicines.
  { intros m Hin. apply db_select_inv in Hsel as [-> Hdb].
    unfold selectActiveMedicines in Hm. rewrite Hdb in Hm.
    apply list_elem_of_filter in Hin as [? ?]. by rewrite Hm. }
  clear Hsel Ha Hm Hg.
  apply frame_bind.
  { apply frame_for_of. intros m Hin w'.
    destruct (HactiveMedicines m Hin). by apply frame_check_medicine. }
  intros _ _.
  apply frame_bind; [apply frame_select|]. intros activeMeetings Hsel.
  apply frame_from_schedule. intros (Ha & Hm & Hg).
  assert (forall m, m ∈ activeMeetings -> m ∈ meetings db0 /\ meeting_enabled m = true)
    as HactiveMeetings.
  { intros m Hin. apply db_select_inv in Hsel as [-> Hdb].
    unfold selectEnabledMeetings in Hg. rewrite Hdb in Hg.
    apply list_elem_of_filter in Hin as [? ?]. by rewrite Hg. }
  clear Hsel Ha Hm Hg.
  apply frame_for_of. intros m Hin w'.
  destruct (HactiveMeetings m Hin). by apply frame_check_meeting.
Qed.

Lemma frame_check_item i w :
  i ∈ selected db0 -> tick_frame now db0 w (check_item env now i w).1.
Proof.
  unfold selected. rewrite !elem_of_app, !list_elem_of_fmap.
  intros [(a & -> & Ha)|[(m & -> & Hm)|(m & -> & Hm)]];
    apply list_elem_of_filter in Ha || apply list_elem_of_filter in Hm; cbn.
  - destruct Ha. by apply frame_check_alarm.
  - destruct Hm. by apply frame_check_medicine.
  - destruct Hm. by apply frame_check_meeting.
Qed.

Lemma for_of_app {A} (l1 l2 : list A) (body : A -> M unit) w :
  for_of (l1 ++ l2) body w = bind (for_of l1 body) (fun _ => for_of l2 body) w.
Proof.
  revert w. induction l1 as [|x l1 IH]; intros w; [done|].
  cbn [for_of app]. unfold bind in *.
  destruct (body x w) as [w' [e|[]]]; [done|]. apply IH.
Qed.

Lemma for_of_fmap {A B} (f : A -> B) (l : list A) (body : B -> M unit) w :
  for_of (f <$> l) body w = for_of l (fun x => body (f x)) w.
Proof.
  revert w. induction l as [|x l IH]; intros w; [done|].
  cbn [for_of fmap list_fmap]. unfold bind.
  destruct (body (f x) w) as [w' [e|[]]]; [done|]. apply IH.
Qed.

(** A loop stops at the first iteration that throws. *)
Lemma for_of_abort {A} (pre post : list A) x (body : A -> M unit) w w1 w2 e :
  for_of pre body w = (w1, inr tt) ->
  body x w1 = (w2, inl e) ->
  for_of (pre ++ x :: post) body w = (w2, inl e).
Proof.
  intros Hpre Hx. rewrite for_of_app. unfold bind. rewrite Hpre.
  cbn [for_of]. unfold bind. by rewrite Hx.
Qed.

Lemma db_select_ok {A} op (q : Database -> A) w :
  db_rejects env op = false ->
  db_exec env op (fun db => (db, q db)) w = (w, inr (q (w_db w))).
Proof.
  intros Hok. unfold db_exec. rewrite Hok. by destruct w.
Qed.

Lemma bind_select_ok {A B} op (q : Database -> A) (k : A -> M B) w :
  db_rejects env op = false ->
  bind (db_exec env op (fun db => (db, q db))) k w = k (q (w_db w)) w.
Proof.
  intros Hok. unfold bind. by rewrite db_select_ok.
Qed.

Lemma bind_cong {A B} (m m' : M A) (k k' : A -> M B) w :
  m w = m' w ->
  (forall a w', m w = (w', inr a) -> k a w' = k' a w') ->
  bind m k w = bind m' k' w.
Proof.
  intros Hm Hk. unfold bind. rewrite <- Hm.
  destruct (m w) as [w' [e|a]]; [done|]. by apply Hk.
Qed.

Lemma walk_keeps_schedule (l : list ScheduleItem) w w' r :
  (forall i, i ∈ l -> i ∈ selected db0) ->
  same_schedule db0 (w_db w) ->
  for_of l (check_item env now) w = (w', r) ->
  same_schedule db0 (w_db w').
Proof.
  intros Hl Hw Hrun.
  destruct (frame_for_of l (check_item env now)
              (fun i Hi w'' => frame_check_item i w'' (Hl i Hi)) w Hw) as [H _].
  by rewrite Hrun in H.
Qed.

(** When the three [SELECT]s go through, the [try] block is one walk
    over the selected items. *)
Lemma check_all_walk w :
  db_rejects env SelectActiveAlarms = false ->
  db_rejects env SelectActiveMedicines = false ->
  db_rejects env SelectEnabledMeetings = false ->
  same_schedule db0 (w_db w) ->
  check_all env now w = for_of (selected db0) (check_item env now) w.
Proof.
  intros Hs1 Hs2 Hs3 Hsched. unfold selected.
  unfold check_all, selectActiveAlarms, selectActiveMedicines, selectEnabledMeetings.
  rewrite bind_select_ok by done. rewrite for_of_app.
  apply bind_cong.
  { rewrite for_of_fmap. destruct Hsched as (<- & _ & _). done. }
  intros [] w1 Hrun1.
  assert (same_schedule db0 (w_db w1)) as Hsched1.
  { pose proof Hsched as (Ha & _ & _). rewrite <- Ha in Hrun1.
    eapply (walk_keeps_schedule (AlarmItem <$> _));
      [|exact Hsched|rewrite for_of_fmap; exact Hrun1].
    intros i Hi. unfold selected. rewrite elem_of_app. by left. }
  rewrite bind_select_ok by done. rewrite for_of_app.
  apply bind_cong.
  { rewrite for_of_fmap. destruct Hsched1 as (_ & <- & _). done. }
  intros [] w2 Hrun2.
  assert (same_schedule db0 (w_db w2)) as Hsched2.
  { pose proof Hsched1 as (_ & Hm & _). rewrite <- Hm in Hrun2.
    eapply (walk_keeps_schedule (MedicineItem <$> _));
      [|exact Hsched1|rewrite for_of_fmap; exact Hrun2].
    intros i Hi. unfold selected. rewrite !elem_of_app. by right; left. }
  rewrite bind_select_ok by done.
  rewrite for_of_fmap. destruct Hsched2 as (_ & _ & <-). done.
Qed.

End Scheduler.

(** ** The scheduler and one-shot items *)

Section SchedulerClaims.
Import Server.

Lemma tick_frame_holds env istTime (w : World) :
  tick_frame (getCurrentTimeIST istTime) (w_db w) w
    (checkAndSendAlarms env istTime w).1.
Proof.
  unfold checkAndSendAlarms. set (now := getCurrentTimeIST istTime).
  apply frame_bind; [apply frame_console|]. intros _ _.
  unfold try_catch.
  pose proof (frame_check_all env now (w_db w)
                (console (LogChecking (now_time now) (now_day now) (now_date now)) w).1)
    as Hall.
  destruct (check_all env now _) as [w' [e|[]]]; [|exact Hall].
  eapply frame_trans; [exact Hall|]. apply frame_console.
Qed.

Lemma schedule_after_tick env istTime (w : World) :
  same_schedule (w_db w) (w_db (checkAndSendAlarms env istTime w).1).
Proof.
  by destruct (tick_frame_holds env istTime w) as [H _].
Qed.

(** Every delivery attempt a tick adds carries the payload of an item
    that is selected and due. *)
Lemma tick_attempts_due env istTime (w : World) :
  exists l,
    w_attempts (checkAndSendAlarms env istTime w).1 = w_attempts w ++ l
    /\ Forall (fun x => due_payload (getCurrentTimeIST istTime) (w_db w) x.2) l.
Proof.
  by destruct (tick_frame_holds env istTime w) as [_ H].
Qed.

(** C3, as amended. A scheduler tick never writes to the alarms,
    medicines or meetings tables: after the tick every item, one-shot
    items that were fired included, carries the active or enabled flag it
    had before, and is selected again by the next tick. *)
Theorem scheduler_leaves_flags env istTime (w : World) :
  let w' := (checkAndSendAlarms env istTime w).1 in
  alarms (w_db w') = alarms (w_db w)
  /\ medicines (w_db w') = medicines (w_db w)
  /\ meetings (w_db w') = meetings (w_db w)
  /\ selected (w_db w') = selected (w_db w).
Proof.
  intros w'. destruct (schedule_after_tick env istTime w) as (Ha & Hm & Hg).
  fold w' in Ha, Hm, Hg. unfold selected. by rewrite <- Ha, <- Hm, <- Hg.
Qed.

(** C3, the claim fails: a date alarm and a meeting are fired on their
    minute and both are still active afterwards; a second tick in the same
    minute fires them again. *)
Lemma one_shot_items_stay_active :
  let w := Examples.world_of Examples.db_one_shot in
  let w' := (checkAndSendAlarms Examples.env_abc Examples.monday_0700 w).1 in
  let w'' := (checkAndSendAlarms Examples.env_abc Examples.monday_0700 w').1 in
  w_attempts w'
  = [(Examples.sub_A, alarm_payload Examples.date_alarm);
     (Examples.sub_A, meeting_payload Examples.standup)]
  /\ alarm_isActive <$> alarms (w_db w') = [true]
  /\ meeting_enabled <$> meetings (w_db w') = [true]
  /\ w_attempts w'' = w_attempts w' ++ w_attempts w'.
Proof. vm_compute. done. Qed.

(** The handler around the tick catches everything: a tick always
    returns normally. *)
Lemma tick_never_throws env istTime (w : World) :
  (checkAndSendAlarms env istTime w).2 = inr tt.
Proof.
  unfold checkAndSendAlarms, bind, console, try_catch. cbn.
  by destruct (check_all env _ _) as [w' [e|[]]].
Qed.

(** C6, as amended. The whole tick sits in one [try] block, so an error
    thrown while handling one item ends the tick: the effects of the items
    before it stay, the error is logged once, none of the items after it,
    of whatever kind, is evaluated, and the tick returns normally. *)
Theorem tick_stops_at_first_error env istTime (w : World)
    (pre post : list ScheduleItem) (item : ScheduleItem) (w1 w2 : World) (e : Exn) :
  let now := getCurrentTimeIST istTime in
  db_rejects env SelectActiveAlarms = false ->
  db_rejects env SelectActiveMedicines = false ->
  db_rejects env SelectEnabledMeetings = false ->
  selected (w_db w) = pre ++ item :: post ->
  for_of pre (check_item env now) (tick_start now w) = (w1, inr tt) ->
  check_item env now item w1 = (w2, inl e) ->
  checkAndSendAlarms env istTime w = (log_error e w2, inr tt).
Proof.
  intros now Hs1 Hs2 Hs3 Hsel Hpre Hitem.
  unfold checkAndSendAlarms. fold now. unfold bind at 1, console at 1.
  fold (tick_start now w). unfold try_catch.
  rewrite (check_all_walk env now (w_db w)) by done.
  rewrite Hsel. by rewrite (for_of_abort pre post item _ _ w1 w2 e).
Qed.

(** The failing run used below: the subscription query for user "u1" is
    rejected while that user's alarm, first in the tick, is dispatched. *)
Lemma tick_stops_at_first_error_witness :
  (checkAndSendAlarms Examples.env_u1_down Examples.monday_0700
     (Examples.world_of Examples.db_two_users)).1
  = {| w_db := Examples.db_two_users;
       w_attempts := [];
       w_console :=
         [LogChecking "07:00" "Mon" "2025-01-06"; LogTriggering KAlarm 1;
          LogSchedulerError (DbError (SelectSubscriptions "u1"))] |}.
Proof.
  rewrite (tick_stops_at_first_error Examples.env_u1_down Examples.monday_0700
             (Examples.world_of Examples.db_two_users)
             [] [AlarmItem Examples.daily_alarm; MedicineItem Examples.pills;
                 MeetingItem Examples.standup]
             (AlarmItem Examples.date_alarm)
             (tick_start (getCurrentTimeIST Examples.monday_0700)
                (Examples.world_of Examples.db_two_users))
             {| w_db := Examples.db_two_users;
                w_attempts := [];
                w_console :=
                  [LogChecking "07:00" "Mon" "2025-01-06"; LogTriggering KAlarm 1] |}
             (DbError (SelectSubscriptions "u1")));
    reflexivity.
Defined.

(** C6, the claim fails: the alarm and the medicine of user "u2" are due
    and would be delivered on their own, but the error raised for the
    alarm of "u1" ends the tick before they are looked at. *)
Lemma later_items_are_not_evaluated :
  let env := Examples.env_u1_down in
  let now := getCurrentTimeIST Examples.monday_0700 in
  let w := Examples.world_of Examples.db_two_users in
  alarm_shouldTrigger now Examples.daily_alarm = true
  /\ medicine_shouldTrigger now Examples.pills = true
  /\ w_attempts (check_alarm env now Examples.daily_alarm w).1
     = [(Examples.sub_D, alarm_payload Examples.daily_alarm)]
  /\ w_attempts (check_medicine env now Examples.pills w).1
     = [(Examples.sub_D, medicine_payload Examples.pills)]
  /\ w_attempts (checkAndSendAlarms env Examples.monday_0700 w).1 = [].
Proof. vm_compute. done. Qed.

End SchedulerClaims.

(** ** The due decisions *)

Section DueDecisions.
Import Server.

Lemma includes_elem_of (l : list string) (x : string) :
  Js.includes l x = true <-> x ∈ l.
Proof.
  unfold Js.includes. rewrite existsb_exists. split.
  - intros (y & Hy & Heq). apply String.eqb_eq in Heq as ->. by apply list_elem_of_In.
  - intros Hx. exists x. split; [by apply list_elem_of_In|apply String.eqb_refl].
Qed.

Lemma getCurrentTimeIST_date istTime :
  String.eqb "" (now_date (getCurrentTimeIST istTime)) = false.
Proof.
  unfold getCurrentTimeIST. cbn [now_date].
  by destruct (pretty (getUTCFullYear istTime)).
Qed.

(** The scheduler's alarm test is the case analysis of section 4.1. *)
Lemma alarm_shouldTrigger_spec now (a : Alarm) :
  alarm_shouldTrigger now a = true <-> Spec.isDue now (AlarmItem a).
Proof.
  unfold alarm_shouldTrigger, Spec.isDue, Spec.timeOfDay_is.
  destruct (String.eqb (Js.hhmm (alarm_time a)) (now_time now)) eqn:Ht.
  - apply String.eqb_eq in Ht.
    destruct (Js.truthy (alarm_date a)) eqn:Hd.
    + destruct (alarm_date a) as [d|]; [|done]. cbn.
      rewrite String.eqb_eq. split; [by intros ->|by intros [[= ->] _]].
    + destruct (Js.non_empty (alarm_days a)) eqn:Hn; [|done].
      destruct (alarm_days a) as [l|]; [|done]. cbn.
      rewrite includes_elem_of. tauto.
  - apply String.eqb_neq in Ht.
    destruct (Js.truthy (alarm_date a)), (Js.non_empty (alarm_days a));
      split; try done; tauto.
Qed.

Lemma medicine_shouldTrigger_spec now (m : Medicine) :
  medicine_shouldTrigger now m = true <-> Spec.isDue now (MedicineItem m).
Proof.
  unfold medicine_shouldTrigger, Spec.isDue, Spec.timeOfDay_is.
  rewrite andb_true_iff, existsb_exists. split.
  - intros (_ & t & Hin & Heq). exists t.
    split; [by apply list_elem_of_In|by apply String.eqb_eq].
  - intros (t & Hin & Heq). split.
    + destruct (med_times m) as [[|]|]; try done; by apply elem_of_nil in Hin.
    + exists t. split; [by apply list_elem_of_In|by apply String.eqb_eq].
Qed.

Lemma meeting_shouldTrigger_spec now (m : Meeting) :
  meeting_enabled m && meeting_shouldTrigger now m = true
  <-> Spec.isDue now (MeetingItem m).
Proof.
  unfold meeting_shouldTrigger, Spec.isDue, Spec.timeOfDay_is.
  rewrite !andb_true_iff, !String.eqb_eq. tauto.
Qed.

(** The loop body of a selected item whose test fails does nothing. *)
Lemma check_item_skips env now (db : Database) (i : ScheduleItem) (w : World) :
  i ∈ selected db -> server_due now i = false ->
  check_item env now i w = (w, inr tt).
Proof.
  unfold selected. rewrite !elem_of_app, !list_elem_of_fmap.
  intros [(a & -> & Ha)|[(m & -> & Hm)|(m & -> & Hm)]];
    apply list_elem_of_filter in Ha as [Hact _]
    || apply list_elem_of_filter in Hm as [Hact _];
    cbn [server_due check_item]; rewrite Hact; cbn [andb]; intros Hdue.
  - unfold check_alarm. by rewrite Hdue.
  - unfold check_medicine, medicine_shouldTrigger in *.
    destruct (Js.non_empty (med_times m)); [|done]. cbn [andb] in Hdue.
    induction (default [] (med_times m)) as [|medTime l IH]; [done|].
    cbn [existsb] in Hdue. apply orb_false_iff in Hdue as [Ht Hl].
    cbn [for_of]. unfold bind, check_medicine_time at 1. rewrite Ht. cbn.
    by apply IH.
  - unfold check_meeting. by rewrite Hdue.
Qed.

Lemma server_due_spec now (i : ScheduleItem) :
  is_active i = true -> server_due now i = true <-> Spec.isDue now i.
Proof.
  destruct i as [a|m|m]; cbn [is_active server_due]; intros Hact.
  - rewrite Hact. apply alarm_shouldTrigger_spec.
  - rewrite Hact. apply medicine_shouldTrigger_spec.
  - apply meeting_shouldTrigger_spec.
Qed.

Lemma client_alarm_due istTime (a : Alarm) :
  let now := getCurrentTimeIST istTime in
  plain_item (AlarmItem a) = true ->
  Client.alarm_due now a = alarm_isActive a && alarm_shouldTrigger now a.
Proof.
  intros now. pose proof (getCurrentTimeIST_date istTime) as Hdate.
  fold now in Hdate. clearbody now.
  cbn [plain_item]. rewrite andb_true_iff, negb_true_iff.
  unfold is_hhmm. rewrite String.eqb_eq. intros [Htime Hboth].
  unfold Client.alarm_due, Client.alarm_matches, alarm_shouldTrigger.
  rewrite Htime. f_equal.
  destruct (String.eqb (alarm_time a) (now_time now)); [|done]. cbn [andb].
  unfold Js.truthy, Js.strict_eq, Js.opt_includes, Js.non_empty in *.
  destruct (alarm_date a) as [d|].
  - destruct (String.eqb d "") eqn:Hd.
    + apply String.eqb_eq in Hd as ->. rewrite Hdate.
      by destruct (alarm_days a) as [[|x l]|]; cbn [negb andb orb Js.includes existsb];
        rewrite ?orb_false_r.
    + destruct (alarm_days a) as [[|x l]|];
        cbn [negb andb orb Js.includes existsb] in *; try done;
        by rewrite ?orb_false_r.
  - by destruct (alarm_days a) as [[|x l]|]; cbn [negb andb orb Js.includes existsb];
      rewrite ?orb_false_r.
Qed.

Lemma client_medicine_due now (m : Medicine) :
  plain_item (MedicineItem m) = true ->
  Client.medicine_due now m = medicine_shouldTrigger now m.
Proof.
  cbn [plain_item]. unfold Client.medicine_due, Client.medicine_matches,
    medicine_shouldTrigger, Js.opt_includes, Js.includes.
  destruct (med_times m) as [l|]; [|done]. cbn [default Js.non_empty].
  intros Hall.
  assert (existsb (String.eqb (now_time now)) l
          = existsb (fun medTime => String.eqb (Js.hhmm medTime) (now_time now)) l)
    as ->.
  { induction l as [|t l IH]; [done|]. cbn in *.
    apply andb_true_iff in Hall as [Ht Hl]. apply String.eqb_eq in Ht.
    rewrite Ht, (String.eqb_sym (now_time now) t). by rewrite IH. }
  by destruct l.
Qed.

Lemma client_meeting_due now (m : Meeting) :
  plain_item (MeetingItem m) = true ->
  Client.meeting_due now m = meeting_enabled m && meeting_shouldTrigger now m.
Proof.
  cbn [plain_item]. unfold is_hhmm. rewrite String.eqb_eq. intros Htime.
  unfold Client.meeting_due, Client.meeting_matches, meeting_shouldTrigger.
  by rewrite Htime.
Qed.

(** C1, as amended. For every active item and every instant the
    scheduler's due decision is the case analysis of section 4.1 at
    minute granularity; the polling loop takes the same decision for
    items whose times are stored as HH:mm and, for alarms, that do not
    carry both a date and recurring days. *)
Theorem due_decisions istTime (i : ScheduleItem) :
  let now := getCurrentTimeIST istTime in
  is_active i = true ->
  (server_due now i = true <-> Spec.isDue now i)
  /\ (plain_item i = true -> client_due now i = server_due now i).
Proof.
  intros now Hact. split; [by apply server_due_spec|].
  intros Hplain. destruct i as [a|m|m]; cbn [client_due server_due].
  - by apply client_alarm_due.
  - cbn in Hact. rewrite Hact. by apply client_medicine_due.
  - by apply client_meeting_due.
Qed.

Lemma due_decisions_witness :
  let now := getCurrentTimeIST Examples.monday_0700 in
  let i := AlarmItem Examples.daily_alarm in
  (server_due now i = true <-> Spec.isDue now i)
  /\ client_due now i = server_due now i.
Proof.
  intros now i.
  destruct (due_decisions Examples.monday_0700 i) as [Hserver Hclient];
    [reflexivity|].
  split; [exact Hserver|]. apply Hclient. reflexivity.
Defined.

(** C1, the claim fails: an active alarm with time 07:00, the past date
    2025-01-01 and the weekday Mon, looked at on Monday 2025-01-06 at
    07:00. The scheduler goes by the date and does not fire; the polling
    loop accepts the weekday and fires. *)
Lemma client_and_server_disagree :
  let now := getCurrentTimeIST Examples.monday_0700 in
  let i := AlarmItem Examples.dated_monday_alarm in
  is_active i = true
  /\ server_due now i = false
  /\ client_due now i = true.
Proof. vm_compute. done. Qed.

End DueDecisions.

(** ** The dedup gate *)

Section Dedup.
Import Client.
Variable t : Translations.

Lemma isDedupBlocked_admitted ms type id (last : gmap string Z) :
  isDedupBlocked ms type id last
  = if admitted ms (dedupKey type id) last
    then (false, <[dedupKey type id := ms]> last)
    else (true, last).
Proof.
  unfold isDedupBlocked, admitted.
  destruct (last !! dedupKey type id) as [lastTime|]; [|done].
  by destruct (negb (lastTime =? 0) && (ms - lastTime <? 60000)).
Qed.

(** Both input paths end in the same gate. *)
Lemma receive_gate ms (tr : Trigger) (st : State) :
  receive t ms tr st
  = if admitted ms (trigger_key t tr) (lastTriggered st)
    then set_popup (Some (trigger_popup t tr))
           (set_refs (<[trigger_key t tr := ms]> (lastTriggered st))
              (isProcessing st) (offline st) (requests st)
              (presented st ++ [trigger_popup t tr]) st)
    else st.
Proof.
  destruct tr as [item type isDateAlarm|data]; cbn [receive trigger_key trigger_popup];
    unfold triggerFromPushData, triggerAlarm; rewrite isDedupBlocked_admitted;
    by destruct (admitted _ _ _).
Qed.

(** C2, as amended. Two triggers with the same key, whatever path each
    came by, the later one less than 60 seconds after the earlier one:
    when the earlier one is admitted by the gate, it opens exactly one
    popup and the later one is discarded without touching the state. *)
Theorem dedup_discards_later_trigger (st : State) (tr1 tr2 : Trigger) (t1 t2 : Z) :
  trigger_key t tr1 = trigger_key t tr2 ->
  0 < t1 -> t1 <= t2 -> t2 - t1 < 60000 ->
  admitted t1 (trigger_key t tr1) (lastTriggered st) = true ->
  let st1 := receive t t1 tr1 st in
  presented st1 = presented st ++ [trigger_popup t tr1]
  /\ receive t t2 tr2 st1 = st1.
Proof.
  intros Hkey Hpos Hle Hlt Hadm st1. subst st1.
  rewrite (receive_gate t1 tr1 st), Hadm. split; [done|].
  rewrite receive_gate. cbn [lastTriggered set_popup set_refs].
  rewrite <- Hkey. unfold admitted at 1. rewrite lookup_insert_eq.
  replace (t1 =? 0) with false by (symmetry; apply Z.eqb_neq; lia).
  replace (t2 - t1 <? 60000) with true by (symmetry; apply Z.ltb_lt; lia).
  done.
Qed.

End Dedup.

Lemma dedup_discards_later_trigger_witness :
  let poll_tr := poll_trigger (Client.clk_now (Examples.clock_at 1000 "07:00"))
                   (AlarmItem Examples.daily_alarm) in
  let push_tr := PushTrigger (payload_of (AlarmItem Examples.daily_alarm)) in
  let st1 := receive Examples.english 1000 poll_tr Client.initial in
  Client.presented st1 = [trigger_popup Examples.english poll_tr]
  /\ receive Examples.english 1500 push_tr st1 = st1.
Proof.
  intros poll_tr push_tr.
  apply (dedup_discards_later_trigger Examples.english Client.initial
           poll_tr push_tr 1000 1500);
    [vm_compute; reflexivity | lia | lia | lia | vm_compute; reflexivity].
Defined.

(** C2, the claim fails: a poll trigger is admitted at 1 s; a push trigger
    for the same item at 60 s is discarded, the gate keeping the timestamp
    of the admitted one; a poll trigger one second later, at 61 s, is
    exactly 60 s after that timestamp and opens a second popup, although it
    follows the discarded trigger by one second only. *)
Lemma later_trigger_can_pass :
  let poll_tr := poll_trigger (Client.clk_now (Examples.clock_at 1000 "07:00"))
                   (AlarmItem Examples.daily_alarm) in
  let push_tr := PushTrigger (payload_of (AlarmItem Examples.daily_alarm)) in
  let st0 := receive Examples.english 1000 poll_tr Client.initial in
  let st1 := receive Examples.english 60000 push_tr st0 in
  let st2 := receive Examples.english 61000 poll_tr st1 in
  trigger_key Examples.english push_tr = trigger_key Examples.english poll_tr
  /\ st1 = st0
  /\ Client.presented st2
     = Client.presented st1 ++ [trigger_popup Examples.english poll_tr].
Proof. vm_compute. done. Qed.

(** ** The dedup key *)

Section DedupKey.
Import Client.
Variable t : Translations.

Lemma push_id_payload (i : ScheduleItem) : push_id (payload_of i) = item_key i.
Proof.
  destruct i as [a|m|m]; unfold push_id; cbn;
    match goal with |- context [?x =? 0] => destruct (Z.eqb_spec x 0) end; auto.
Qed.

Lemma push_kind_payload (i : ScheduleItem) : push_kind (payload_of i) = item_kind i.
Proof. by destruct i. Qed.

(** C7, as amended. The key of the dedup gate is made of the item kind
    and the item id only, as in "alarm-<id>"; a trigger raised by the
    polling loop for an item and the push message the scheduler sends for
    that item are filed under that same key. *)
Theorem dedup_key_is_kind_and_id (now : Now) (i : ScheduleItem) :
  trigger_key t (poll_trigger now i)
  = kindName (item_kind i) +:+ "-" +:+ pretty (item_key i)
  /\ trigger_key t (PushTrigger (payload_of i)) = trigger_key t (poll_trigger now i).
Proof.
  split.
  - by destruct i.
  - cbn [trigger_key]. rewrite push_kind_payload. cbn [push_item item_id].
    rewrite push_id_payload. by destruct i.
Qed.

End DedupKey.

(** C7, the claim fails: the key filed for alarm 5 is "alarm-5"; the firing
    time is no part of it, so it is not the key "alarm-5-07:00" of the
    specification, and the triggers of two different minutes share it. *)
Lemma dedup_key_has_no_time :
  Client.dedupKey KAlarm 5 = "alarm-5"
  /\ spec_occurrenceKey KAlarm 5 "07:00" = "alarm-5-07:00"
  /\ Client.dedupKey KAlarm 5 <> spec_occurrenceKey KAlarm 5 "07:00"
  /\ (let at_0700 := poll_trigger (Client.clk_now (Examples.clock_at 1000 "07:00"))
                       (MedicineItem Examples.pills) in
      let at_1900 := poll_trigger (Client.clk_now (Examples.clock_at 43201000 "19:00"))
                       (MedicineItem Examples.pills) in
      trigger_key Examples.english at_0700 = trigger_key Examples.english at_1900).
Proof. vm_compute. repeat split; done. Qed.

(** ** The offline cache: purging dismissal records *)

Section Purge.
Import Offline.
Variable today : string.

Lemma cursor_sweep_cons entry entries (store : gmap string DismissedRecord) :
  cursor_sweep today (entry :: entries) store
  = cursor_sweep today entries (cursor_step today entry store).
Proof. done. Qed.

Lemma cursor_sweep_absent entries (store : gmap string DismissedRecord) k :
  store !! k = None -> cursor_sweep today entries store !! k = None.
Proof.
  revert store. induction entries as [|[k' r'] entries IH]; intros store Hk; [done|].
  rewrite cursor_sweep_cons. apply IH. unfold cursor_step. cbn.
  case_bool_decide; [|done].
  destruct (decide (k' = k)) as [->|Hne];
    [apply lookup_delete_eq|by rewrite lookup_delete_ne].
Qed.

(** A record the cursor meets with another date is gone afterwards. *)
Lemma cursor_sweep_deletes entries (store : gmap string DismissedRecord) k r :
  (k, r) ∈ entries -> rec_date r <> today ->
  cursor_sweep today entries store !! k = None.
Proof.
  revert store. induction entries as [|[k' r'] entries IH]; intros store Hin Hdate.
  - by apply elem_of_nil in Hin.
  - rewrite cursor_sweep_cons. apply elem_of_cons in Hin as [[= <- <-]|Hin].
    + apply cursor_sweep_absent. unfold cursor_step. cbn.
      rewrite bool_decide_eq_true_2 by done. apply lookup_delete_eq.
    + by apply IH.
Qed.

(** A key the cursor only meets with today's date keeps its record. *)
Lemma cursor_sweep_keeps entries (store : gmap string DismissedRecord) k :
  (forall r, (k, r) ∈ entries -> rec_date r = today) ->
  cursor_sweep today entries store !! k = store !! k.
Proof.
  revert store. induction entries as [|[k' r'] entries IH]; intros store Hall; [done|].
  rewrite cursor_sweep_cons, IH by (intros r Hr; apply Hall; by right).
  unfold cursor_step. cbn. case_bool_decide as Hdate; [|done].
  apply lookup_delete_ne. intros ->. apply Hdate, Hall. left.
Qed.

Lemma sweep_is_filter (store : gmap string DismissedRecord) :
  cursor_sweep today (map_to_list store) store
  = filter (fun entry => rec_date entry.2 = today) store.
Proof.
  apply map_eq. intros k. apply option_eq. intros r.
  rewrite map_lookup_filter_Some. cbn. split.
  - intros Hsome. destruct (store !! k) as [r0|] eqn:Hk.
    + destruct (decide (rec_date r0 = today)) as [Hd|Hd].
      * rewrite cursor_sweep_keeps in Hsome.
        -- rewrite Hk in Hsome. by injection Hsome as <-.
        -- intros r1 Hr1. apply elem_of_map_to_list in Hr1. congruence.
      * rewrite (cursor_sweep_deletes _ _ k r0) in Hsome; [done| |done].
        by apply elem_of_map_to_list.
    + by rewrite cursor_sweep_absent in Hsome.
  - intros [Hk Hd]. rewrite cursor_sweep_keeps; [done|].
    intros r1 Hr1. apply elem_of_map_to_list in Hr1. congruence.
Qed.

(** C9, as amended. [clearExpiredDismissals] removes exactly the
    dismissal records whose date is not today's: every record dated
    before today, or after it, is deleted, every record dated today stays
    as it is, and the stores of alarms, medicines and meetings and the
    meta store are left unchanged. *)
Theorem purge_keeps_todays_records (db : OfflineDB) :
  exists db',
    clearExpiredDismissals today (Some db) = Some db'
    /\ store_dismissed db'
       = filter (fun entry => rec_date entry.2 = today) (store_dismissed db)
    /\ (forall k r, store_dismissed db !! k = Some r ->
                    store_dismissed db' !! k
                    = if decide (rec_date r = today) then Some r else None)
    /\ store_alarms db' = store_alarms db
    /\ store_medicines db' = store_medicines db
    /\ store_meetings db' = store_meetings db
    /\ store_meta db' = store_meta db.
Proof.
  eexists. split; [reflexivity|]. cbn. rewrite sweep_is_filter.
  split; [done|]. split; [|done].
  intros k r Hk. case_decide as Hd.
  - by apply map_lookup_filter_Some.
  - apply map_lookup_filter_None. right. intros r' Hr'. cbn. congruence.
Qed.

End Purge.

(** C9, the claim fails: on 2025-01-06 the cache holds a record dated
    2025-01-07, later than today; the purge deletes it. *)
Lemma purge_deletes_later_records :
  let today := "2025-01-06" in
  let record := Examples.dismissed_tomorrow in
  String.ltb today (Offline.rec_date record) = true
  /\ Offline.store_dismissed Examples.offline_db !! Offline.rec_key record = Some record
  /\ (Offline.store_dismissed
        <$> Offline.clearExpiredDismissals today (Some Examples.offline_db))
     = Some ∅.
Proof. vm_compute. done. Qed.

(** ** Dismissal and the polling loop *)

Section Polling.
Import Client.

Lemma shown_set_active k id k' f st :
  shown k id (set_active k' f st) = shown k id st.
Proof. done. Qed.

Lemma shown_set_dismissed k id k' f st :
  shown k id (set_dismissed k' f st) = shown k id st.
Proof. done. Qed.

Lemma dismissed_set_active k k' f st :
  dismissed_of k (set_active k' f st) = dismissed_of k st.
Proof. by destruct k. Qed.

Lemma dismissed_set_dismissed k k' f st :
  dismissed_of k (set_dismissed k' f st)
  = if decide (k' = k) then f (dismissed_of k st) else dismissed_of k st.
Proof. by destruct k, k'. Qed.

Lemma dismissed_triggerAlarm k ms item type d st :
  dismissed_of k (triggerAlarm ms item type d st) = dismissed_of k st.
Proof.
  unfold triggerAlarm.
  destruct (isDedupBlocked ms type (item_id item) (lastTriggered st)) as [[] last];
    by destruct k.
Qed.

(** A trigger for another item opens no popup for this one. *)
Lemma shown_triggerAlarm_other k id ms item type d st :
  ~ (type = k /\ item_id item = id) ->
  shown k id (triggerAlarm ms item type d st) = shown k id st.
Proof.
  intros Hother. unfold triggerAlarm.
  destruct (isDedupBlocked ms type (item_id item) (lastTriggered st)) as [[] last];
    [done|].
  unfold shown. cbn. rewrite filter_app, filter_cons_False, filter_nil by done.
  by rewrite app_nil_r.
Qed.

(** One [forEach] body never opens a popup for another item. *)
Lemma poll_item_shown_other k id snap clock type id' matches item d st :
  item_id item = id' -> ~ (type = k /\ id' = id) ->
  shown k id (poll_item snap clock type id' matches item d st) = shown k id st.
Proof.
  intros Hid Hother. unfold poll_item. destruct matches.
  - destruct (negb _ && negb _); [|done].
    rewrite shown_set_active. apply shown_triggerAlarm_other. by rewrite Hid.
  - destruct (_ && _) at 1; destruct (_ && _); by rewrite ?shown_set_dismissed.
Qed.

(** While the captured dismissal map holds [id -> minute] and the clock
    shows that minute, the [forEach] bodies open no popup for the item and
    keep its record. *)
Lemma poll_item_suppressed k id snap clock type id' matches item d st :
  item_id item = id' ->
  dismissed_of k snap !! id = Some (currentTime clock) ->
  let st' := poll_item snap clock type id' matches item d st in
  shown k id st' = shown k id st
  /\ (dismissed_of k st !! id = Some (currentTime clock) ->
      dismissed_of k st' !! id = Some (currentTime clock)).
Proof.
  intros Hid Hsnap st'. subst st'.
  destruct (decide (type = k /\ id' = id)) as [[-> ->]|Hother].
  - unfold poll_item. rewrite Hsnap.
    rewrite (bool_decide_eq_true_2 (Some _ = Some _)) by done.
    rewrite !andb_false_r. cbn [negb andb].
    destruct matches; [done|].
    destruct (_ && _); by rewrite ?dismissed_set_active.
  - split; [by apply poll_item_shown_other|].
    intros Hst. unfold poll_item. destruct matches.
    + destruct (negb _ && negb _); [|done].
      by rewrite dismissed_set_active, dismissed_triggerAlarm.
    + assert (forall s, dismissed_of k s !! id = Some (currentTime clock) ->
                        dismissed_of k (set_dismissed type (fun prev => delete id' prev) s) !! id
                        = Some (currentTime clock)) as Hdel.
      { intros s Hs. rewrite dismissed_set_dismissed. case_decide as Hk; [|done].
        rewrite lookup_delete_ne; [done|]. intros ->. by apply Hother. }
      destruct (_ && _) at 1; destruct (_ && _);
        rewrite ?Hdel, ?dismissed_set_active; try done;
        by rewrite ?dismissed_set_active.
Qed.

Lemma foldl_invariant {A B} (P : A -> Prop) (f : A -> B -> A) (l : list B) (a : A) :
  (forall acc x, x ∈ l -> P acc -> P (f acc x)) -> P a -> P (foldl f a l).
Proof.
  revert a. induction l as [|x l IH]; intros a Hstep Ha; [done|].
  cbn. apply IH.
  - intros acc y Hy. apply Hstep. by right.
  - apply Hstep; [left|done].
Qed.

Lemma poll_alarm_suppressed k id snap clock alarm st :
  dismissed_of k snap !! id = Some (currentTime clock) ->
  let st' := poll_alarm snap clock alarm st in
  shown k id st' = shown k id st
  /\ (dismissed_of k st !! id = Some (currentTime clock) ->
      dismissed_of k st' !! id = Some (currentTime clock)).
Proof.
  intros Hsnap. unfold poll_alarm. destruct (negb (alarm_isActive alarm)); [done|].
  by apply poll_item_suppressed.
Qed.

Lemma poll_medicine_suppressed k id snap clock med st :
  dismissed_of k snap !! id = Some (currentTime clock) ->
  let st' := poll_medicine snap clock med st in
  shown k id st' = shown k id st
  /\ (dismissed_of k st !! id = Some (currentTime clock) ->
      dismissed_of k st' !! id = Some (currentTime clock)).
Proof. intros Hsnap. by apply poll_item_suppressed. Qed.

Lemma poll_meeting_suppressed k id snap clock meeting st :
  dismissed_of k snap !! id = Some (currentTime clock) ->
  let st' := poll_meeting snap clock meeting st in
  shown k id st' = shown k id st
  /\ (dismissed_of k st !! id = Some (currentTime clock) ->
      dismissed_of k st' !! id = Some (currentTime clock)).
Proof.
  intros Hsnap. unfold poll_meeting. destruct (negb (meeting_enabled meeting)); [done|].
  by apply poll_item_suppressed.
Qed.

(** A whole run of the interval callback in the minute of the record. *)
Lemma poll_suppressed k id (input : PollInput) st :
  dismissed_of k st !! id = Some (currentTime (poll_clock input)) ->
  shown k id (poll input st) = shown k id st
  /\ dismissed_of k (poll input st) !! id = Some (currentTime (poll_clock input)).
Proof.
  intros Hst. unfold poll, poll_tick.
  set (P := fun acc => shown k id acc = shown k id st
                       /\ dismissed_of k acc !! id
                          = Some (currentTime (poll_clock input))).
  change (P (foldl (fun acc meeting => poll_meeting st (poll_clock input) meeting acc)
               (foldl (fun acc med => poll_medicine st (poll_clock input) med acc)
                  (foldl (fun acc alarm => poll_alarm st (poll_clock input) alarm acc)
                     st (poll_alarms input))
                  (poll_medicines input))
               (poll_meetings input))).
  apply foldl_invariant; [|apply foldl_invariant; [|apply foldl_invariant; [|done]]].
  - intros acc x _ [Hshown Hrec].
    destruct (poll_meeting_suppressed k id st (poll_clock input) x acc Hst) as [H1 H2].
    split; [by rewrite H1|by apply H2].
  - intros acc x _ [Hshown Hrec].
    destruct (poll_medicine_suppressed k id st (poll_clock input) x acc Hst) as [H1 H2].
    split; [by rewrite H1|by apply H2].
  - intros acc x _ [Hshown Hrec].
    destruct (poll_alarm_suppressed k id st (poll_clock input) x acc Hst) as [H1 H2].
    split; [by rewrite H1|by apply H2].
Qed.

Lemma polls_suppressed k id minute (inputs : list PollInput) st :
  Forall (fun input => currentTime (poll_clock input) = minute) inputs ->
  dismissed_of k st !! id = Some minute ->
  shown k id (polls inputs st) = shown k id st
  /\ dismissed_of k (polls inputs st) !! id = Some minute.
Proof.
  intros Hall Hst. unfold polls.
  set (P := fun acc => shown k id acc = shown k id st
                       /\ dismissed_of k acc !! id = Some minute).
  change (P (foldl (fun acc input => poll input acc) st inputs)).
  apply foldl_invariant; [|done].
  intros acc input Hin [Hshown Hrec].
  rewrite Forall_forall in Hall. specialize (Hall input Hin).
  rewrite <- Hall in Hrec.
  destruct (poll_suppressed k id input acc Hrec) as [H1 H2].
  split; [by rewrite H1|by rewrite H2, Hall].
Qed.

(** What [dismissAlarm] does to an open popup. *)
Lemma dismissAlarm_popup clock st p :
  isProcessing st = false -> activeAlarmPopup st = Some p ->
  let st' := dismissAlarm clock st in
  activeAlarmPopup st' = None
  /\ presented st' = presented st
  /\ dismissed_of (popup_type p) st' !! popup_id p = Some (currentTime clock)
  /\ offline st'
     = Offline.markDismissed (currentDate clock) (clk_ms clock)
         (kindName (popup_type p)) (popup_id p) (currentTime clock) (offline st)
  /\ requests st'
     = if bool_decide (popup_type p = KAlarm) && popup_isDateAlarm p
       then requests st ++ [{| upd_id := popup_id p; upd_isActive := false |}]
       else requests st.
Proof.
  intros Hproc Hpopup. unfold dismissAlarm. rewrite Hproc, Hpopup.
  destruct p as [id type title message isDate]. cbn [popup_id popup_type popup_isDateAlarm].
  repeat split.
  - destruct type; cbn; apply lookup_insert_eq.
  - by destruct type, isDate.
Qed.

(** C8, as amended. Dismissing an occurrence records the item and the
    minute of the dismissal, in memory and in the offline cache; for as
    long as the clock still shows that minute, no run of the polling loop
    opens a popup for that item, and the record stays in place. *)
Theorem dismissal_suppresses_polling (st : State) (p : ActiveAlarmData)
    (clock : Clock) (inputs : list PollInput) :
  isProcessing st = false ->
  activeAlarmPopup st = Some p ->
  Forall (fun input => currentTime (poll_clock input) = currentTime clock) inputs ->
  let st1 := dismissAlarm clock st in
  let st2 := polls inputs st1 in
  dismissed_of (popup_type p) st1 !! popup_id p = Some (currentTime clock)
  /\ offline st1
     = Offline.markDismissed (currentDate clock) (clk_ms clock)
         (kindName (popup_type p)) (popup_id p) (currentTime clock) (offline st)
  /\ shown (popup_type p) (popup_id p) st2 = shown (popup_type p) (popup_id p) st
  /\ dismissed_of (popup_type p) st2 !! popup_id p = Some (currentTime clock).
Proof.
  intros Hproc Hpopup Hminute st1 st2.
  destruct (dismissAlarm_popup clock st p Hproc Hpopup)
    as (_ & Hshown & Hrec & Hoff & _). fold st1 in Hshown, Hrec, Hoff.
  destruct (polls_suppressed (popup_type p) (popup_id p) (currentTime clock)
              inputs st1 Hminute Hrec) as [H1 H2]. fold st2 in H1, H2.
  repeat split; try done. rewrite H1. unfold shown. by rewrite Hshown.
Qed.

(** The polling loop skips an alarm whose active flag is off. *)
Lemma poll_alarm_inactive snap clock alarm st :
  alarm_isActive alarm = false -> poll_alarm snap clock alarm st = st.
Proof. intros Hoff. unfold poll_alarm. by rewrite Hoff. Qed.

Lemma poll_shown_inactive id (input : PollInput) st :
  (forall a, a ∈ poll_alarms input -> alarm_id a = id -> alarm_isActive a = false) ->
  shown KAlarm id (poll input st) = shown KAlarm id st.
Proof.
  intros Hoff. unfold poll, poll_tick.
  set (P := fun acc => shown KAlarm id acc = shown KAlarm id st).
  change (P (foldl (fun acc meeting => poll_meeting st (poll_clock input) meeting acc)
               (foldl (fun acc med => poll_medicine st (poll_clock input) med acc)
                  (foldl (fun acc alarm => poll_alarm st (poll_clock input) alarm acc)
                     st (poll_alarms input))
                  (poll_medicines input))
               (poll_meetings input))).
  apply foldl_invariant; [|apply foldl_invariant; [|apply foldl_invariant; [|done]]];
    unfold P; intros acc x Hx <-.
  - unfold poll_meeting. destruct (negb (meeting_enabled x)); [done|].
    apply poll_item_shown_other; [done|]. by intros [? _].
  - apply poll_item_shown_other; [done|]. by intros [? _].
  - destruct (decide (alarm_id x = id)) as [Hid|Hid].
    + by rewrite poll_alarm_inactive by by apply Hoff.
    + unfold poll_alarm. destruct (negb (alarm_isActive x)); [done|].
      apply poll_item_shown_other; [done|]. by intros [_ ?].
Qed.

Lemma polls_shown_inactive id (inputs : list PollInput) st :
  Forall (fun input =>
            forall a, a ∈ poll_alarms input -> alarm_id a = id ->
                      alarm_isActive a = false) inputs ->
  shown KAlarm id (polls inputs st) = shown KAlarm id st.
Proof.
  intros Hall. unfold polls.
  set (P := fun acc => shown KAlarm id acc = shown KAlarm id st).
  change (P (foldl (fun acc input => poll input acc) st inputs)).
  apply foldl_invariant; [|done]. unfold P. intros acc input Hin <-.
  rewrite Forall_forall in Hall. by apply poll_shown_inactive, Hall.
Qed.

Lemma setActive_off id (db : Database) : inactive_in id (setActive id false db).
Proof.
  intros a Hin Hid. cbn in Hin. apply list_elem_of_fmap in Hin as (a0 & -> & _).
  case_bool_decide as Ha0; [done|]. by destruct Ha0.
Qed.

(** The scheduler sends nothing for an alarm whose rows are inactive. *)
Lemma tick_skips_inactive env istTime (w : Server.World) id x :
  inactive_in id (Server.w_db w) ->
  x ∈ Server.w_attempts (Server.checkAndSendAlarms env istTime w).1 ->
  pl_type x.2 = KAlarm -> pl_id x.2 = Some id ->
  x ∈ Server.w_attempts w.
Proof.
  intros Hoff Hin Htype Hid.
  destruct (tick_attempts_due env istTime w) as (l & Hl & Hdue).
  rewrite Hl in Hin. apply elem_of_app in Hin as [Hin|Hin]; [done|].
  exfalso. rewrite Forall_forall in Hdue.
  destruct (Hdue x Hin) as [(a & Ha & Hact & _ & Hpl)|[(m & _ & _ & _ & Hpl)|(m & _ & _ & _ & Hpl)]];
    rewrite Hpl in Htype, Hid; cbn in Htype, Hid; try done.
  injection Hid as Hid. rewrite (Hoff a Ha Hid) in Hact. done.
Qed.

(** C5, as amended. Dismissing the popup of a date alarm that the
    polling loop presented on its date sends the Schedule Store the
    request to set that alarm's active flag to false; once the store has
    served it, no scheduler tick sends a push for that alarm and no run of
    the polling loop over the stored alarms opens a popup for it. Nothing
    of the kind is done for meetings. *)
Theorem dismissed_date_alarm_is_deactivated (st : State) (p : ActiveAlarmData)
    (clock : Clock) (db : Database) :
  isProcessing st = false ->
  activeAlarmPopup st = Some p ->
  popup_type p = KAlarm ->
  popup_isDateAlarm p = true ->
  let st' := dismissAlarm clock st in
  let update := {| upd_id := popup_id p; upd_isActive := false |} in
  let db' := apply_update update db in
  requests st' = requests st ++ [update]
  /\ inactive_in (popup_id p) db'
  /\ (forall env istTime (w : Server.World) x,
        Server.w_db w = db' ->
        x ∈ Server.w_attempts (Server.checkAndSendAlarms env istTime w).1 ->
        pl_type x.2 = KAlarm -> pl_id x.2 = Some (popup_id p) ->
        x ∈ Server.w_attempts w)
  /\ (forall (inputs : list PollInput) s,
        Forall (fun input => poll_alarms input ⊆ alarms db') inputs ->
        shown KAlarm (popup_id p) (polls inputs s) = shown KAlarm (popup_id p) s).
Proof.
  intros Hproc Hpopup Htype Hdate st' update db'.
  destruct (dismissAlarm_popup clock st p Hproc Hpopup) as (_ & _ & _ & _ & Hreq).
  rewrite Htype, Hdate in Hreq.
  assert (inactive_in (popup_id p) db') as Hoff by apply setActive_off.
  split; [exact Hreq|]. split; [exact Hoff|]. split.
  - intros env istTime w x Hdb. apply tick_skips_inactive. by rewrite Hdb.
  - intros inputs s Hsub. apply polls_shown_inactive.
    eapply Forall_impl; [exact Hsub|]. intros input Hin a Ha. apply Hoff. by apply Hin.
Qed.

End Polling.

Lemma dismissal_suppresses_polling_witness :
  let input ms :=
    {| poll_clock := Examples.clock_at ms "07:00";
       poll_alarms := [Examples.daily_alarm];
       poll_medicines := []; poll_meetings := [] |} in
  let st := poll (input 1000) Examples.started in
  let st1 := Client.dismissAlarm (Examples.clock_at 5000 "07:00") st in
  let st2 := polls [input 6000; input 7000; input 59000] st1 in
  Offline.isDismissed "2025-01-06" "alarm" 2 "07:00" (Client.offline st1) = true
  /\ length (shown KAlarm 2 st) = 1%nat
  /\ shown KAlarm 2 st2 = shown KAlarm 2 st.
Proof.
  intros input st st1 st2.
  destruct (dismissal_suppresses_polling st
              (Client.popup_of (Client.item_of_alarm Examples.daily_alarm) KAlarm false)
              (Examples.clock_at 5000 "07:00") [input 6000; input 7000; input 59000])
    as (_ & Hoffline & Hshown & _).
  - reflexivity.
  - vm_compute. reflexivity.
  - repeat constructor.
  - split; [|split; [vm_compute; reflexivity|exact Hshown]].
    fold st1 in Hoffline. rewrite Hoffline. vm_compute. reflexivity.
Defined.

(** C8, the claim fails: alarm 2 rings at 07:00 through the polling loop
    and is dismissed five seconds later, which records the dismissal. The
    push message for the same occurrence reaches the device 60 s after the
    poll trigger, on the same day: it is not compared with the dismissal
    record and opens the popup again. *)
Lemma push_after_dismissal_presents_again :
  let input :=
    {| poll_clock := Examples.clock_at 1000 "07:00";
       poll_alarms := [Examples.daily_alarm];
       poll_medicines := []; poll_meetings := [] |} in
  let push_tr := PushTrigger (payload_of (AlarmItem Examples.daily_alarm)) in
  let st := poll input Examples.started in
  let st1 := Client.dismissAlarm (Examples.clock_at 5000 "07:00") st in
  let st2 := receive Examples.english 61000 push_tr st1 in
  Offline.isDismissed "2025-01-06" "alarm" 2 "07:00" (Client.offline st1) = true
  /\ Client.dismissedAlarms st1 !! 2 = Some "07:00"
  /\ Client.activeAlarmPopup st1 = None
  /\ length (shown KAlarm 2 st1) = 1%nat
  /\ length (shown KAlarm 2 st2) = 2%nat
  /\ Client.activeAlarmPopup st2 = Some (trigger_popup Examples.english push_tr).
Proof. vm_compute. done. Qed.

Lemma dismissed_date_alarm_is_deactivated_witness :
  let input :=
    {| poll_clock := Examples.clock_at 1000 "07:00";
       poll_alarms := [Examples.date_alarm];
       poll_medicines := []; poll_meetings := [] |} in
  let st := poll input Examples.started in
  let st' := Client.dismissAlarm (Examples.clock_at 5000 "07:00") st in
  let db' := apply_updates (Client.requests st') Examples.db_one_shot in
  Client.requests st' = [{| upd_id := 1; upd_isActive := false |}]
  /\ inactive_in 1 db'.
Proof.
  intros input st st'.
  destruct (dismissed_date_alarm_is_deactivated st
              (Client.popup_of (Client.item_of_alarm Examples.date_alarm) KAlarm true)
              (Examples.clock_at 5000 "07:00") Examples.db_one_shot)
    as (Hreq & Hoff & _).
  - reflexivity.
  - vm_compute. reflexivity.
  - reflexivity.
  - reflexivity.
  - fold st' in Hreq. cbn zeta. rewrite Hreq. split; [reflexivity|exact Hoff].
Defined.

(** C5, the claim fails: the meeting "Standup" is presented at 07:00 and
    dismissed. No request goes to the Schedule Store, the meeting stays
    enabled; a scheduler started again in that minute pushes it once more,
    and the push, arriving 60 s after the first trigger, opens the popup a
    second time. *)
Lemma dismissed_meeting_stays_enabled :
  let input :=
    {| poll_clock := Examples.clock_at 1000 "07:00";
       poll_alarms := []; poll_medicines := [];
       poll_meetings := [Examples.standup] |} in
  let st := poll input Examples.started in
  let st' := Client.dismissAlarm (Examples.clock_at 5000 "07:00") st in
  let db' := apply_updates (Client.requests st') Examples.db_one_shot in
  let w' := (Server.checkAndSendAlarms Examples.env_abc Examples.monday_0700
               (Examples.world_of db')).1 in
  let push_tr := PushTrigger (Server.meeting_payload Examples.standup) in
  let st'' := receive Examples.english 61000 push_tr st' in
  length (shown KMeeting 1 st) = 1%nat
  /\ Client.requests st' = []
  /\ meeting_enabled <$> meetings db' = [true]
  /\ (Examples.sub_A, Server.meeting_payload Examples.standup) ∈ Server.w_attempts w'
  /\ length (shown KMeeting 1 st'') = 2%nat.
Proof.
  vm_compute. repeat split; try done. right. left.
Qed.

(** * Further properties of the modelled code *)

(** ** Subscription management *)

Section RegistryProperties.
Import Registry.
Variable rejects : Statement -> bool.

Lemma with_subscriptions_same (db : Database) :
  with_subscriptions (pushSubscriptions db) db = db.
Proof. by destruct db. Qed.

Lemma filter_nil_length {A} (P : A -> Prop) `{forall x, Decision (P x)} (l : list A) :
  (0 <? length (filter P l))%nat = false -> forall x, x ∈ l -> ~ P x.
Proof.
  intros Hlen x Hx HP. apply Nat.ltb_ge in Hlen.
  assert (x ∈ filter P l) as Hin by by apply list_elem_of_filter.
  destruct (filter P l); [by apply elem_of_nil in Hin|cbn in Hlen; lia].
Qed.

Lemma map_refresh_other userId p256dh auth fs endpoint (l : list PushSubscription) :
  filter (fun s => sub_endpoint s <> endpoint)
    (map (fun s => if bool_decide (sub_endpoint s = endpoint)
                   then refresh userId p256dh auth fs s else s) l)
  = filter (fun s => sub_endpoint s <> endpoint) l.
Proof.
  induction l as [|s l IH]; [done|]. cbn [map]. rewrite !filter_cons.
  case_bool_decide as He.
  - cbn [refresh sub_endpoint]. rewrite IH. by repeat case_decide.
  - rewrite IH. by repeat case_decide.
Qed.

Lemma save_success serial userId endpoint p256dh auth fs (db db' : Database) :
  savePushSubscription rejects serial userId endpoint p256dh auth fs db = inr db' ->
  (exists s, s ∈ pushSubscriptions db' /\ sub_endpoint s = endpoint)
  /\ (forall s, s ∈ pushSubscriptions db' -> sub_endpoint s = endpoint ->
                sub_userId s = userId /\ sub_p256dh s = p256dh /\ sub_auth s = auth
                /\ sub_supportsFullScreen s = default false fs)
  /\ filter (fun s => sub_endpoint s <> endpoint) (pushSubscriptions db')
     = filter (fun s => sub_endpoint s <> endpoint) (pushSubscriptions db)
  /\ length (pushSubscriptions db')
     = (length (pushSubscriptions db)
        + if bool_decide (endpoint ∈ sub_endpoint <$> pushSubscriptions db)
          then 0 else 1)%nat
  /\ same_schedule db db'.
Proof.
  unfold savePushSubscription.
  destruct (rejects (SelectByEndpoint endpoint)); [done|].
  destruct (0 <? length _)%nat eqn:Hknown.
  - destruct (rejects (UpdateByEndpoint endpoint)); [done|]. intros [= <-].
    cbn [pushSubscriptions with_subscriptions].
    apply Nat.ltb_lt in Hknown.
    destruct (filter _ (pushSubscriptions db)) as [|s0 rest] eqn:Hfil; [cbn in Hknown; lia|].
    assert (s0 ∈ pushSubscriptions db /\ sub_endpoint s0 = endpoint) as [Hs0 He0].
    { assert (s0 ∈ filter (fun s => sub_endpoint s = endpoint) (pushSubscriptions db))
        as Hin by (rewrite Hfil; left).
      apply list_elem_of_filter in Hin. tauto. }
    split; [|split; [|split; [|split]]].
    + exists (refresh userId p256dh auth fs s0). split; [|done].
      apply list_elem_of_In, in_map_iff. exists s0.
      rewrite bool_decide_eq_true_2 by done. split; [done|by apply list_elem_of_In].
    + intros s Hs He. apply list_elem_of_In, in_map_iff in Hs as (s1 & <- & _).
      case_bool_decide as He1; [done|]. done.
    + apply map_refresh_other.
    + rewrite length_map. rewrite bool_decide_eq_true_2; [lia|].
      rewrite <- He0. by apply list_elem_of_fmap_2.
    + done.
  - destruct (rejects (InsertSubscription endpoint)); [done|]. intros [= <-].
    cbn [pushSubscriptions with_subscriptions].
    pose proof (filter_nil_length _ _ Hknown) as Hnone. cbn in Hnone.
    split; [|split; [|split; [|split]]].
    + eexists. split; [apply elem_of_app; right; left|done].
    + intros s Hs He. apply elem_of_app in Hs as [Hs|Hs]; [by destruct (Hnone s Hs)|].
      apply list_elem_of_singleton in Hs as ->. done.
    + rewrite filter_app, filter_cons_False, filter_nil by (cbn; tauto).
      by rewrite app_nil_r.
    + rewrite length_app. cbn. rewrite bool_decide_eq_false_2; [done|].
      intros Hin. apply list_elem_of_fmap in Hin as (s & -> & Hs). by destruct (Hnone s Hs).
    + done.
Qed.

(** X1. [savePushSubscription] is an upsert keyed by the endpoint. When
    it succeeds, at least one row has the endpoint and every such row
    belongs to the given user with the given keys; rows of other
    endpoints are what they were; the table grows by one row if the
    endpoint was unknown and keeps its length otherwise; the schedule
    tables are untouched. It fails only with a statement the database
    rejected: the query by endpoint, or the one write it chose, which is
    the UPDATE exactly when the endpoint is known. *)
Theorem save_is_upsert serial userId endpoint p256dh auth fs (db : Database) :
  let result := savePushSubscription rejects serial userId endpoint p256dh auth fs db in
  let known := bool_decide (endpoint ∈ sub_endpoint <$> pushSubscriptions db) in
  (forall db', result = inr db' ->
     (exists s, s ∈ pushSubscriptions db' /\ sub_endpoint s = endpoint)
     /\ (forall s, s ∈ pushSubscriptions db' -> sub_endpoint s = endpoint ->
                   sub_userId s = userId /\ sub_p256dh s = p256dh /\ sub_auth s = auth
                   /\ sub_supportsFullScreen s = default false fs)
     /\ filter (fun s => sub_endpoint s <> endpoint) (pushSubscriptions db')
        = filter (fun s => sub_endpoint s <> endpoint) (pushSubscriptions db)
     /\ length (pushSubscriptions db')
        = (length (pushSubscriptions db) + if known then 0 else 1)%nat
     /\ same_schedule db db')
  /\ (forall stmt, result = inl stmt ->
        rejects stmt = true
        /\ (stmt = SelectByEndpoint endpoint
            \/ stmt = (if known then UpdateByEndpoint endpoint
                       else InsertSubscription endpoint))).
Proof.
  intros result known. split; [intros db'; apply save_success|].
  intros stmt. subst result. unfold savePushSubscription.
  destruct (rejects (SelectByEndpoint endpoint)) eqn:Hsel;
    [intros [= <-]; split; [done|by left]|].
  assert ((0 <? length (filter (fun s => sub_endpoint s = endpoint)
                          (pushSubscriptions db)))%nat = known) as ->.
  { subst known. case_bool_decide as Hk.
    - apply list_elem_of_fmap in Hk as (s & He & Hs). apply Nat.ltb_lt.
      assert (s ∈ filter (fun s => sub_endpoint s = endpoint) (pushSubscriptions db))
        as Hin by (by apply list_elem_of_filter).
      destruct (filter _ (pushSubscriptions db)); [by apply elem_of_nil in Hin|].
      cbn. lia.
    - apply Nat.ltb_ge.
      destruct (filter (fun s => sub_endpoint s = endpoint) (pushSubscriptions db))
        as [|s l] eqn:Hfil; [done|].
      assert (s ∈ filter (fun s => sub_endpoint s = endpoint) (pushSubscriptions db))
        as Hin by (rewrite Hfil; left).
      apply list_elem_of_filter in Hin as [He Hs]. destruct Hk.
      rewrite <- He. by apply list_elem_of_fmap_2. }
  destruct known.
  - destruct (rejects (UpdateByEndpoint endpoint)) eqn:Hupd; [|done].
    intros [= <-]. split; [done|by right].
  - destruct (rejects (InsertSubscription endpoint)) eqn:Hins; [|done].
    intros [= <-]. split; [done|by right].
Qed.

Lemma fmap_map_refresh {B} (f : PushSubscription -> B) userId p256dh auth fs endpoint
    (l : list PushSubscription) :
  (forall s, f (refresh userId p256dh auth fs s) = f s) ->
  f <$> map (fun s => if bool_decide (sub_endpoint s = endpoint)
                      then refresh userId p256dh auth fs s else s) l
  = f <$> l.
Proof.
  intros Hf. induction l as [|s l IH]; [done|]. cbn. rewrite IH.
  by case_bool_decide; rewrite ?Hf.
Qed.

(** X2. [savePushSubscription] keeps the keys of the table unique: if no
    two rows share an endpoint before, none do after; and if the id handed
    out by the sequence is new, row ids stay unique. *)
Theorem save_keeps_keys_unique serial userId endpoint p256dh auth fs (db db' : Database) :
  savePushSubscription rejects serial userId endpoint p256dh auth fs db = inr db' ->
  serial ∉ sub_id <$> pushSubscriptions db ->
  (NoDup (sub_endpoint <$> pushSubscriptions db) ->
   NoDup (sub_endpoint <$> pushSubscriptions db'))
  /\ (NoDup (sub_id <$> pushSubscriptions db) ->
      NoDup (sub_id <$> pushSubscriptions db')).
Proof.
  unfold savePushSubscription.
  destruct (rejects (SelectByEndpoint endpoint)); [done|].
  destruct (0 <? length _)%nat eqn:Hknown.
  - destruct (rejects (UpdateByEndpoint endpoint)); [done|]. intros [= <-] _.
    cbn [pushSubscriptions with_subscriptions].
    by rewrite !fmap_map_refresh.
  - destruct (rejects (InsertSubscription endpoint)); [done|]. intros [= <-] Hfresh.
    cbn [pushSubscriptions with_subscriptions].
    pose proof (filter_nil_length _ _ Hknown) as Hnone. cbn in Hnone.
    rewrite !fmap_app. cbn. split; intros Hnd.
    + apply NoDup_app. split; [done|]. split; [|apply NoDup_singleton].
      intros e He Hin. apply list_elem_of_singleton in Hin as ->.
      apply list_elem_of_fmap in He as (s & He & Hs). by destruct (Hnone s Hs).
    + apply NoDup_app. split; [done|]. split; [|apply NoDup_singleton].
      intros i Hi Hin. by apply list_elem_of_singleton in Hin as ->.
Qed.



Lemma filter_all_in {A} (P : A -> Prop) `{forall x, Decision (P x)} (l : list A) :
  (forall x, x ∈ l -> P x) -> filter P l = l.
Proof.
  induction l as [|x l IH]; intros HP; [done|].
  rewrite filter_cons_True by (apply HP; left).
  by rewrite IH by (intros y Hy; apply HP; by right).
Qed.

(** X4. Unsubscribing undoes a subscription: removing an endpoint after
    saving it gives what removing it from the original table gives, and
    that is the original table if the endpoint was not registered. *)
Theorem remove_after_save serial userId endpoint p256dh auth fs (db db' : Database) :
  savePushSubscription rejects serial userId endpoint p256dh auth fs db = inr db' ->
  rejects (DeleteByEndpoint endpoint) = false ->
  removePushSubscription rejects endpoint db' = removePushSubscription rejects endpoint db
  /\ (endpoint ∉ sub_endpoint <$> pushSubscriptions db ->
      removePushSubscription rejects endpoint db' = inr db).
Proof.
  intros Hsave Hdel.
  destruct (save_success _ _ _ _ _ _ _ _ Hsave) as (_ & _ & Hother & _ & Ha & Hm & Hg).
  unfold removePushSubscription. rewrite Hdel, Hother.
  assert (forall l, with_subscriptions l db' = with_subscriptions l db) as Hdb.
  { intros l. unfold with_subscriptions. by rewrite Ha, Hm, Hg. }
  rewrite Hdb. split; [done|]. intros Hnew.
  rewrite filter_all_in; [by rewrite with_subscriptions_same|].
  intros s Hs He. apply Hnew. rewrite <- He. by apply list_elem_of_fmap_2.
Qed.

(** X5. The subscribe route writes to the registry only when it answers
    200, and it answers 200 only to an authenticated request that names an
    endpoint and both keys; the rows of that endpoint then belong to the
    authenticated user. An unauthenticated request is answered 401. *)
Theorem subscribe_route_guards serial authenticated userId body (db : Database) :
  let result := subscribe_route rejects serial authenticated userId body db in
  (result.1 <> 200 -> result.2 = db)
  /\ (authenticated = false -> result.1 = 401)
  /\ (result.1 = 200 ->
      authenticated = true
      /\ Js.truthy (body_p256dh body) = true
      /\ Js.truthy (body_auth body) = true
      /\ exists endpoint,
           body_endpoint body = Some endpoint /\ endpoint <> ""
           /\ (exists s, s ∈ pushSubscriptions result.2 /\ sub_endpoint s = endpoint)
           /\ forall s, s ∈ pushSubscriptions result.2 -> sub_endpoint s = endpoint ->
                        sub_userId s = userId).
Proof.
  unfold subscribe_route. destruct authenticated; cbn [negb]; [|done].
  destruct (Js.truthy (body_endpoint body)) eqn:He; cbn [negb orb]; [|done].
  destruct (Js.truthy (body_p256dh body)) eqn:Hp; cbn [negb orb]; [|done].
  destruct (Js.truthy (body_auth body)) eqn:Ha; cbn [negb orb]; [|done].
  destruct (savePushSubscription _ _ _ _ _ _ _ _) as [stmt|db'] eqn:Hsave; cbn; [done|].
  split; [done|]. split; [done|]. intros _. repeat split.
  destruct (body_endpoint body) as [endpoint|]; [|done]. cbn in He, Hsave.
  exists endpoint. split; [done|]. split.
  { intros ->. done. }
  destruct (save_success _ _ _ _ _ _ _ _ Hsave) as (Hex & Hrows & _).
  split; [done|]. intros s Hs Hend. by destruct (Hrows s Hs Hend).
Qed.

End RegistryProperties.

(** ** The dispatcher, once more *)

Section DispatchProperties.
Import Server.
Variable env : Env.

(** The device loop when the [DELETE]s it issues are not rejected; other
    [DELETE]s may be. *)
Lemma device_loop_guarded payload (l : list PushSubscription) :
  (forall s, s ∈ l -> permanent env payload s = true ->
             db_rejects env (DeleteSubscription (sub_id s)) = false) ->
  forall (c : Counts) (w : World),
    for_of_acc l (send_one env payload) c w
    = ({| w_db :=
            with_subscriptions
              (filter (fun s => sub_id s ∉ gone_ids env payload l)
                 (pushSubscriptions (w_db w))) (w_db w);
          w_attempts := w_attempts w ++ ((fun s => (s, payload)) <$> l);
          w_console := w_console w ++ (l ≫= device_log env payload) |},
       inr {| success :=
                success c + length (filter (fun s => delivered env payload s = true) l);
              failed :=
                failed c + length (filter (fun s => delivered env payload s = false) l) |}).
Proof.
  induction l as [|s l IH]; intros Hdel c w.
  - cbn. unfold ret. f_equal.
    + destruct w as [[a m g p] att co]. cbn. unfold with_subscriptions. cbn.
      rewrite !app_nil_r. do 2 f_equal.
      rewrite filter_all; [done|]. intros x. unfold gone_ids. cbn. apply not_elem_of_nil.
    + destruct c. cbn. do 2 f_equal; lia.
  - assert (Hfil : forall (P : PushSubscription -> bool) (v : bool),
              filter (fun x => P x = v) (s :: l)
              = if Bool.eqb (P s) v then s :: filter (fun x => P x = v) l
                else filter (fun x => P x = v) l).
    { intros P v. rewrite filter_cons.
      case_decide as HP; [rewrite HP; by destruct v|].
      by destruct (P s), v. }
    assert (forall s', s' ∈ l -> permanent env payload s' = true ->
                       db_rejects env (DeleteSubscription (sub_id s')) = false) as Hdel'.
    { intros s' Hs'. apply Hdel. by right. }
    pose proof (Hdel s (list_elem_of_here _ _)) as Hdels.
    unfold gone_ids. rewrite !Hfil.
    cbn [for_of_acc mbind list_bind]. unfold bind at 1.
    unfold send_one at 1. unfold bind at 1. unfold webPush_sendNotification at 1.
    assert (Hd : delivered env payload s
                 = match transport env s payload with
                   | Delivered => true | Rejected _ => false end) by done.
    assert (Hp : permanent env payload s
                 = match transport env s payload with
                   | Delivered => false | Rejected c => is_gone c end) by done.
    assert (Hl : device_log env payload s
                 = match transport env s payload with
                   | Delivered => [LogSent (sub_id s)]
                   | Rejected c =>
                       if is_gone c
                       then [LogFailed (sub_id s); LogRemoved (sub_id s)]
                       else [LogFailed (sub_id s)]
                   end) by done.
    destruct (transport env s payload) as [|code] eqn:Ht.
    + rewrite Hd, Hp, Hl. cbn. rewrite IH by done. cbn. f_equal.
      * f_equal; rewrite <- ?app_assoc; done.
      * do 2 f_equal; lia.
    + rewrite Hd, Hp, Hl.
      unfold bind, console, ret, deleteSubscription, db_exec. cbn.
      destruct (is_gone code) eqn:Hg; cbn.
      * rewrite Hdels by done. cbn. rewrite IH by done. cbn. f_equal.
        -- f_equal; rewrite <- ?app_assoc; try done.
           unfold with_subscriptions. cbn. f_equal.
           apply filter_filter_ids.
        -- do 2 f_equal; lia.
      * rewrite IH by done. cbn. f_equal.
        -- f_equal; rewrite <- ?app_assoc; done.
        -- do 2 f_equal; lia.
Qed.

(** One call of the dispatcher, in full, when the database accepts its
    statements. *)
Lemma dispatch_run userId payload (w : World) :
  db_rejects env (SelectSubscriptions userId) = false ->
  (forall id, db_rejects env (DeleteSubscription id) = false) ->
  let subs := filter (fun s => sub_userId s = userId) (pushSubscriptions (w_db w)) in
  sendPushNotification env userId payload w
  = ({| w_db :=
          with_subscriptions
            (filter (fun s => sub_id s ∉ gone_ids env payload subs)
               (pushSubscriptions (w_db w))) (w_db w);
        w_attempts := w_attempts w ++ ((fun s => (s, payload)) <$> subs);
        w_console := w_console w ++ dispatch_log env userId payload subs |},
     inr {| success := length (filter (fun s => delivered env payload s = true) subs);
            failed := length (filter (fun s => delivered env payload s = false) subs) |}).
Proof.
  intros Hsel Hdel subs.
  unfold sendPushNotification, bind, selectSubscriptions, db_exec.
  rewrite Hsel. cbn -[filter]. fold subs.
  destruct subs as [|s0 rest] eqn:Hsubs.
  - cbn. f_equal. destruct w as [[a m g p] att co]. cbn.
    unfold with_subscriptions. cbn. rewrite app_nil_r. do 2 f_equal.
    rewrite filter_all; [done|]. intros x. apply not_elem_of_nil.
  - cbn [length Nat.eqb]. rewrite (device_loop env payload (s0 :: rest) Hdel).
    unfold dispatch_log. cbn -[filter mbind]. f_equal. f_equal.
    by rewrite <- !app_assoc.
Qed.

Lemma survivors userId payload (registry : list PushSubscription) :
  NoDup (sub_id <$> registry) ->
  let subs := filter (fun s => sub_userId s = userId) registry in
  filter (fun s => sub_userId s = userId)
    (filter (fun s => sub_id s ∉ gone_ids env payload subs) registry)
  = filter (fun s => permanent env payload s = false) subs.
Proof.
  intros Hnd subs. subst subs.
  rewrite (prune_by_id env payload userId registry Hnd).
  rewrite !list_filter_filter. apply list_filter_iff.
  intros s. destruct (permanent env payload s).
  - split; [intros [Hu Hn]; destruct Hn; by split|by intros [? _]].
  - split; [by intros [? _]|intros [_ ?]; split; [done|by intros [_ ?]]].
Qed.

Lemma length_filter_split {A} (P Q : A -> Prop) `{forall x, Decision (P x)}
    `{forall x, Decision (Q x)} (l : list A) :
  length (filter P l)
  = (length (filter P (filter Q l)) + length (filter (fun x => P x /\ ~ Q x) l))%nat.
Proof.
  induction l as [|x l IH]; [done|].
  rewrite !filter_cons.
  destruct (decide (P x)), (decide (Q x)); rewrite ?filter_cons;
    repeat case_decide; cbn; try tauto; lia.
Qed.

(** X6. Dispatching a second time with the same answers from the transport
    prunes nothing more: it attempts the surviving endpoints of the user
    only, reports the same number of delivered sends and the failed sends
    less the endpoints removed by the first call, and leaves the database
    as the first call left it. *)
Theorem dispatch_twice userId payload (w : World) :
  NoDup (sub_id <$> pushSubscriptions (w_db w)) ->
  db_rejects env (SelectSubscriptions userId) = false ->
  (forall id, db_rejects env (DeleteSubscription id) = false) ->
  let subs := filter (fun s => sub_userId s = userId) (pushSubscriptions (w_db w)) in
  let r1 := sendPushNotification env userId payload w in
  let r2 := sendPushNotification env userId payload r1.1 in
  exists c1 c2,
    r1.2 = inr c1 /\ r2.2 = inr c2
    /\ w_db r2.1 = w_db r1.1
    /\ success c2 = success c1
    /\ (failed c2 + length (filter (fun s => permanent env payload s = true) subs))%nat
       = failed c1
    /\ w_attempts r2.1
       = w_attempts r1.1
         ++ ((fun s => (s, payload)) <$> filter (fun s => permanent env payload s = false) subs).
Proof.
  intros Hnd Hsel Hdel subs r1 r2. subst r2 r1.
  rewrite (dispatch_run userId payload w Hsel Hdel). fold subs. cbn [fst snd].
  rewrite (dispatch_run userId payload _ Hsel Hdel).
  cbn [fst snd w_db w_attempts pushSubscriptions with_subscriptions].
  pose proof (survivors userId payload _ Hnd) as Hsurv. cbn zeta in Hsurv.
  fold subs in Hsurv. rewrite Hsurv.
  assert (gone_ids env payload (filter (fun s => permanent env payload s = false) subs) = [])
    as Hnone.
  { unfold gone_ids. rewrite list_filter_filter. clear.
    induction subs as [|x l IH]; [done|].
    rewrite filter_cons_False; [done|]. intros [H1 H2]. congruence. }
  rewrite Hnone.
  eexists _, _. split; [reflexivity|]. split; [reflexivity|]. cbn [success failed].
  split; [|split; [|split; [|done]]].
  - unfold with_subscriptions. cbn. f_equal.
    apply filter_all. intros x. apply not_elem_of_nil.
  - f_equal. rewrite list_filter_filter. apply list_filter_iff.
    intros s. unfold delivered, permanent.
    destruct (transport env s payload); split; intros; try done; tauto.
  - rewrite (length_filter_split (fun s => delivered env payload s = false)
               (fun s => permanent env payload s = false) subs).
    f_equal. f_equal. apply list_filter_iff.
    intros s. unfold delivered, permanent.
    destruct (transport env s payload) as [|code].
    + split; [done|by intros [? _]].
    + destruct (is_gone code); split; try done.
      intros [_ H]. by destruct H.
Qed.

Lemma for_of_acc_app {A S} (l1 l2 : list A) (body : S -> A -> M S) (c : S) (w : World) :
  for_of_acc (l1 ++ l2) body c w
  = bind (for_of_acc l1 body c) (for_of_acc l2 body) w.
Proof.
  revert c w. induction l1 as [|x l1 IH]; intros c w; [done|].
  cbn [app for_of_acc]. unfold bind in *.
  destruct (body c x w) as [w1 [e|c1]]; [done|]. apply IH.
Qed.

(** The run in which the [DELETE] of a gone endpoint is rejected. *)
Lemma dispatch_delete_rejected userId payload (w : World) pre s post :
  db_rejects env (SelectSubscriptions userId) = false ->
  filter (fun s => sub_userId s = userId) (pushSubscriptions (w_db w))
  = pre ++ s :: post ->
  (forall s', s' ∈ pre -> permanent env payload s' = true ->
              db_rejects env (DeleteSubscription (sub_id s')) = false) ->
  permanent env payload s = true ->
  db_rejects env (DeleteSubscription (sub_id s)) = true ->
  sendPushNotification env userId payload w
  = ({| w_db :=
          with_subscriptions
            (filter (fun s => sub_id s ∉ gone_ids env payload pre)
               (pushSubscriptions (w_db w))) (w_db w);
        w_attempts := w_attempts w ++ ((fun s => (s, payload)) <$> pre ++ [s]);
        w_console :=
          w_console w
          ++ [LogSending (pl_type payload) (length (pre ++ s :: post)) userId]
          ++ (pre ≫= device_log env payload) ++ [LogFailed (sub_id s)] |},
     inl (DbError (DeleteSubscription (sub_id s)))).
Proof.
  intros Hsel Hsubs Hpre Hperm Hrej.
  unfold sendPushNotification, bind at 1, selectSubscriptions, db_exec.
  rewrite Hsel. cbn -[filter]. rewrite Hsubs.
  assert ((length (pre ++ s :: post) =? 0)%nat = false) as ->.
  { apply Nat.eqb_neq. rewrite length_app. cbn. lia. }
  unfold bind at 1. unfold console at 1. cbn -[filter for_of_acc].
  unfold bind at 1. rewrite for_of_acc_app. unfold bind at 1.
  rewrite (device_loop_guarded payload pre Hpre). cbn [for_of_acc].
  unfold bind at 1. unfold send_one at 1. unfold bind at 1.
  unfold webPush_sendNotification at 1.
  unfold permanent in Hperm.
  destruct (transport env s payload) as [|code]; [done|].
  unfold bind, console, deleteSubscription, db_exec. cbn -[filter].
  rewrite Hperm, Hrej. cbn -[filter]. f_equal. f_equal.
  - by rewrite fmap_app, app_assoc.
  - by rewrite <- !app_assoc.
Qed.

(** X7. Database errors leave the dispatcher as exceptions. If the
    subscription query is rejected nothing is attempted and nothing
    changes. If the [DELETE] of a gone endpoint is rejected, the endpoints
    up to and including that one have been attempted, the ones after it are
    not attempted at all, and no counts are returned. *)
Theorem dispatch_database_errors userId payload (w : World) :
  (db_rejects env (SelectSubscriptions userId) = true ->
   sendPushNotification env userId payload w
   = (w, inl (DbError (SelectSubscriptions userId))))
  /\ (forall pre s post,
        db_rejects env (SelectSubscriptions userId) = false ->
        filter (fun s => sub_userId s = userId) (pushSubscriptions (w_db w))
        = pre ++ s :: post ->
        (forall s', s' ∈ pre -> permanent env payload s' = true ->
                    db_rejects env (DeleteSubscription (sub_id s')) = false) ->
        permanent env payload s = true ->
        db_rejects env (DeleteSubscription (sub_id s)) = true ->
        let r := sendPushNotification env userId payload w in
        r.2 = inl (DbError (DeleteSubscription (sub_id s)))
        /\ w_attempts r.1 = w_attempts w ++ ((fun s => (s, payload)) <$> pre ++ [s])).
Proof.
  split.
  - intros Hsel. unfold sendPushNotification, bind, selectSubscriptions, db_exec.
    by rewrite Hsel.
  - intros pre s post Hsel Hsubs Hpre Hperm Hrej r. subst r.
    by rewrite (dispatch_delete_rejected userId payload w pre s post).
Qed.

End DispatchProperties.

(** ** The scheduler, once more *)

Section TickProperties.
Import Server.
Variable env : Env.
Variable now : Now.

Lemma triggered_app (c1 c2 : list LogEntry) :
  triggered (c1 ++ c2) = triggered c1 ++ triggered c2.
Proof. apply omap_app. Qed.

Lemma triggered_device_logs payload (subs : list PushSubscription) :
  triggered (subs ≫= device_log env payload) = [].
Proof.
  induction subs as [|s subs IH]; [done|].
  cbn [mbind list_bind]. rewrite triggered_app.
  change (triggered (subs ≫= device_log env payload) = []) in IH. rewrite IH.
  unfold device_log. destruct (transport env s payload) as [|code]; [done|].
  by destruct (is_gone code).
Qed.

Lemma triggered_dispatch_log userId payload subs :
  triggered (dispatch_log env userId payload subs) = [].
Proof.
  unfold dispatch_log. destruct subs as [|s subs]; [done|].
  rewrite !triggered_app, triggered_device_logs. done.
Qed.

Hypothesis accepts : forall op, db_rejects env op = false.

(** A dispatch returns and writes no "Triggering" line. *)
Lemma dispatch_returns userId payload (w : World) :
  exists w' c,
    sendPushNotification env userId payload w = (w', inr c)
    /\ triggered (w_console w') = triggered (w_console w).
Proof.
  rewrite dispatch_run by done. eexists _, _. split; [reflexivity|]. cbn.
  by rewrite triggered_app, triggered_dispatch_log, app_nil_r.
Qed.

Lemma trigger_and_dispatch k id userId payload (w : World) :
  exists w',
    bind (console (LogTriggering k id))
      (fun _ => bind (sendPushNotification env userId payload) (fun _ => ret tt)) w
    = (w', inr tt)
    /\ triggered (w_console w') = triggered (w_console w) ++ [(k, id)].
Proof.
  unfold bind at 1. unfold console at 1. cbn.
  destruct (dispatch_returns userId payload
              {| w_db := w_db w; w_attempts := w_attempts w;
                 w_console := w_console w ++ [LogTriggering k id] |})
    as (w' & c & Hrun & Hlog).
  unfold bind. rewrite Hrun. exists w'. split; [done|].
  rewrite Hlog. cbn. by rewrite triggered_app.
Qed.

Lemma check_item_triggers (i : ScheduleItem) (w : World) :
  exists w',
    check_item env now i w = (w', inr tt)
    /\ triggered (w_console w') = triggered (w_console w) ++ triggers_of now i.
Proof.
  destruct i as [a|m|m]; cbn [check_item triggers_of].
  - unfold check_alarm. destruct (alarm_shouldTrigger now a).
    + apply trigger_and_dispatch.
    + exists w. by rewrite app_nil_r.
  - unfold check_medicine.
    destruct (Js.non_empty (med_times m)) eqn:Hne.
    + revert w. induction (default [] (med_times m)) as [|medTime l IH]; intros w.
      * exists w. by rewrite app_nil_r.
      * cbn [for_of]. unfold bind at 1. unfold check_medicine_time at 1.
        rewrite filter_cons.
        destruct (String.eqb (Js.hhmm medTime) (now_time now)) eqn:Ht.
        -- apply String.eqb_eq in Ht. rewrite decide_True by done.
           destruct (trigger_and_dispatch KMedicine (med_id m) (med_userId m)
                       (medicine_payload m) w) as (w1 & Hrun & Hlog).
           rewrite Hrun. destruct (IH w1) as (w2 & Hrun2 & Hlog2).
           exists w2. split; [done|]. rewrite Hlog2, Hlog. cbn.
           by rewrite <- app_assoc.
        -- apply String.eqb_neq in Ht. rewrite decide_False by done. apply IH.
    + exists w. split; [done|].
      destruct (med_times m) as [[|]|]; try done; by rewrite app_nil_r.
  - unfold check_meeting. destruct (meeting_shouldTrigger now m).
    + apply trigger_and_dispatch.
    + exists w. by rewrite app_nil_r.
Qed.

Lemma walk_triggers (l : list ScheduleItem) (w : World) :
  exists w',
    for_of l (check_item env now) w = (w', inr tt)
    /\ triggered (w_console w') = triggered (w_console w) ++ (l ≫= triggers_of now).
Proof.
  revert w. induction l as [|i l IH]; intros w.
  - exists w. by rewrite app_nil_r.
  - cbn [for_of mbind list_bind]. unfold bind.
    destruct (check_item_triggers i w) as (w1 & Hrun & Hlog). rewrite Hrun.
    destruct (IH w1) as (w2 & Hrun2 & Hlog2). exists w2. split; [done|].
    rewrite Hlog2, Hlog. by rewrite <- app_assoc.
Qed.

End TickProperties.

Section TickTheorems.
Import Server.

Lemma triggers_of_due now (db : Database) (i : ScheduleItem) :
  i ∈ selected db -> triggers_of now i = [] <-> server_due now i = false.
Proof.
  unfold selected. rewrite !elem_of_app, !list_elem_of_fmap.
  intros [(a & -> & Ha)|[(m & -> & Hm)|(m & -> & Hm)]];
    apply list_elem_of_filter in Ha as [Hact _]
    || apply list_elem_of_filter in Hm as [Hact _];
    cbn [server_due triggers_of]; rewrite Hact; cbn [andb].
  - by destruct (alarm_shouldTrigger now a).
  - unfold medicine_shouldTrigger.
    destruct (med_times m) as [l|]; [|done]. cbn [default].
    assert (filter (fun medTime => Js.hhmm medTime = now_time now) l = []
            <-> existsb (fun medTime => String.eqb (Js.hhmm medTime) (now_time now)) l
                = false) as Hl.
    { induction l as [|t l IH]; [done|]. rewrite filter_cons. cbn [existsb].
      destruct (String.eqb (Js.hhmm t) (now_time now)) eqn:Ht.
      - apply String.eqb_eq in Ht. by rewrite decide_True by done.
      - apply String.eqb_neq in Ht. by rewrite decide_False by done. }
    destruct l as [|t l]; [done|]. cbn [Js.non_empty andb].
    rewrite <- Hl. unfold id. split.
    + intros H. by apply fmap_nil_inv in H.
    + by intros ->.
  - by destruct (meeting_shouldTrigger now m).
Qed.

(** X8. When the database accepts every statement, one tick raises the
    triggers of the selected items, in the order of the three loops, and
    no others: one "Triggering" line for each alarm and meeting whose test
    holds, one for each matching time of a medicine (two entries of the
    same minute make two), none for an item that is not due. The tick
    returns normally. *)
Theorem tick_triggers_exactly_due env istTime (w : World) :
  (forall op, db_rejects env op = false) ->
  let now := getCurrentTimeIST istTime in
  let r := checkAndSendAlarms env istTime w in
  r.2 = inr tt
  /\ triggered (w_console r.1)
     = triggered (w_console w) ++ (selected (w_db w) ≫= triggers_of now)
  /\ forall i, i ∈ selected (w_db w) ->
               (triggers_of now i = [] <-> server_due now i = false).
Proof.
  intros Hok now r. subst r.
  assert (checkAndSendAlarms env istTime w
          = for_of (selected (w_db w)) (check_item env now) (tick_start now w)) as ->.
  { unfold checkAndSendAlarms. fold now. unfold bind at 1, console at 1.
    fold (tick_start now w). unfold try_catch.
    rewrite (check_all_walk env now (w_db w)) by done.
    by destruct (walk_triggers env now Hok (selected (w_db w)) (tick_start now w))
      as (w' & -> & _). }
  destruct (walk_triggers env now Hok (selected (w_db w)) (tick_start now w))
    as (w' & -> & Hlog).
  split; [done|]. split; [|intros i; apply triggers_of_due].
  cbn [fst]. rewrite Hlog. unfold tick_start. cbn. by rewrite triggered_app, app_nil_r.
Qed.

(** X9. A tick in which no selected item is due does nothing but write its
    "Checking" line: it sends nothing, changes no table and does not even
    query the subscriptions, whose statements may be failing. *)
Theorem quiet_tick env istTime (w : World) :
  let now := getCurrentTimeIST istTime in
  db_rejects env SelectActiveAlarms = false ->
  db_rejects env SelectActiveMedicines = false ->
  db_rejects env SelectEnabledMeetings = false ->
  (forall i, i ∈ selected (w_db w) -> server_due now i = false) ->
  checkAndSendAlarms env istTime w = (tick_start now w, inr tt).
Proof.
  intros now Hs1 Hs2 Hs3 Hquiet.
  unfold checkAndSendAlarms. fold now. unfold bind at 1, console at 1.
  fold (tick_start now w). unfold try_catch.
  rewrite (check_all_walk env now (w_db w)) by done.
  assert (forall l w0, (forall i, i ∈ l -> i ∈ selected (w_db w)) ->
                       for_of l (check_item env now) w0 = (w0, inr tt)) as Hwalk.
  { induction l as [|i l IH]; intros w0 Hl; [done|].
    cbn [for_of]. unfold bind.
    rewrite (check_item_skips env now (w_db w) i w0);
      [|apply Hl; left|apply Hquiet, Hl; left].
    apply IH. intros j Hj. apply Hl. by right. }
  by rewrite Hwalk.
Qed.

End TickTheorems.

(** ** The scheduler as a process *)

Section ProcessProperties.
Import SchedulerProcess.

Lemma call_one_timer p c : one_timer p -> one_timer (call p c).
Proof.
  unfold one_timer. intros Hp.
  destruct c; cbn [call]; unfold startAlarmScheduler, stopAlarmScheduler;
    destruct (schedulerInterval p) as [h|] eqn:Hs; cbn; rewrite ?Hs; try done;
    rewrite Hp; set_solver.
Qed.

Lemma calls_one_timer cs p : one_timer p -> one_timer (calls cs p).
Proof.
  unfold calls. revert p. induction cs as [|c cs IH]; intros p Hp; [done|].
  cbn [foldl]. by apply IH, call_one_timer.
Qed.

(** X10. However [startAlarmScheduler] and [stopAlarmScheduler] are called
    after the process has booted, at most one interval timer of the
    scheduler exists, and it is the one [schedulerInterval] holds; a start
    while the scheduler runs changes nothing, not even by an immediate
    run, and a stop while it is stopped changes nothing either; after a
    stop no interval timer is left. *)
Theorem scheduler_has_one_timer (cs : list Call) :
  let p := calls cs boot in
  one_timer p
  /\ (is_Some (schedulerInterval p) -> startAlarmScheduler p = p)
  /\ (schedulerInterval p = None -> stopAlarmScheduler p = p)
  /\ intervals (stopAlarmScheduler p) = ∅.
Proof.
  intros p. assert (one_timer p) as Hp by (by apply calls_one_timer).
  split; [done|]. split; [|split].
  - intros [h Hh]. unfold startAlarmScheduler. by rewrite Hh.
  - intros Hn. unfold stopAlarmScheduler. by rewrite Hn.
  - unfold one_timer in Hp. unfold stopAlarmScheduler.
    destruct (schedulerInterval p) as [h|] eqn:Hs; cbn; rewrite Hp; set_solver.
Qed.

End ProcessProperties.

(** ** The rendering of the clock *)

Section ClockRendering.
Import Server.

Lemma forallb_seqZ (f : Z -> bool) (lo len x : Z) :
  forallb f (seqZ lo len) = true -> lo <= x < lo + len -> f x = true.
Proof.
  intros Hf Hx. rewrite forallb_forall in Hf. apply Hf.
  apply list_elem_of_In, elem_of_seqZ. lia.
Qed.

Lemma two_digits_table :
  forallb (fun h =>
    forallb (fun m =>
      let t := Js.padStart2 (pretty h) +:+ ":" +:+ Js.padStart2 (pretty m) in
      (String.length t =? 5)%nat
      && String.eqb (String.substring 0 2 t) (Js.padStart2 (pretty h))
      && String.eqb (String.substring 3 2 t) (Js.padStart2 (pretty m)))
      (seqZ 0 60)) (seqZ 0 24) = true.
Proof. vm_compute. reflexivity. Qed.

Lemma two_digits_distinct :
  forallb (fun a =>
    forallb (fun b =>
      implb (String.eqb (Js.padStart2 (pretty a)) (Js.padStart2 (pretty b))) (a =? b))
      (seqZ 0 60)) (seqZ 0 60) = true.
Proof. vm_compute. reflexivity. Qed.

Lemma substring_all (s : string) : String.substring 0 (String.length s) s = s.
Proof. induction s as [|c s IH]; [done|]. cbn. by rewrite IH. Qed.

Lemma time_parts (t : DateFields) :
  0 <= getUTCHours t < 24 -> 0 <= getUTCMinutes t < 60 ->
  let time := now_time (getCurrentTimeIST t) in
  String.length time = 5%nat
  /\ String.substring 0 2 time = Js.padStart2 (pretty (getUTCHours t))
  /\ String.substring 3 2 time = Js.padStart2 (pretty (getUTCMinutes t)).
Proof.
  intros Hh Hm. cbn [getCurrentTimeIST now_time].
  pose proof (forallb_seqZ _ 0 24 (getUTCHours t) two_digits_table ltac:(lia)) as H.
  cbv beta in H.
  pose proof (forallb_seqZ _ 0 60 (getUTCMinutes t) H ltac:(lia)) as H'.
  cbv beta zeta in H'. apply andb_prop in H' as [H' H3]. apply andb_prop in H' as [H1 H2].
  apply Nat.eqb_eq in H1. apply String.eqb_eq in H2, H3. done.
Qed.

Lemma two_digits_inj (a b : Z) :
  0 <= a < 60 -> 0 <= b < 60 ->
  Js.padStart2 (pretty a) = Js.padStart2 (pretty b) -> a = b.
Proof.
  intros Ha Hb Heq.
  pose proof (forallb_seqZ _ 0 60 a two_digits_distinct ltac:(lia)) as H.
  cbv beta in H.
  pose proof (forallb_seqZ _ 0 60 b H ltac:(lia)) as H'. cbv beta in H'.
  rewrite Heq, String.eqb_refl in H'. cbn in H'. lia.
Qed.

Lemma time_inj (t t' : DateFields) :
  0 <= getUTCHours t < 24 -> 0 <= getUTCMinutes t < 60 ->
  0 <= getUTCHours t' < 24 -> 0 <= getUTCMinutes t' < 60 ->
  now_time (getCurrentTimeIST t) = now_time (getCurrentTimeIST t') ->
  getUTCHours t = getUTCHours t' /\ getUTCMinutes t = getUTCMinutes t'.
Proof.
  intros Hh Hm Hh' Hm' Heq.
  destruct (time_parts t Hh Hm) as (_ & H1 & H2).
  destruct (time_parts t' Hh' Hm') as (_ & H1' & H2').
  cbv zeta in *. rewrite Heq in H1, H2. split; apply two_digits_inj; try lia; congruence.
Qed.

(** X11. For a clock reading within a day the scheduler's [time] is a
    string of five characters which its own [substring(0, 5)] leaves
    alone, and two readings render the same string only if they agree in
    hour and minute. So the test of an alarm or of a meeting holds in at
    most one minute of a day: if it holds at two readings, they are of the
    same hour and minute. *)
Theorem clock_rendering (t t' : DateFields) :
  0 <= getUTCHours t < 24 -> 0 <= getUTCMinutes t < 60 ->
  0 <= getUTCHours t' < 24 -> 0 <= getUTCMinutes t' < 60 ->
  let now := getCurrentTimeIST t in
  let now' := getCurrentTimeIST t' in
  String.length (now_time now) = 5%nat
  /\ Js.hhmm (now_time now) = now_time now
  /\ (now_time now = now_time now' ->
      getUTCHours t = getUTCHours t' /\ getUTCMinutes t = getUTCMinutes t')
  /\ (forall a, alarm_shouldTrigger now a = true -> alarm_shouldTrigger now' a = true ->
                getUTCHours t = getUTCHours t' /\ getUTCMinutes t = getUTCMinutes t')
  /\ (forall m, meeting_shouldTrigger now m = true ->
                meeting_shouldTrigger now' m = true ->
                getUTCHours t = getUTCHours t' /\ getUTCMinutes t = getUTCMinutes t').
Proof.
  intros Hh Hm Hh' Hm' now now'.
  destruct (time_parts t Hh Hm) as (Hlen & _). cbv zeta in Hlen. fold now in Hlen.
  split; [done|]. split.
  { unfold Js.hhmm. rewrite <- Hlen at 1. apply substring_all. }
  split; [by apply time_inj|]. split.
  - intros a Ha Ha'. apply time_inj; try done. fold now now'.
    unfold alarm_shouldTrigger in Ha, Ha'.
    destruct (String.eqb (Js.hhmm (alarm_time a)) (now_time now)) eqn:E; [|done].
    destruct (String.eqb (Js.hhmm (alarm_time a)) (now_time now')) eqn:E'; [|done].
    apply String.eqb_eq in E, E'. congruence.
  - intros m Ha Ha'. apply time_inj; try done. fold now now'.
    unfold meeting_shouldTrigger in Ha, Ha'.
    apply andb_prop in Ha as [E _]. apply andb_prop in Ha' as [E' _].
    apply String.eqb_eq in E, E'. congruence.
Qed.

End ClockRendering.

(** ** The offline cache: what is read back *)

Section CacheProperties.
Import Offline Cache.

Lemma key_le_total {A} : Total (@key_le A).
Proof. intros a b. unfold key_le. lia. Qed.

Lemma key_le_trans {A} : Transitive (@key_le A).
Proof. intros a b c. unfold key_le. lia. Qed.

Lemma putAll_snoc {A} (key : A -> Z) (items : list A) (x : A) :
  putAll key (items ++ [x]) = <[key x := x]> (putAll key items).
Proof. unfold putAll. by rewrite foldl_app. Qed.

(** Under a key the store holds the last item written with it. *)
Lemma putAll_lookup {A} (key : A -> Z) (items : list A) (k : Z) :
  putAll key items !! k = last (filter (fun y => key y = k) items).
Proof.
  induction items as [|x items IH] using rev_ind; [done|].
  rewrite putAll_snoc, filter_app.
  destruct (decide (key x = k)) as [Hk|Hk].
  - rewrite filter_cons, decide_True by done. cbn [filter list_filter].
    rewrite last_snoc. subst k. apply lookup_insert_eq.
  - rewrite filter_cons, decide_False by done. cbn [filter list_filter].
    rewrite app_nil_r. by rewrite lookup_insert_ne.
Qed.

Lemma elem_of_getAll {A} (store : gmap Z A) (x : A) :
  x ∈ getAll store <-> exists k, store !! k = Some x.
Proof.
  unfold getAll. rewrite list_elem_of_fmap. split.
  - intros ([k y] & -> & Hin). rewrite merge_sort_Permutation in Hin.
    exists k. by apply elem_of_map_to_list.
  - intros (k & Hk). exists (k, x). split; [done|].
    rewrite merge_sort_Permutation. by apply elem_of_map_to_list.
Qed.

Lemma ascending_strict (l : list Z) :
  StronglySorted Z.le l -> NoDup l -> StronglySorted Z.lt l.
Proof.
  induction 1 as [|x l Hs IH Hall]; intros Hnd; [constructor|].
  apply NoDup_cons in Hnd as [Hx Hnd]. constructor; [by apply IH|].
  rewrite Forall_forall in Hall |- *. intros y Hy.
  assert (x <> y) by (intros ->; by apply Hx, list_elem_of_In).
  specialize (Hall y Hy). lia.
Qed.

Lemma strict_NoDup (l : list Z) : StronglySorted Z.lt l -> NoDup l.
Proof.
  induction 1 as [|x l Hs IH Hall]; constructor; [|done].
  intros Hx. rewrite Forall_forall in Hall.
  apply Hall in Hx. lia.
Qed.

(** The keys of [getAll], in order, are the keys of the store. *)
Lemma getAll_keys {A} (key : A -> Z) (store : gmap Z A) :
  (forall k v, store !! k = Some v -> key v = k) ->
  StronglySorted Z.lt (key <$> getAll store).
Proof.
  intros Hkey. unfold getAll.
  set (l := merge_sort key_le (map_to_list store)).
  assert (key <$> (snd <$> l) = fst <$> l) as ->.
  { rewrite <- list_fmap_compose. apply Forall_fmap_ext, Forall_forall.
    intros [k v] Hin. cbn. apply Hkey, elem_of_map_to_list.
    subst l. by rewrite merge_sort_Permutation in Hin. }
  apply ascending_strict.
  - apply (StronglySorted_fmap fst key_le); [done|].
    subst l.
    apply (@StronglySorted_merge_sort _ key_le _ key_le_trans key_le_total).
  - subst l. rewrite merge_sort_Permutation. apply NoDup_fst_map_to_list.
Qed.

Lemma putAll_key {A} (key : A -> Z) (items : list A) k v :
  putAll key items !! k = Some v -> key v = k /\ v ∈ items.
Proof.
  rewrite putAll_lookup. intros Hl. apply last_Some in Hl as [l' Hl].
  assert (v ∈ filter (fun y => key y = k) items) as Hin
    by (rewrite Hl; set_solver).
  by apply list_elem_of_filter in Hin.
Qed.

Lemma last_written {A} (key : A -> Z) (items : list A) (x : A) :
  NoDup (key <$> items) -> x ∈ items ->
  last (filter (fun y => key y = key x) items) = Some x.
Proof.
  intros Hnd Hin. apply list_elem_of_split in Hin as (l1 & l2 & ->).
  rewrite fmap_app, fmap_cons in Hnd.
  apply NoDup_app in Hnd as (_ & _ & Hnd). apply NoDup_cons in Hnd as [Hx _].
  rewrite filter_app, filter_cons, decide_True by done.
  assert (filter (fun y => key y = key x) l2 = []) as ->.
  { clear -Hx. induction l2 as [|y l2 IH]; [done|].
    rewrite fmap_cons, not_elem_of_cons in Hx. destruct Hx as [Hy Hx].
    rewrite filter_cons, decide_False by congruence. by apply IH. }
  apply last_snoc.
Qed.

Lemma getAll_putAll_sorted {A} (key : A -> Z) (items : list A) :
  StronglySorted Z.lt (key <$> getAll (putAll key items)).
Proof. apply getAll_keys. intros k v Hk. by apply putAll_key in Hk as [? _]. Qed.

Lemma getAll_putAll_elem {A} (key : A -> Z) (items : list A) (x : A) :
  x ∈ getAll (putAll key items)
  <-> last (filter (fun y => key y = key x) items) = Some x.
Proof.
  rewrite elem_of_getAll. split.
  - intros (k & Hk). destruct (putAll_key _ _ _ _ Hk) as [<- _].
    by rewrite <- putAll_lookup.
  - intros Hl. exists (key x). by rewrite putAll_lookup.
Qed.

Lemma getAll_putAll_perm {A} (key : A -> Z) (items : list A) :
  NoDup (key <$> items) -> getAll (putAll key items) ≡ₚ items.
Proof.
  intros Hnd. apply NoDup_Permutation.
  - eapply NoDup_fmap_1, strict_NoDup, getAll_putAll_sorted.
  - by eapply NoDup_fmap_1.
  - intros x. rewrite getAll_putAll_elem. split.
    + intros Hl. apply last_Some in Hl as [l' Hl].
      assert (x ∈ filter (fun y => key y = key x) items) as Hin
        by (rewrite Hl; set_solver).
      by apply list_elem_of_filter in Hin as [_ ?].
    + by apply last_written.
Qed.

(** X12. What [getAll] reads back after [putAll]: the items in strictly
    ascending order of their ids, whatever the order they were written
    in; for an id written several times only the last item written; and,
    when the ids written are distinct, all the items written and nothing
    else. *)
Theorem cache_round_trip {A} (key : A -> Z) (items : list A) :
  let back := getAll (putAll key items) in
  StronglySorted Z.lt (key <$> back)
  /\ (forall x, x ∈ back <-> last (filter (fun y => key y = key x) items) = Some x)
  /\ (NoDup (key <$> items) -> back ≡ₚ items).
Proof.
  intros back. split; [apply getAll_putAll_sorted|].
  split; [apply getAll_putAll_elem|apply getAll_putAll_perm].
Qed.

End CacheProperties.

(** ** The offline cache: dismissal records *)

Section DismissalRecords.
Import Offline Cache.

Lemma append_inj_r (s a b : string) : s +:+ a = s +:+ b -> a = b.
Proof. induction s as [|c s IH]; cbn; [done|]. intros [= H]. by apply IH. Qed.

Lemma dismissed_key_date type id time d1 d2 :
  dismissed_key type id time d1 = dismissed_key type id time d2 -> d1 = d2.
Proof.
  unfold dismissed_key. intros H.
  by repeat (apply append_inj_r in H).
Qed.

(** X13. The life of a dismissal record. Once [markDismissed] has run,
    [isDismissed] answers yes for the same kind, id and minute on the same
    day, and its answer for any other day is what it was before. The
    purge of the same day keeps the record; the purge of any other day,
    earlier or later, removes it. Without a database nothing is
    remembered. *)
Theorem dismissal_record_lifetime (today other : string) (ms : Z) (type : string)
    (id : Z) (time : string) (db : OfflineDB) :
  other <> today ->
  let off := markDismissed today ms type id time (Some db) in
  isDismissed today type id time off = true
  /\ isDismissed other type id time off = isDismissed other type id time (Some db)
  /\ isDismissed today type id time (clearExpiredDismissals today off) = true
  /\ isDismissed today type id time (clearExpiredDismissals other off) = false
  /\ isDismissed today type id time (markDismissed today ms type id time None) = false.
Proof.
  intros Hother off. subst off. cbn. rewrite !sweep_is_filter.
  repeat split.
  - apply bool_decide_eq_true_2. rewrite lookup_insert_eq. by eexists.
  - rewrite lookup_insert_ne; [done|].
    intros H. apply dismissed_key_date in H. congruence.
  - apply bool_decide_eq_true_2. eexists. apply map_lookup_filter_Some.
    split; [apply lookup_insert_eq|done].
  - apply bool_decide_eq_false_2. intros [r Hr].
    apply map_lookup_filter_Some in Hr as [Hr Hd].
    rewrite lookup_insert_eq in Hr. injection Hr as <-. cbn in Hd. congruence.
Qed.

Lemma elem_of_todays_records today (store : gmap string DismissedRecord) r :
  r ∈ todays_records today store
  <-> exists k, store !! k = Some r /\ rec_date r = today.
Proof.
  unfold todays_records. rewrite list_elem_of_fmap. split.
  - intros ([k y] & -> & Hin). rewrite merge_sort_Permutation in Hin.
    apply elem_of_map_to_list, map_lookup_filter_Some in Hin. by exists k.
  - intros (k & Hk & Hd). exists (k, r). split; [done|].
    rewrite merge_sort_Permutation.
    by apply elem_of_map_to_list, map_lookup_filter_Some.
Qed.

Lemma empty_dismissals_lookup type :
  empty_dismissals !! type = if bool_decide (type ∈ kinds) then Some ∅ else None.
Proof.
  unfold empty_dismissals, kinds.
  destruct (decide (type = "meeting")) as [->|H1]; [done|].
  rewrite lookup_insert_ne by done.
  destruct (decide (type = "medicine")) as [->|H2]; [done|].
  rewrite lookup_insert_ne by done.
  destruct (decide (type = "alarm")) as [->|H3]; [done|].
  rewrite lookup_insert_ne by done. rewrite lookup_empty.
  rewrite bool_decide_eq_false_2; [done|]. set_solver.
Qed.

(** What the loop of [getTodayDismissals] has collected after [records]. *)
Lemma collected (records : list DismissedRecord) type :
  foldl add_dismissal empty_dismissals records !! type
  = if bool_decide (type ∈ kinds)
    then Some (foldl (fun typeMap r => <[rec_id r := rec_time r]> typeMap) ∅
                 (filter (fun r => rec_type r = type) records))
    else None.
Proof.
  induction records as [|r records IH] using rev_ind.
  - apply empty_dismissals_lookup.
  - rewrite foldl_app, filter_app. cbn [foldl]. unfold add_dismissal at 1.
    destruct (decide (rec_type r = type)) as [Ht|Ht].
    + subst type. rewrite IH. rewrite filter_cons, decide_True by done.
      cbn [filter list_filter]. case_bool_decide as Hk.
      * rewrite lookup_insert_eq. by rewrite foldl_app.
      * by rewrite IH.
    + rewrite filter_cons, decide_False by done. cbn [filter list_filter].
      rewrite app_nil_r.
      destruct (foldl add_dismissal empty_dismissals records !! rec_type r);
        [by rewrite lookup_insert_ne|done].
Qed.

Lemma last_write (records : list DismissedRecord) (id : Z) :
  foldl (fun typeMap r => <[rec_id r := rec_time r]> typeMap) (∅ : gmap Z string)
    records !! id
  = rec_time <$> last (filter (fun r => rec_id r = id) records).
Proof.
  induction records as [|r records IH] using rev_ind; [done|].
  rewrite foldl_app, filter_app. cbn [foldl].
  destruct (decide (rec_id r = id)) as [Hi|Hi].
  - rewrite filter_cons, decide_True by done. cbn [filter list_filter].
    rewrite last_snoc. subst id. by rewrite lookup_insert_eq.
  - rewrite filter_cons, decide_False by done. cbn [filter list_filter].
    rewrite app_nil_r. by rewrite lookup_insert_ne.
Qed.

Lemma restored today (db : OfflineDB) type id :
  (getTodayDismissals today (Some db) !! type) ≫= (fun typeMap => typeMap !! id)
  = if bool_decide (type ∈ kinds)
    then rec_time
           <$> last (filter (fun r => rec_id r = id)
                       (filter (fun r => rec_type r = type)
                          (todays_records today (store_dismissed db))))
    else None.
Proof.
  cbn [getTodayDismissals]. rewrite collected.
  case_bool_decide; [|done]. cbn. apply last_write.
Qed.

(** X14. What [getTodayDismissals] restores. Its records are those dated
    today. Only the kinds alarm, medicine and meeting have a map; a record
    of another kind is skipped. For a kind and an id the restored minute
    is the one of the last record of that kind and id among today's, in
    the order of their keys: when an item was dismissed in several minutes
    of the day, only one of them is restored. *)
Theorem restored_dismissals today (db : OfflineDB) type id :
  let records := todays_records today (store_dismissed db) in
  (forall r, r ∈ records
             <-> exists k, store_dismissed db !! k = Some r /\ rec_date r = today)
  /\ (getTodayDismissals today (Some db) !! type) ≫= (fun typeMap => typeMap !! id)
     = if bool_decide (type ∈ ["alarm"; "medicine"; "meeting"])
       then rec_time
              <$> last (filter (fun r => rec_id r = id)
                          (filter (fun r => rec_type r = type) records))
       else None.
Proof.
  intros records. split; [intros r; apply elem_of_todays_records|].
  apply restored.
Qed.

End DismissalRecords.

(** ** The handler: mounting after a reload *)

Section Reload.
Import Offline Cache Client Handler.

Lemma kindName_inj k k' : kindName k = kindName k' -> k = k'.
Proof. by destruct k, k'. Qed.

Lemma kindName_kinds k : kindName k ∈ kinds.
Proof. destruct k; unfold kinds; set_solver. Qed.

Lemma load_dismissals_of dismissals k k' st :
  dismissed_of k (load_dismissals dismissals k' st)
  = if decide (k = k') then
      match dismissals !! kindName k with
      | Some m => if (0 <? size m)%nat then m else dismissed_of k st
      | None => dismissed_of k st
      end
    else dismissed_of k st.
Proof.
  unfold load_dismissals. case_decide as Hk.
  - subst k'. destruct (dismissals !! kindName k) as [m|]; [|done].
    destruct (0 <? size m)%nat; [|done]. by destruct k.
  - destruct (dismissals !! kindName k') as [m|]; [|done].
    destruct (0 <? size m)%nat; [|done]. by destruct k, k'.
Qed.

(** The dismissed map of a kind after the mount effect. *)
Lemma on_mount_dismissed today k st :
  dismissed_of k (on_mount today st)
  = match getTodayDismissals today (clearExpiredDismissals today (offline st))
          !! kindName k with
    | Some m => if (0 <? size m)%nat then m else dismissed_of k st
    | None => dismissed_of k st
    end.
Proof.
  unfold on_mount. rewrite !load_dismissals_of.
  destruct k; repeat case_decide; try done;
    repeat match goal with
           | |- context [match ?d !! ?key with _ => _ end] =>
               destruct (d !! key) as [?|]
           | |- context [(0 <? size ?m)%nat] => destruct (0 <? size m)%nat
           end; done.
Qed.

(** X15. A dismissal survives a reload of the page. After [dismissAlarm]
    with a database open, a reload and the mount effect on the same day
    restore the entry of the dismissed item, provided no record of the
    same item from another minute of the day is left in the cache; polls
    in the minute of the dismissal then do not present the item again. *)
Theorem dismissal_survives_reload (st : State) (p : ActiveAlarmData) (clock : Clock)
    (db : OfflineDB) (inputs : list PollInput) :
  isProcessing st = false ->
  activeAlarmPopup st = Some p ->
  offline st = Some db ->
  (forall k r, store_dismissed db !! k = Some r ->
               rec_date r = currentDate clock ->
               rec_type r = kindName (popup_type p) -> rec_id r = popup_id p ->
               rec_time r = currentTime clock) ->
  Forall (fun input => currentTime (poll_clock input) = currentTime clock) inputs ->
  let st1 := on_mount (currentDate clock) (reload (dismissAlarm clock st)) in
  presented st1 = []
  /\ dismissed_of (popup_type p) st1 !! popup_id p = Some (currentTime clock)
  /\ shown (popup_type p) (popup_id p) (polls inputs st1) = [].
Proof.
  intros Hproc Hpopup Hoff Hrecords Hminute st1.
  destruct (dismissAlarm_popup clock st p Hproc Hpopup) as (_ & _ & _ & Hoff' & _).
  rewrite Hoff in Hoff'. cbn [markDismissed] in Hoff'.
  set (record := {| rec_key := dismissed_key (kindName (popup_type p)) (popup_id p)
                                 (currentTime clock) (currentDate clock);
                    rec_type := kindName (popup_type p); rec_id := popup_id p;
                    rec_time := currentTime clock; rec_date := currentDate clock;
                    rec_dismissedAt := clk_ms clock |}) in *.
  assert (presented st1 = []) as Hpres.
  { subst st1. unfold on_mount, load_dismissals.
    repeat match goal with
           | |- context [match ?d !! ?key with _ => _ end] =>
               destruct (d !! key) as [?|]
           | |- context [(0 <? size ?m)%nat] => destruct (0 <? size m)%nat
           end; done. }
  assert (dismissed_of (popup_type p) st1 !! popup_id p = Some (currentTime clock))
    as Hdis.
  { subst st1. rewrite on_mount_dismissed.
    change (offline (reload (dismissAlarm clock st))) with (offline (dismissAlarm clock st)).
    rewrite Hoff'. cbn [clearExpiredDismissals].
    match goal with
    | |- context [getTodayDismissals ?today (Some ?d)] =>
        pose proof (restored today d (kindName (popup_type p)) (popup_id p)) as Hres;
        remember (getTodayDismissals today (Some d)) as dismissals eqn:Heq; clear Heq
    end.
    rewrite bool_decide_eq_true_2 in Hres by apply kindName_kinds.
    cbn [store_dismissed with_dismissed] in Hres. rewrite sweep_is_filter in Hres.
    match type of Hres with
    | _ = rec_time <$> last ?l =>
        assert (record ∈ l) as Hin;
        [|assert (forall r, r ∈ l -> rec_time r = currentTime clock) as Hall]
    end.
    - apply list_elem_of_filter. split; [done|].
      apply list_elem_of_filter. split; [done|].
      apply elem_of_todays_records. exists (rec_key record).
      split; [|done]. apply map_lookup_filter_Some. split; [|done].
      apply lookup_insert_eq.
    - intros r Hr. apply list_elem_of_filter in Hr as [Hid Hr].
      apply list_elem_of_filter in Hr as [Hty Hr].
      apply elem_of_todays_records in Hr as (k & Hk & Hd).
      apply map_lookup_filter_Some in Hk as [Hk _].
      destruct (decide (k = rec_key record)) as [->|Hne].
      + rewrite lookup_insert_eq in Hk. by injection Hk as <-.
      + rewrite lookup_insert_ne in Hk by done. by eapply Hrecords.
    - match type of Hres with
      | _ = rec_time <$> last ?l => destruct (last l) as [r|] eqn:Hlast
      end.
      + assert (rec_time r = currentTime clock) as Ht.
        { apply Hall. apply last_Some in Hlast as [l' ->]. set_solver. }
        cbn in Hres. rewrite Ht in Hres.
        destruct (dismissals !! kindName (popup_type p)) as [m|]; [|done].
        cbn in Hres. destruct (0 <? size m)%nat eqn:Hsize; [done|].
        apply Nat.ltb_ge in Hsize.
        assert (size m = 0%nat) as Hz by lia. apply map_size_empty_inv in Hz.
        subst m. by rewrite lookup_empty in Hres.
      + apply last_None in Hlast. rewrite Hlast in Hin. by apply elem_of_nil in Hin. }
  split; [done|]. split; [done|].
  destruct (polls_suppressed (popup_type p) (popup_id p) (currentTime clock)
              inputs st1 Hminute Hdis) as [-> _].
  unfold shown. by rewrite Hpres.
Qed.

End Reload.

(** ** The handler: cached lists, snooze timers, deep links *)

Section HandlerProperties.
Import Offline Cache Client Handler.
Variable t : Translations.

Lemma cache_effects_meetings (d : Data) (db : OfflineDB) :
  exists db',
    cache_effects d (Some db) = Some db'
    /\ store_meetings db'
       = match live_meetings d with
         | [] => store_meetings db
         | _ :: _ => putAll meeting_id (live_meetings d)
         end.
Proof.
  unfold cache_effects.
  destruct (live_alarms d) as [[|a la]|], (live_medicines d) as [[|m lm]|],
    (live_meetings d) as [|mt lmt]; cbn; eexists; (split; [reflexivity|done]).
Qed.

(** X16. Meetings that were once listed keep being polled after the list
    has become empty. A non-empty list of meetings with distinct ids is
    used as it is and written to the cache; when the next result is the
    empty list, the cache is left as it was and the handler falls back to
    it: its effective list holds the meetings of the earlier result. *)
Theorem emptied_meeting_list_falls_back (l : list Meeting) (a1 a2 : option (list Alarm))
    (m1 m2 : option (list Medicine)) (d : Data) (db : OfflineDB) :
  l <> [] -> NoDup (meeting_id <$> l) ->
  let r1 := on_data a1 m1 l d (Some db) in
  let r2 := on_data a2 m2 [] r1.1 r1.2 in
  effectiveMeetings r1.1 = l
  /\ getCachedMeetings r2.2 = getCachedMeetings r1.2
  /\ effectiveMeetings r2.1 ≡ₚ l.
Proof.
  intros Hne Hnd r1 r2. destruct l as [|mt l]; [done|].
  split; [done|]. subst r2 r1. unfold on_data. cbn [fst snd].
  match goal with
  | |- context [cache_effects ?d1 (Some db)] =>
      destruct (cache_effects_meetings d1 db) as (db1 & Heq1 & Hst1);
      rewrite Heq1
  end.
  cbn [live_meetings] in Hst1.
  match goal with
  | |- context [cache_effects ?d2 (Some db1)] =>
      destruct (cache_effects_meetings d2 db1) as (db2 & Heq2 & Hst2);
      rewrite Heq2
  end.
  cbn [live_meetings] in Hst2.
  unfold effectiveMeetings, fallback_effects. cbn. rewrite Hst2. split; [done|].
  rewrite Hst1. by apply getAll_putAll_perm.
Qed.

Lemma triggerAlarm_fresh ms item type d st :
  lastTriggered st !! dedupKey type (item_id item) = None ->
  triggerAlarm ms item type d st
  = set_popup (Some (popup_of item type d))
      (set_refs (<[dedupKey type (item_id item) := ms]> (lastTriggered st))
         (isProcessing st) (offline st) (requests st)
         (presented st ++ [popup_of item type d]) st).
Proof. intros Hnone. unfold triggerAlarm, isDedupBlocked. by rewrite Hnone. Qed.

Lemma find_id {A} (key : A -> Z) (id : Z) (l : list A) (x : A) :
  List.find (fun a => bool_decide (key a = id)) l = Some x -> key x = id.
Proof.
  intros H. apply find_some in H as [_ H]. by apply bool_decide_eq_true_1 in H.
Qed.

Lemma push_id_snooze (p : ActiveAlarmData) : push_id (snooze_data p) = popup_id p.
Proof.
  unfold push_id, snooze_data. cbn. destruct (popup_id p =? 0) eqn:E; [|done].
  apply Z.eqb_eq in E. by rewrite E.
Qed.

Lemma push_kind_snooze (p : ActiveAlarmData) : push_kind (snooze_data p) = popup_type p.
Proof. unfold push_kind, snooze_data. cbn. by destruct (popup_type p). Qed.

(** The popup the callback of a snooze timer opens. *)
Lemma snooze_callback_popup ms (timer : SnoozeTimer) (st : State) :
  let p := snz_alarmData timer in
  exists q,
    snooze_callback t ms timer st
    = set_popup (Some q)
        (set_refs (<[dedupKey (popup_type p) (popup_id p) := ms]> (lastTriggered st))
           (isProcessing st) (offline st) (requests st) (presented st ++ [q]) st)
    /\ popup_type q = popup_type p /\ popup_id q = popup_id p
    /\ (popup_type p <> KAlarm ->
        forall m, List.find (fun m => bool_decide (med_id m = popup_id p))
                    (snz_medicines timer) = Some m ->
                  q = popup_of (item_of_medicine m) (popup_type p) (popup_isDateAlarm p)).
Proof.
  intros p. unfold snooze_callback. fold p.
  set (st1 := set_refs _ _ _ _ _ st).
  assert (forall item d,
            item_id item = popup_id p ->
            triggerAlarm ms item (popup_type p) d st1
            = set_popup (Some (popup_of item (popup_type p) d))
                (set_refs (<[dedupKey (popup_type p) (popup_id p) := ms]>
                             (lastTriggered st))
                   (isProcessing st) (offline st) (requests st)
                   (presented st ++ [popup_of item (popup_type p) d]) st)) as Htrig.
  { intros item d Hid. rewrite triggerAlarm_fresh.
    - rewrite Hid. subst st1. cbn. by rewrite insert_delete_eq.
    - rewrite Hid. subst st1. cbn. apply lookup_delete_eq. }
  destruct (popup_type p) eqn:Hty.
  - destruct (List.find _ (snz_alarms timer)) as [a|] eqn:Hfind;
      cbn [fmap option_fmap option_map].
    + apply (find_id alarm_id) in Hfind.
      eexists. split; [by apply Htrig|]. split; [done|]. split; [done|].
      intros H. by elim H.
    + unfold triggerFromPushData. rewrite push_kind_snooze, Hty.
      eexists. split; [apply Htrig; cbn; apply push_id_snooze|].
      split; [done|]. split; [apply push_id_snooze|]. intros H. by elim H.
  - destruct (List.find _ (snz_medicines timer)) as [m|] eqn:Hfind;
      cbn [fmap option_fmap option_map].
    + pose proof (find_id med_id _ _ _ Hfind) as Hid.
      eexists. split; [by apply Htrig|]. split; [done|]. split; [done|].
      by intros _ m' [= <-].
    + unfold triggerFromPushData. rewrite push_kind_snooze, Hty.
      eexists. split; [apply Htrig; cbn; apply push_id_snooze|].
      split; [done|]. split; [apply push_id_snooze|]. by intros _ m' [=].
  - destruct (List.find _ (snz_medicines timer)) as [m|] eqn:Hfind;
      cbn [fmap option_fmap option_map].
    + pose proof (find_id med_id _ _ _ Hfind) as Hid.
      eexists. split; [by apply Htrig|]. split; [done|]. split; [done|].
      by intros _ m' [= <-].
    + unfold triggerFromPushData. rewrite push_kind_snooze, Hty.
      eexists. split; [apply Htrig; cbn; apply push_id_snooze|].
      split; [done|]. split; [apply push_id_snooze|]. by intros _ m' [=].
Qed.

(** X17. A snooze timer that fires always brings its item back. Whatever
    the state of the coordinator then is (another popup open, the item
    triggered a second ago, a dismissal in progress), the callback opens
    one popup of the kind and id that were snoozed and stamps the dedup
    entry of the item with the time of firing; the timer is gone
    afterwards. The item is looked up among the alarms only for the kind
    alarm: a snoozed meeting comes back with the content of the medicine
    that has its id, if there is one. *)
Theorem snooze_timer_brings_item_back (ms : Z) (n : nat) (h : T) (timer : SnoozeTimer) :
  timers h !! n = Some timer ->
  let p := snz_alarmData timer in
  let h' := fire t ms n h in
  exists q,
    activeAlarmPopup (core h') = Some q
    /\ presented (core h') = presented (core h) ++ [q]
    /\ popup_type q = popup_type p /\ popup_id q = popup_id p
    /\ lastTriggered (core h') !! dedupKey (popup_type p) (popup_id p) = Some ms
    /\ timers h' !! n = None
    /\ fire t ms n h' = h'
    /\ (popup_type p = KMeeting ->
        forall m, List.find (fun m => bool_decide (med_id m = popup_id p))
                    (snz_medicines timer) = Some m ->
                  q = popup_of (item_of_medicine m) KMeeting (popup_isDateAlarm p)).
Proof.
  intros Htimer p h'. subst h'. unfold fire. rewrite Htimer.
  destruct (snooze_callback_popup ms timer (core h)) as (q & Hq & Hty & Hid & Hmed).
  fold p in Hq, Hty, Hid, Hmed.
  exists q. cbn [core timers]. rewrite Hq. cbn.
  rewrite !lookup_delete_eq, lookup_insert_eq. repeat split; try done.
  intros Hmeet m Hm. rewrite <- Hmeet. apply Hmed; [by rewrite Hmeet|done].
Qed.

(** X18. Dismissing cancels the snooze timer armed last, and only that
    one. After an item [p] has been snoozed and some other event [f] has
    happened, a dismissal clears the timer: firing it later changes
    nothing, [p] does not come back. But when a second popup [q] is
    snoozed in between, [snoozeTimeout] is overwritten: the dismissal
    clears the timer of [q], the timer of [p] stays armed and still opens
    its popup. *)
Theorem dismiss_cancels_last_snooze (clock : Clock) (ms minutes : Z)
    (alarms : list Alarm) (medicines : list Medicine) (f : State -> State)
    (h : T) (p : ActiveAlarmData) :
  isProcessing (core h) = false ->
  activeAlarmPopup (core h) = Some p ->
  let n := next_timer h in
  let h1 := lift f (lift release_processing (snoozeAlarm minutes alarms medicines h)) in
  isProcessing (core h1) = false ->
  (timers (dismiss clock h1) !! n = None
   /\ fire t ms n (dismiss clock h1) = dismiss clock h1)
  /\ (forall q, activeAlarmPopup (core h1) = Some q ->
        let h2 := lift release_processing (snoozeAlarm minutes alarms medicines h1) in
        let h3 := dismiss clock h2 in
        timers h3 !! S n = None
        /\ (exists timer, timers h3 !! n = Some timer /\ snz_alarmData timer = p)
        /\ exists r, activeAlarmPopup (core (fire t ms n h3)) = Some r
                     /\ popup_type r = popup_type p /\ popup_id r = popup_id p).
Proof.
  intros Hproc Hpopup n h1 Hproc1.
  assert (snoozeTimeout h1 = Some n
          /\ next_timer h1 = S n
          /\ exists timer, timers h1 !! n = Some timer /\ snz_alarmData timer = p)
    as (Hto & Hnext & timer & Htimer & Hdata).
  { subst h1. unfold snoozeAlarm. rewrite Hproc, Hpopup. cbn.
    repeat split. eexists. by rewrite lookup_insert_eq. }
  clearbody h1. split.
  - assert (timers (dismiss clock h1) !! n = None) as Hgone.
    { unfold dismiss. rewrite Hproc1. cbn. rewrite Hto. apply lookup_delete_eq. }
    split; [done|]. unfold fire. by rewrite Hgone.
  - intros q Hq h2 h3.
    assert (timers h3 !! S n = None /\ timers h3 !! n = Some timer) as [Hs Hn].
    { subst h3 h2. unfold dismiss, snoozeAlarm. rewrite Hproc1, Hq. cbn.
      rewrite Hnext. split; [apply lookup_delete_eq|].
      rewrite lookup_delete_ne by lia. by rewrite lookup_insert_ne by lia. }
    split; [done|]. split; [by exists timer|].
    unfold fire. rewrite Hn. cbn [core].
    destruct (snooze_callback_popup ms timer (core h3)) as (r & Hr & Hty & Hid & _).
    rewrite Hdata in Hty, Hid. exists r. by rewrite Hr.
Qed.

(** X19. A deep link is replayed once. The effect that reads the URL
    stores the trigger and raises it; when the effect runs again, the
    URL now clean, the stored trigger is removed and raised again if it
    is less than five minutes old, and a third run finds nothing. The
    replayed trigger carries the same data: when the first one reaches
    the coordinator at [at0] and opens its popup, and the replay reaches
    it at [at1] less than a minute later, the dedup gate discards the
    replay. *)
Theorem deep_link_is_replayed_once (ms0 ms1 ms2 : Z) (data : PushPayload)
    (stored : option (option PendingTrigger)) (st : State) :
  let r1 := deep_link_effect ms0 (Some data) stored in
  let r2 := deep_link_effect ms1 None r1.1 in
  let r3 := deep_link_effect ms2 None r2.1 in
  r1.2 = Some data
  /\ r2 = (None, if ms1 - ms0 <? 5 * 60 * 1000 then Some data else None)
  /\ r3 = (None, None)
  /\ (forall at0 at1 : Z,
        0 < at0 <= at1 -> at1 - at0 < 60000 ->
        lastTriggered st !! dedupKey (push_kind data) (push_id data) = None ->
        let st1 := triggerFromPushData t at0 data st in
        presented st1
        = presented st ++ [popup_of (push_item t data) (push_kind data) false]
        /\ triggerFromPushData t at1 data st1 = st1).
Proof.
  intros r1 r2 r3. split; [done|]. split.
  { subst r2 r1. cbn. by replace (ms1 - ms0 <? 300000) with (ms1 - ms0 <? 5 * 60 * 1000). }
  split.
  { subst r3 r2 r1. cbn. done. }
  intros at0 at1 Hms Hlt Hnone st1. split.
  - subst st1. unfold triggerFromPushData. by rewrite triggerAlarm_fresh.
  - subst st1. unfold triggerFromPushData.
    rewrite (triggerAlarm_fresh at0) by done.
    unfold triggerAlarm, isDedupBlocked. cbn [lastTriggered set_popup set_refs].
    rewrite lookup_insert_eq.
    replace (at0 =? 0) with false by (symmetry; apply Z.eqb_neq; lia).
    replace (at1 - at0 <? 60000) with true by (symmetry; apply Z.ltb_lt; lia).
    done.
Qed.

End HandlerProperties.

(** ** The polling loop: what it presents *)

Section PollProperties.
Import Client.

Lemma poll_as_walk (input : PollInput) (st : State) :
  poll input st
  = foldl (fun acc i => poll_step st (poll_clock input) i acc) st (poll_items input).
Proof.
  unfold poll, poll_tick, poll_items. by rewrite !foldl_app, !foldl_fmap.
Qed.

Lemma poll_popup_key now i :
  popup_type (poll_popup now i) = item_kind i
  /\ popup_id (poll_popup now i) = item_key i.
Proof. by destruct i. Qed.

(** Every [forEach] body is the shared part, or skips the item. *)
Lemma poll_step_item snap clock (i : ScheduleItem) (st : State) :
  exists (enabled matches d : bool) (item : Item),
    poll_step snap clock i st
    = (if enabled
       then poll_item snap clock (item_kind i) (item_key i) matches item d st
       else st)
    /\ client_due (clk_now clock) i = enabled && matches
    /\ popup_of item (item_kind i) d = poll_popup (clk_now clock) i.
Proof.
  destruct i as [a|m|m]; cbn [poll_step item_kind item_key client_due poll_popup].
  - exists (alarm_isActive a), (alarm_matches (clk_now clock) a),
      (Js.strict_eq (alarm_date a) (currentDate clock)), (item_of_alarm a).
    unfold poll_alarm, alarm_due. by destruct (alarm_isActive a).
  - exists true, (medicine_matches (clk_now clock) m), false, (item_of_medicine m).
    done.
  - exists (meeting_enabled m), (meeting_matches (clk_now clock) m), false,
      (item_of_meeting m).
    unfold poll_meeting, meeting_due. by destruct (meeting_enabled m).
Qed.

Lemma presented_triggerAlarm ms item type d st :
  presented (triggerAlarm ms item type d st) = presented st
  \/ presented (triggerAlarm ms item type d st) = presented st ++ [popup_of item type d].
Proof.
  unfold triggerAlarm. rewrite isDedupBlocked_admitted.
  destruct (admitted _ _ _); [by right|by left].
Qed.

Lemma presented_poll_item snap clock k id matches item d st :
  presented (poll_item snap clock k id matches item d st) = presented st
  \/ (matches = true
      /\ (id ∉ active_of k snap)
      /\ dismissed_of k snap !! id <> Some (currentTime clock)
      /\ presented (poll_item snap clock k id matches item d st)
         = presented st ++ [popup_of item k d]).
Proof.
  unfold poll_item. destruct matches.
  - case_bool_decide as Hact; cbn [negb andb]; [by left|].
    case_bool_decide as Hdis; cbn [negb]; [by left|].
    destruct (presented_triggerAlarm (clk_ms clock) item k d st) as [H|H].
    + left. by destruct k.
    + right. repeat split; try done; by destruct k.
  - left.
    repeat match goal with
           | |- context [if ?b then _ else _] => destruct b
           end; by destruct k.
Qed.

(** What one run of the callback adds to the popups. *)
Lemma poll_added (input : PollInput) (st : State) :
  let clock := poll_clock input in
  exists added,
    presented (poll input st) = presented st ++ added
    /\ Forall (fun q =>
                 exists i, i ∈ poll_items input
                           /\ client_due (clk_now clock) i = true
                           /\ q = poll_popup (clk_now clock) i
                           /\ (item_key i ∉ active_of (item_kind i) st)
                           /\ dismissed_of (item_kind i) st !! item_key i
                              <> Some (currentTime clock)) added.
Proof.
  intros clock. rewrite poll_as_walk. fold clock.
  apply (foldl_invariant
           (fun acc =>
              exists added,
                presented acc = presented st ++ added
                /\ Forall (fun q =>
                             exists i, i ∈ poll_items input
                                       /\ client_due (clk_now clock) i = true
                                       /\ q = poll_popup (clk_now clock) i
                                       /\ (item_key i ∉ active_of (item_kind i) st)
                                       /\ dismissed_of (item_kind i) st !! item_key i
                                          <> Some (currentTime clock)) added)).
  - intros acc i Hi (added & Hacc & Hall).
    destruct (poll_step_item st clock i acc)
      as (enabled & matches & d & item & -> & Hdue & Hpop).
    destruct enabled; [|by exists added].
    destruct (presented_poll_item st clock (item_kind i) (item_key i) matches item d acc)
      as [->|(Hm & Hact & Hdis & ->)]; [by exists added|].
    exists (added ++ [poll_popup (clk_now clock) i]).
    rewrite Hacc, Hpop, app_assoc. split; [done|].
    apply Forall_app. split; [done|]. apply Forall_singleton.
    exists i. rewrite Hdue, Hm. done.
  - exists []. by rewrite app_nil_r.
Qed.

Lemma poll_shown_gated k id (input : PollInput) (st : State) :
  id ∈ active_of k st
  \/ dismissed_of k st !! id = Some (currentTime (poll_clock input)) ->
  shown k id (poll input st) = shown k id st.
Proof.
  intros Hgate. destruct (poll_added input st) as (added & Hadd & Hall).
  unfold shown. rewrite Hadd, filter_app.
  assert (filter (fun p => popup_type p = k /\ popup_id p = id) added = []) as ->;
    [|by rewrite app_nil_r].
  clear Hadd.
  induction Hall as [|q added (i & _ & _ & -> & Hact & Hdis) _ IH]; [done|].
  rewrite filter_cons, decide_False; [exact IH|].
  destruct (poll_popup_key (clk_now (poll_clock input)) i) as [-> ->].
  intros [<- <-]. by destruct Hgate.
Qed.

(** X20. The polling loop presents nothing but due items of its lists.
    The popups one run of the callback opens are popups of listed items
    whose test holds at the clock, which were not in the active set of
    their kind and not dismissed in this minute when the run began. So an
    item that is marked active, or was dismissed in the current minute,
    gets no popup from a run. *)
Theorem poll_presents_only_due_items (input : PollInput) (st : State) :
  let clock := poll_clock input in
  (exists added,
    presented (poll input st) = presented st ++ added
    /\ Forall (fun q =>
                 exists i, i ∈ poll_items input
                           /\ client_due (clk_now clock) i = true
                           /\ q = poll_popup (clk_now clock) i
                           /\ (item_key i ∉ active_of (item_kind i) st)
                           /\ dismissed_of (item_kind i) st !! item_key i
                              <> Some (currentTime clock)) added)
  /\ forall k id,
       id ∈ active_of k st \/ dismissed_of k st !! id = Some (currentTime clock) ->
       shown k id (poll input st) = shown k id st.
Proof.
  intros clock. split; [apply poll_added|].
  intros k id. apply poll_shown_gated.
Qed.

Lemma active_triggerAlarm k ms item type d st :
  active_of k (triggerAlarm ms item type d st) = active_of k st.
Proof.
  unfold triggerAlarm. destruct (isDedupBlocked _ _ _ _) as [[|] last]; [done|].
  by destruct k.
Qed.

Lemma active_set_active k k' f st :
  active_of k (set_active k' f st)
  = if decide (k' = k) then f (active_of k st) else active_of k st.
Proof. by destruct k, k'. Qed.

Lemma active_set_dismissed k k' f st :
  active_of k (set_dismissed k' f st) = active_of k st.
Proof. by destruct k. Qed.

(** The active set of a kind across the shared part. *)
Lemma active_poll_item k x snap clock type id matches item d st :
  (x ∈ active_of k st -> (type = k /\ id = x -> matches = true) ->
   x ∈ active_of k (poll_item snap clock type id matches item d st))
  /\ (type = k -> id = x -> matches = true ->
      x ∉ active_of k snap ->
      dismissed_of k snap !! x <> Some (currentTime clock) ->
      x ∈ active_of k (poll_item snap clock type id matches item d st)).
Proof.
  unfold poll_item. split.
  - intros Hx Hm. destruct matches.
    + destruct (negb _ && negb _); [|done].
      rewrite active_set_active, active_triggerAlarm. case_decide; set_solver.
    + assert (~ (type = k /\ id = x)) as Hne by (intros H; by apply Hm in H).
      assert (x ∈ active_of k
                    (if bool_decide (id ∈ active_of type snap)
                        && negb (bool_decide (is_Some (activeAlarmPopup snap)))
                     then set_active type (fun prev => prev ∖ {[id]}) st else st))
        as Hx'.
      { destruct (_ && _); [|done]. rewrite active_set_active.
        case_decide as Hk; [|done]. apply elem_of_difference. split; [done|].
        intros Hid%elem_of_singleton. by apply Hne. }
      destruct (_ && _) in |- *; [|done]. by rewrite active_set_dismissed.
  - intros -> -> -> Hact Hdis.
    rewrite bool_decide_eq_false_2 by done.
    rewrite (bool_decide_eq_false_2 _ Hdis). cbn [negb andb].
    rewrite active_set_active, active_triggerAlarm, decide_True by done.
    set_solver.
Qed.

Lemma active_poll_step k x snap clock (i : ScheduleItem) (st : State) :
  (item_kind i = k -> item_key i = x -> client_due (clk_now clock) i = true) ->
  (x ∈ active_of k st -> x ∈ active_of k (poll_step snap clock i st))
  /\ (item_kind i = k -> item_key i = x ->
      x ∉ active_of k snap ->
      dismissed_of k snap !! x <> Some (currentTime clock) ->
      x ∈ active_of k (poll_step snap clock i st)).
Proof.
  intros Hdue.
  destruct (poll_step_item snap clock i st)
    as (enabled & matches & d & item & -> & Hd & _).
  rewrite Hd in Hdue.
  destruct (active_poll_item k x snap clock (item_kind i) (item_key i)
              matches item d st) as [Hkeep Hadd].
  split.
  - intros Hx. destruct enabled; [|done]. apply Hkeep; [done|].
    intros [Hk Hi]. by apply Hdue.
  - intros Hk Hi Hact Hdis. specialize (Hdue Hk Hi).
    apply andb_prop in Hdue as [-> ->]. by apply Hadd.
Qed.

(** X21. An item is presented at most once while it stays due. After a
    run of the callback in which a listed item is due and was not
    dismissed in this minute, the item is in the active set of its kind,
    provided every listed item of its kind and id is due; whatever the
    lists and the clock of the next run are, that run opens no popup for
    it. *)
Theorem due_item_is_presented_once (input input2 : PollInput) (st : State)
    (i : ScheduleItem) :
  let clock := poll_clock input in
  i ∈ poll_items input ->
  (forall j, j ∈ poll_items input ->
             item_kind j = item_kind i -> item_key j = item_key i ->
             client_due (clk_now clock) j = true) ->
  dismissed_of (item_kind i) st !! item_key i <> Some (currentTime clock) ->
  let st1 := poll input st in
  item_key i ∈ active_of (item_kind i) st1
  /\ shown (item_kind i) (item_key i) (poll input2 st1)
     = shown (item_kind i) (item_key i) st1.
Proof.
  intros clock Hin Hdue Hdis st1.
  assert (item_key i ∈ active_of (item_kind i) st1) as Hact;
    [|split; [done|apply poll_shown_gated; by left]].
  subst st1. rewrite poll_as_walk. fold clock.
  assert (forall l acc,
            (forall j, j ∈ l -> j ∈ poll_items input) ->
            item_key i ∈ active_of (item_kind i) acc ->
            item_key i
            ∈ active_of (item_kind i)
                (foldl (fun acc j => poll_step st clock j acc) acc l)) as Hkeep.
  { induction l as [|j l IH]; intros acc Hl Hacc; [done|].
    cbn [foldl]. apply IH; [intros j' Hj'; apply Hl; by right|].
    destruct (active_poll_step (item_kind i) (item_key i) st clock j acc)
      as [Hstep _]; [|by apply Hstep].
    intros Hk Hi. apply Hdue; [apply Hl; left|done|done]. }
  destruct (decide (item_key i ∈ active_of (item_kind i) st)) as [Hinit|Hinit].
  - by apply Hkeep.
  - apply list_elem_of_split in Hin as (l1 & l2 & Hsplit).
    rewrite Hsplit, foldl_app. cbn [foldl].
    apply Hkeep.
    + intros j Hj. rewrite Hsplit. set_solver.
    + destruct (active_poll_step (item_kind i) (item_key i) st clock i
                  (foldl (fun acc j => poll_step st clock j acc) st l1))
        as [_ Hstep]; [|by apply Hstep].
      intros _ _. apply Hdue; [rewrite Hsplit; set_solver|done|done].
Qed.

End PollProperties.

(** ** From the registry to the dispatcher *)

Section RegistryToDispatch.
Import Server Registry.
Variable env : Env.
Variable rejects : Statement -> bool.
Hypothesis accepts : forall op, db_rejects env op = false.

Lemma attempts_of userId payload (w : World) (s : PushSubscription) :
  w_attempts w = [] ->
  (s, payload) ∈ w_attempts (sendPushNotification env userId payload w).1
  <-> s ∈ pushSubscriptions (w_db w) /\ sub_userId s = userId.
Proof.
  intros Hnone. rewrite dispatch_run by done. cbn [fst w_attempts].
  rewrite Hnone, app_nil_l, list_elem_of_fmap. split.
  - intros (s' & [= <-] & Hin). apply list_elem_of_filter in Hin. tauto.
  - intros [Hin Hu]. exists s. split; [done|]. by apply list_elem_of_filter.
Qed.

(** X22. A registration decides who is reached on an endpoint. After
    [savePushSubscription] for a user has succeeded, a dispatch to that
    user attempts the endpoint, with the keys just registered; a dispatch
    to any other user does not attempt it, even if the endpoint was that
    user's before. *)
Theorem registration_moves_endpoint serial userId endpoint p256dh auth fs
    (db db' : Database) payload (w : World) :
  savePushSubscription rejects serial userId endpoint p256dh auth fs db = inr db' ->
  w_db w = db' -> w_attempts w = [] ->
  (exists s, (s, payload) ∈ w_attempts (sendPushNotification env userId payload w).1
             /\ sub_endpoint s = endpoint
             /\ sub_p256dh s = p256dh /\ sub_auth s = auth)
  /\ (forall other s,
        other <> userId ->
        (s, payload) ∈ w_attempts (sendPushNotification env other payload w).1 ->
        sub_endpoint s <> endpoint).
Proof.
  intros Hsave Hdb Hnone.
  destruct (save_success rejects _ _ _ _ _ _ _ _ Hsave) as ((s & Hin & He) & Hrow & _).
  destruct (Hrow s Hin He) as (Hu & Hp & Ha & _). split.
  - exists s. split; [|done]. apply attempts_of; [done|]. by rewrite Hdb.
  - intros other s' Hother Hatt He'.
    apply attempts_of in Hatt as [Hin' Hu']; [|done]. rewrite Hdb in Hin'.
    destruct (Hrow s' Hin' He') as (Hu'' & _). congruence.
Qed.

(** X23. The handler of POST /api/push/unsubscribe checks no authentication and no
    owner: whoever names an endpoint removes its rows. When the route
    answers 200 for a non-empty endpoint, no later dispatch, to any user,
    attempts that endpoint, and the rows of all other endpoints are as
    before; without an endpoint in the body it answers 200 and changes
    nothing, and when it answers 500 nothing has changed either. *)
Theorem unsubscribe_route_removes_endpoint (endpoint : option string) (db : Database) :
  let result := unsubscribe_route rejects endpoint db in
  (result.1 = 200 \/ result.1 = 500)
  /\ (result.1 = 500 -> result.2 = db)
  /\ (Js.truthy endpoint = false -> result = (200, db))
  /\ (forall e, endpoint = Some e -> e <> "" -> result.1 = 200 ->
        filter (fun s => sub_endpoint s <> e) (pushSubscriptions result.2)
        = filter (fun s => sub_endpoint s <> e) (pushSubscriptions db)
        /\ same_schedule db result.2
        /\ forall userId payload (w : World) s,
             w_db w = result.2 -> w_attempts w = [] ->
             (s, payload) ∈ w_attempts (sendPushNotification env userId payload w).1 ->
             sub_endpoint s <> e).
Proof.
  intros result. subst result. unfold unsubscribe_route, removePushSubscription.
  destruct (Js.truthy endpoint) eqn:Htruthy.
  - destruct endpoint as [e|]; [|done]. change (default "" (Some e)) with e.
    destruct (rejects (DeleteByEndpoint e)); cbn [fst snd].
    + split; [by right|]. split; [done|]. split; [done|]. by intros e' _ _ [=].
    + split; [by left|]. split; [done|]. split; [done|].
      intros e' [= <-] Hne _. split; [|split; [done|]].
      * cbn. apply list_filter_filter_l. tauto.
      * intros userId payload w s Hdb Hnone Hatt.
        apply attempts_of in Hatt as [Hin _]; [|done]. rewrite Hdb in Hin.
        cbn in Hin. by apply list_elem_of_filter in Hin as [? _].
  - cbn [fst snd]. split; [by left|]. split; [done|]. split; [done|].
    intros e -> Hne _. cbn in Htruthy.
    apply negb_false_iff, String.eqb_eq in Htruthy. done.
Qed.

End RegistryToDispatch.

(** ** Native notifications *)

Section NativeProperties.
Import Native.

Lemma weekday_number_range day n : weekday_number day = Some n -> 0 <= n <= 6.
Proof.
  unfold weekday_number.
  repeat (destruct (String.eqb day _); [intros [= <-]; lia|]). done.
Qed.

Lemma dayMap_range day d : dayMap day = Some d -> 1 <= d <= 7.
Proof.
  unfold dayMap. destruct (weekday_number day) as [n|] eqn:Hn; [|done].
  intros [= <-]. apply weekday_number_range in Hn. lia.
Qed.

Lemma schedule_days_ids rejects alarmId days id w :
  Schedule (Some id) w ∈ (schedule_days rejects alarmId days).1 ->
  w = true /\ exists d, 1 <= d <= 7 /\ id = alarmId * 10 + d.
Proof.
  induction days as [|day rest IH]; cbn [schedule_days]; [by intros ?%elem_of_nil|].
  assert (Schedule ((fun d => alarmId * 10 + d) <$> dayMap day) true = Schedule (Some id) w ->
          w = true /\ exists d, 1 <= d <= 7 /\ id = alarmId * 10 + d) as Hhead.
  { destruct (dayMap day) as [d|] eqn:Hd; [|done]. intros [= <- <-].
    split; [done|]. exists d. split; [by eapply dayMap_range|done]. }
  destruct (rejects _).
  - cbn. intros Hin%list_elem_of_singleton. by apply Hhead.
  - destruct (schedule_days rejects alarmId rest) as [calls ok]. cbn in *.
    intros [Hin|Hin]%elem_of_cons; [by apply Hhead|by apply IH].
Qed.

Lemma scheduled_ids rejects isNativeApp alarm id w :
  Schedule (Some id) w ∈ (scheduleNativeAlarm rejects isNativeApp alarm).1 ->
  (w = false /\ id = nat_id alarm)
  \/ (w = true /\ exists d, 1 <= d <= 7 /\ id = nat_id alarm * 10 + d).
Proof.
  unfold scheduleNativeAlarm. destruct isNativeApp; cbn [negb];
    [|by intros ?%elem_of_nil].
  destruct (Js.non_empty (nat_days alarm)).
  - intros Hin. right. by eapply schedule_days_ids.
  - cbn. intros [= <- <-]%list_elem_of_singleton. by left.
Qed.

(** X24. The ids of native notifications. Every notification that
    [scheduleNativeAlarm] schedules for an alarm has an id that
    [cancelNativeAlarm] of this alarm cancels. The weekly notifications
    of two alarms never share an id unless the alarms have the same id;
    but a weekly notification of alarm [a] and the one-time notification
    of alarm [b] share their id exactly when the id of [b] is ten times
    that of [a] plus a day number, and then cancelling [a] cancels the
    notification of [b] as well. Outside the native app nothing is
    scheduled or cancelled. *)
Theorem native_notification_ids rejects (a b : AlarmData) (id : Z) (wa wb : bool) :
  Schedule (Some id) wa ∈ (scheduleNativeAlarm rejects true a).1 ->
  Schedule (Some id) wb ∈ (scheduleNativeAlarm rejects true b).1 ->
  cancelNativeAlarm true (nat_id a) = [Cancel (idsToCancel (nat_id a))]
  /\ id ∈ idsToCancel (nat_id a)
  /\ (wa = wb -> nat_id a = nat_id b)
  /\ (wa = true -> wb = false ->
      nat_id a * 10 + 1 <= nat_id b <= nat_id a * 10 + 7
      /\ nat_id b ∈ idsToCancel (nat_id a))
  /\ scheduleNativeAlarm rejects false a = ([], false)
  /\ cancelNativeAlarm false (nat_id a) = [].
Proof.
  intros Ha Hb. apply scheduled_ids in Ha, Hb.
  assert (forall x d, 1 <= d <= 7 -> x * 10 + d ∈ idsToCancel x) as Hweek.
  { intros x d Hd. unfold idsToCancel. right. apply list_elem_of_fmap.
    exists d. split; [done|]. apply elem_of_seqZ. lia. }
  split; [done|]. split.
  { destruct Ha as [[_ ->]|(_ & d & Hd & ->)]; [left|by apply Hweek]. }
  split; [|split; [|done]].
  - intros <-.
    destruct Ha as [[-> ->]|(-> & d & Hd & ->)], Hb as [[? Hb]|(? & d' & Hd' & Hb)];
      try done; lia.
  - intros -> ->.
    destruct Ha as [[? _]|(_ & d & Hd & ->)]; [done|].
    destruct Hb as [[_ <-]|[? _]]; [|done]. split; [lia|by apply Hweek].
Qed.

(** The distance in days from [currentDay] to the next [targetDay], today
    counting only while the alarm's time is still ahead. *)
Lemma next_listed_day_min currentDay ahead days m :
  0 <= currentDay <= 6 -> 0 <= m <= 7 ->
  (forall day, day ∈ days -> is_Some (weekday_number day)) ->
  exists n,
    next_listed_day currentDay ahead days m = DaysAhead n
    /\ 0 <= n <= m
    /\ (n = m
        \/ exists day target,
             day ∈ days /\ weekday_number day = Some target
             /\ (currentDay + n) mod 7 = target /\ (n = 0 -> ahead = true))
    /\ forall day target k,
         day ∈ days -> weekday_number day = Some target ->
         0 <= k < n -> (currentDay + k) mod 7 = target -> k = 0 /\ ahead = false.
Proof.
  intros Hcur. revert m. induction days as [|day rest IH]; intros m Hm Hknown.
  - exists m. cbn. split; [done|]. split; [lia|]. split; [by left|].
    by intros day target k ?%elem_of_nil.
  - cbn [next_listed_day].
    destruct (weekday_number day) as [target|] eqn:Htarget;
      [|destruct (Hknown day) as [? ?]; [left|congruence]].
    pose proof (weekday_number_range _ _ Htarget) as Hrange.
    set (raw := target - currentDay).
    set (wrapped := if raw <? 0 then raw + 7 else raw).
    assert (0 <= wrapped <= 6 /\ (currentDay + wrapped) mod 7 = target) as [Hw Hmod].
    { subst wrapped raw. destruct (target - currentDay <? 0) eqn:E.
      - apply Z.ltb_lt in E. split; [lia|].
        replace (currentDay + (target - currentDay + 7)) with (target + 1 * 7) by lia.
        rewrite Z.mod_add by lia. apply Z.mod_small. lia.
      - apply Z.ltb_ge in E. split; [lia|].
        replace (currentDay + (target - currentDay)) with target by lia.
        apply Z.mod_small. lia. }
    assert (forall k, 0 <= k < 7 -> (currentDay + k) mod 7 = target -> k = wrapped)
      as Huniq.
    { intros k Hk Hkm. rewrite <- Hmod in Hkm.
      destruct (Z.le_gt_cases 7 (currentDay + k)), (Z.le_gt_cases 7 (currentDay + wrapped)).
      - replace (currentDay + k) with (currentDay + k - 7 + 1 * 7) in Hkm by lia.
        replace (currentDay + wrapped) with (currentDay + wrapped - 7 + 1 * 7) in Hkm by lia.
        rewrite !Z.mod_add, !Z.mod_small in Hkm by lia. lia.
      - replace (currentDay + k) with (currentDay + k - 7 + 1 * 7) in Hkm by lia.
        rewrite Z.mod_add, !Z.mod_small in Hkm by lia. lia.
      - replace (currentDay + wrapped) with (currentDay + wrapped - 7 + 1 * 7) in Hkm by lia.
        rewrite Z.mod_add, !Z.mod_small in Hkm by lia. lia.
      - rewrite !Z.mod_small in Hkm by lia. lia. }
    destruct (wrapped =? 0) eqn:Hzero; cbn [andb].
    + apply Z.eqb_eq in Hzero. destruct ahead.
      * exists 0. split; [done|]. split; [lia|]. split; [|intros; lia].
        right. exists day, target. rewrite Hzero in Hmod. set_solver.
      * destruct (IH (if 7 <? m then 7 else m)) as (n & -> & Hn & Hwit & Hnear).
        { destruct (7 <? m); lia. }
        { intros d Hd. apply Hknown. by right. }
        assert ((if 7 <? m then 7 else m) = m) as Hmm
          by (destruct (7 <? m) eqn:E; [apply Z.ltb_lt in E; lia|done]).
        rewrite Hmm in Hn, Hwit. exists n. split; [done|]. split; [done|]. split.
        -- destruct Hwit as [?|(d & tg & Hd & ? & ? & ?)]; [by left|].
           right. exists d, tg. set_solver.
        -- intros d tg k [->|Hd]%elem_of_cons Htg Hk Hkm; [|by eapply Hnear].
           rewrite Htarget in Htg. injection Htg as <-.
           split; [|done]. rewrite (Huniq k) by (done || lia). done.
    + apply Z.eqb_neq in Hzero.
      destruct (IH (if wrapped <? m then wrapped else m)) as (n & -> & Hn & Hwit & Hnear).
      { destruct (wrapped <? m); lia. }
      { intros d Hd. apply Hknown. by right. }
      exists n. split; [done|].
      destruct (wrapped <? m) eqn:Hlt;
        [apply Z.ltb_lt in Hlt|apply Z.ltb_ge in Hlt].
      * split; [lia|]. split.
        -- right. destruct Hwit as [->|(d & tg & Hd & ? & ? & ?)].
           ++ exists day, target. split; [left|]. split; [done|]. split; [done|lia].
           ++ exists d, tg. set_solver.
        -- intros d tg k [->|Hd]%elem_of_cons Htg Hk Hkm; [|by eapply Hnear].
           rewrite Htarget in Htg. injection Htg as <-.
           rewrite (Huniq k) in Hk by (done || lia). lia.
      * split; [lia|]. split.
        -- destruct Hwit as [?|(d & tg & Hd & ? & ? & ?)]; [by left|].
           right. exists d, tg. set_solver.
        -- intros d tg k [->|Hd]%elem_of_cons Htg Hk Hkm; [|by eapply Hnear].
           rewrite Htarget in Htg. injection Htg as <-.
           rewrite (Huniq k) in Hk by (done || lia). lia.
Qed.

(** X25. [getNextOccurrence] finds the nearest listed weekday. For an
    alarm without a date and with a non-empty list of weekday names, the
    result lies between 0 and 7 days ahead, on a weekday of the list, and
    it is today only if the alarm's time is still ahead; no listed
    weekday comes sooner, except today once its time has passed. With a
    date the result is that date, whatever the weekdays and even if it
    lies in the past. *)
Theorem next_occurrence_is_nearest currentDay ahead (days : list string) :
  0 <= currentDay <= 6 -> days <> [] ->
  (forall day, day ∈ days -> is_Some (weekday_number day)) ->
  (exists n,
    getNextOccurrence currentDay ahead (Some days) None = DaysAhead n
    /\ 0 <= n <= 7
    /\ (exists day target,
          day ∈ days /\ weekday_number day = Some target
          /\ (currentDay + n) mod 7 = target /\ (n = 0 -> ahead = true))
    /\ forall day target k,
         day ∈ days -> weekday_number day = Some target ->
         0 <= k < n -> (currentDay + k) mod 7 = target -> k = 0 /\ ahead = false)
  /\ forall specificDate, specificDate <> "" ->
       getNextOccurrence currentDay ahead (Some days) (Some specificDate)
       = OnDate specificDate.
Proof.
  intros Hcur Hne Hknown. split.
  - unfold getNextOccurrence. cbn [Js.truthy].
    destruct days as [|day rest] eqn:Hdays; [done|]. cbn [Js.non_empty default].
    rewrite <- Hdays in *. clear Hdays.
    destruct (next_listed_day_min currentDay ahead days 7 Hcur ltac:(lia) Hknown)
      as (n & Hrun & Hn & Hwit & Hnear).
    exists n. unfold id. split; [done|]. split; [done|]. split; [|done].
    destruct Hwit as [->|Hwit]; [|done].
    destruct days as [|d0 rest0]; [done|].
    destruct (Hknown d0 ltac:(left)) as [tg Htg].
    pose proof (weekday_number_range _ _ Htg) as Hrange.
    destruct (decide (tg = currentDay)) as [->|Hother].
    + exists d0, currentDay. split; [left|]. split; [done|]. split; [|lia].
      replace (currentDay + 7) with (currentDay + 1 * 7) by lia.
      rewrite Z.mod_add by lia. apply Z.mod_small. lia.
    + destruct (Hnear d0 tg (if tg <? currentDay then tg - currentDay + 7
                             else tg - currentDay)) as [Hk _]; [left|done| | |].
      * destruct (tg <? currentDay) eqn:E;
          [apply Z.ltb_lt in E|apply Z.ltb_ge in E]; lia.
      * destruct (tg <? currentDay) eqn:E;
          [apply Z.ltb_lt in E|apply Z.ltb_ge in E].
        -- replace (currentDay + (tg - currentDay + 7)) with (tg + 1 * 7) by lia.
           rewrite Z.mod_add by lia. apply Z.mod_small. lia.
        -- replace (currentDay + (tg - currentDay)) with tg by lia.
           apply Z.mod_small. lia.
      * destruct (tg <? currentDay) eqn:E;
          [apply Z.ltb_lt in E|apply Z.ltb_ge in E]; lia.
  - intros specificDate Hdate. unfold getNextOccurrence. cbn [Js.truthy].
    apply String.eqb_neq in Hdate. by rewrite Hdate.
Qed.

End NativeProperties.

(** ** The further properties on concrete data *)

(** X1 at a new endpoint of user "u2": a fourth row is added. *)
Lemma save_is_upsert_witness :
  let db := Examples.db_abc in
  exists db',
    Registry.savePushSubscription Scenarios.db_up 5 "u2" "https://push.example/E"
      "key" "secret" None db = inr db'
    /\ length (pushSubscriptions db') = 4%nat.
Proof.
  intros db. eexists. split; [vm_compute; reflexivity|].
  match goal with
  | |- length (pushSubscriptions ?d) = _ =>
      destruct (save_is_upsert Scenarios.db_up 5 "u2" "https://push.example/E"
                  "key" "secret" None db) as [Hok _];
      destruct (Hok d) as (_ & _ & _ & Hlen & _); [vm_compute; reflexivity|exact Hlen]
  end.
Defined.

(** X2 on the same registration: endpoints and ids stay distinct. *)
Lemma save_keeps_keys_unique_witness :
  let db := Examples.db_abc in
  exists db',
    Registry.savePushSubscription Scenarios.db_up 5 "u2" "https://push.example/E"
      "key" "secret" None db = inr db'
    /\ NoDup (sub_endpoint <$> pushSubscriptions db')
    /\ NoDup (sub_id <$> pushSubscriptions db').
Proof.
  intros db. eexists. split; [vm_compute; reflexivity|].
  match goal with
  | |- NoDup (sub_endpoint <$> pushSubscriptions ?d) /\ _ =>
      destruct (save_keeps_keys_unique Scenarios.db_up 5 "u2" "https://push.example/E"
                  "key" "secret" None db d) as [He Hi]
  end.
  - vm_compute. reflexivity.
  - compute_done.
  - split; [apply He|apply Hi]; compute_done.
Defined.


(** X4: registering endpoint E and unsubscribing it gives back the table. *)
Lemma remove_after_save_witness :
  let db := Examples.db_abc in
  exists db',
    Registry.savePushSubscription Scenarios.db_up 5 "u2" "https://push.example/E"
      "key" "secret" None db = inr db'
    /\ Registry.removePushSubscription Scenarios.db_up "https://push.example/E" db'
       = inr db.
Proof.
  intros db. eexists. split; [vm_compute; reflexivity|].
  match goal with
  | |- Registry.removePushSubscription _ _ ?d = _ =>
      destruct (remove_after_save Scenarios.db_up 5 "u2" "https://push.example/E"
                  "key" "secret" None db d) as [_ Hback]
  end.
  - vm_compute. reflexivity.
  - reflexivity.
  - apply Hback. compute_done.
Defined.

(** X6 for user "u1": the second dispatch reaches A and C, B is gone. *)
Lemma dispatch_twice_witness :
  let payload := Server.alarm_payload Examples.date_alarm in
  let w := Examples.world_of Examples.db_abc in
  let r1 := Server.sendPushNotification Examples.env_abc "u1" payload w in
  let r2 := Server.sendPushNotification Examples.env_abc "u1" payload r1.1 in
  Server.w_db r2.1 = Server.w_db r1.1
  /\ Server.w_attempts r2.1
     = Server.w_attempts r1.1
       ++ [(Examples.sub_A, payload); (Examples.sub_C, payload)].
Proof.
  intros payload w r1 r2.
  destruct (dispatch_twice Examples.env_abc "u1" payload w)
    as (c1 & c2 & _ & _ & Hdb & _ & _ & Hatt).
  - compute_done.
  - reflexivity.
  - reflexivity.
  - split; [exact Hdb|]. fold r1 r2 in Hatt. rewrite Hatt. vm_compute. reflexivity.
Defined.

(** X8 on Monday 07:00 with the items of two users: four triggers. *)
Lemma tick_triggers_exactly_due_witness :
  let w := Examples.world_of Examples.db_two_users in
  triggered (Server.w_console
               (Server.checkAndSendAlarms Examples.env_abc Examples.monday_0700 w).1)
  = [(KAlarm, 1); (KAlarm, 2); (KMedicine, 1); (KMeeting, 1)].
Proof.
  intros w.
  destruct (tick_triggers_exactly_due Examples.env_abc Examples.monday_0700 w)
    as (_ & Hlog & _).
  - reflexivity.
  - rewrite Hlog. vm_compute. reflexivity.
Defined.

(** X9 at 08:30, with the subscription query of "u1" failing. *)
Lemma quiet_tick_witness :
  let w := Examples.world_of Examples.db_two_users in
  let now := Server.getCurrentTimeIST Scenarios.monday_0830 in
  Server.checkAndSendAlarms Examples.env_u1_down Scenarios.monday_0830 w
  = (tick_start now w, inr tt).
Proof.
  intros w now.
  apply (quiet_tick Examples.env_u1_down Scenarios.monday_0830 w); try reflexivity.
  apply Forall_forall. compute_done.
Defined.

(** X11 for 07:00 and 08:30: five characters each. *)
Lemma clock_rendering_witness :
  String.length (now_time (Server.getCurrentTimeIST Examples.monday_0700)) = 5%nat
  /\ Js.hhmm (now_time (Server.getCurrentTimeIST Examples.monday_0700))
     = now_time (Server.getCurrentTimeIST Examples.monday_0700).
Proof.
  destruct (clock_rendering Examples.monday_0700 Scenarios.monday_0830)
    as (Hlen & Hfix & _); cbn; try lia.
  split; [exact Hlen|exact Hfix].
Defined.

(** X13 for the daily alarm dismissed on 2025-01-06. *)
Lemma dismissal_record_lifetime_witness :
  let off :=
    Offline.markDismissed "2025-01-06" 5000 "alarm" 2 "07:00"
      (Some Examples.offline_db) in
  "2025-01-07" <> "2025-01-06"
  /\ Offline.isDismissed "2025-01-06" "alarm" 2 "07:00"
       (Offline.clearExpiredDismissals "2025-01-06" off) = true
  /\ Offline.isDismissed "2025-01-06" "alarm" 2 "07:00"
       (Offline.clearExpiredDismissals "2025-01-07" off) = false.
Proof.
  intros off.
  assert ("2025-01-07" <> "2025-01-06") as Hne by discriminate.
  destruct (dismissal_record_lifetime "2025-01-06" "2025-01-07" 5000 "alarm" 2 "07:00"
              Examples.offline_db Hne) as (_ & _ & Hkeep & Hgone & _).
  split; [exact Hne|]. split; [exact Hkeep|exact Hgone].
Defined.

(** X15: the daily alarm rings at 07:00, is dismissed, and the page is
    reloaded; the polls of that minute stay silent. *)
Lemma dismissal_survives_reload_witness :
  let st := poll (Scenarios.input_at 1000 "07:00") Examples.started in
  let clock := Examples.clock_at 5000 "07:00" in
  let st1 := Handler.on_mount "2025-01-06" (Handler.reload (Client.dismissAlarm clock st)) in
  length (shown KAlarm 2 st) = 1%nat
  /\ Client.dismissed_of KAlarm st1 !! 2 = Some "07:00"
  /\ shown KAlarm 2
       (polls [Scenarios.input_at 9000 "07:00"; Scenarios.input_at 39000 "07:00"] st1)
     = [].
Proof.
  intros st clock st1.
  destruct (dismissal_survives_reload st
              (Client.popup_of (Client.item_of_alarm Examples.daily_alarm) KAlarm false)
              clock
              {| Offline.store_alarms := ∅; Offline.store_medicines := ∅;
                 Offline.store_meetings := ∅; Offline.store_dismissed := ∅;
                 Offline.store_meta := ∅ |}
              [Scenarios.input_at 9000 "07:00"; Scenarios.input_at 39000 "07:00"])
    as (_ & Hdis & Hshown).
  - reflexivity.
  - vm_compute. reflexivity.
  - vm_compute. reflexivity.
  - intros k r Hk. cbn in Hk. by rewrite lookup_empty in Hk.
  - repeat constructor.
  - split; [vm_compute; reflexivity|]. split; [exact Hdis|exact Hshown].
Defined.

(** X16: the stand-up is listed once, then the list comes back empty. *)
Lemma emptied_meeting_list_falls_back_witness :
  let r1 := Handler.on_data None None [Examples.standup] Scenarios.no_data
              (Some Examples.offline_db) in
  let r2 := Handler.on_data (Some []) (Some []) [] r1.1 r1.2 in
  Handler.effectiveMeetings r2.1 ≡ₚ [Examples.standup].
Proof.
  intros r1 r2.
  destruct (emptied_meeting_list_falls_back [Examples.standup] None (Some [])
              None (Some []) Scenarios.no_data Examples.offline_db)
    as (_ & _ & Hperm).
  - discriminate.
  - compute_done.
  - exact Hperm.
Defined.

(** X17: the snooze timer of the daily alarm fires five minutes later. *)
Lemma snooze_timer_brings_item_back_witness :
  let h' := Handler.fire Examples.english 301000 0 Scenarios.snoozed in
  Client.activeAlarmPopup (Handler.core Scenarios.snoozed) = None
  /\ exists q, Client.activeAlarmPopup (Handler.core h') = Some q
               /\ Client.popup_type q = KAlarm /\ Client.popup_id q = 2.
Proof.
  intros h'. split; [vm_compute; reflexivity|].
  destruct (snooze_timer_brings_item_back Examples.english 301000 0 Scenarios.snoozed
              {| Handler.snz_alarmData :=
                   Client.popup_of (Client.item_of_alarm Examples.daily_alarm) KAlarm false;
                 Handler.snz_alarms := [Examples.daily_alarm];
                 Handler.snz_medicines := [];
                 Handler.snz_delay := 300000 |})
    as (q & Hq & _ & Hty & Hid & _).
  - vm_compute. reflexivity.
  - exists q. split; [exact Hq|]. split; [exact Hty|exact Hid].
Defined.

(** X18: the daily alarm is snoozed and then a dismissal follows. *)
Lemma dismiss_cancels_last_snooze_witness :
  let clock := Examples.clock_at 9000 "07:00" in
  let h1 := Handler.dismiss clock Scenarios.snoozed in
  Handler.timers Scenarios.snoozed !! 0%nat <> None
  /\ Handler.fire Examples.english 301000 0 h1 = h1.
Proof.
  intros clock h1. split; [vm_compute; discriminate|].
  destruct (dismiss_cancels_last_snooze Examples.english clock 301000 5
              [Examples.daily_alarm] [] id Scenarios.ringing
              (Client.popup_of (Client.item_of_alarm Examples.daily_alarm) KAlarm false))
    as [[_ Hfire] _].
  - reflexivity.
  - vm_compute. reflexivity.
  - reflexivity.
  - exact Hfire.
Defined.

(** X21: the daily alarm at 07:00, polled again two seconds later. *)
Lemma due_item_is_presented_once_witness :
  let st1 := poll (Scenarios.input_at 1000 "07:00") Examples.started in
  length (shown KAlarm 2 st1) = 1%nat
  /\ 2 ∈ Client.active_of KAlarm st1
  /\ shown KAlarm 2 (poll (Scenarios.input_at 3000 "07:00") st1) = shown KAlarm 2 st1.
Proof.
  intros st1. split; [vm_compute; reflexivity|].
  apply (due_item_is_presented_once (Scenarios.input_at 1000 "07:00")
           (Scenarios.input_at 3000 "07:00") Examples.started
           (AlarmItem Examples.daily_alarm)).
  - apply list_elem_of_singleton. reflexivity.
  - intros j Hj _ _. apply list_elem_of_singleton in Hj. subst j.
    vm_compute. reflexivity.
  - vm_compute. discriminate.
Defined.

(** X22: endpoint A, so far of "u1", is registered by "u2"; a dispatch to
    "u1" then reaches B and C only. *)
Lemma registration_moves_endpoint_witness :
  let payload := Server.alarm_payload Examples.date_alarm in
  exists db',
    Registry.savePushSubscription Scenarios.db_up 5 "u2" "https://push.example/A"
      "key" "secret" None Examples.db_abc = inr db'
    /\ forall s,
         (s, payload)
         ∈ Server.w_attempts
             (Server.sendPushNotification Examples.env_abc "u1" payload
                (Examples.world_of db')).1 ->
         sub_endpoint s <> "https://push.example/A".
Proof.
  intros payload. eexists. split; [vm_compute; reflexivity|].
  intros s.
  match goal with
  | |- context [Examples.world_of ?d] =>
      destruct (registration_moves_endpoint Examples.env_abc Scenarios.db_up
                  (fun _ => eq_refl) 5 "u2" "https://push.example/A" "key" "secret"
                  None Examples.db_abc d payload (Examples.world_of d)) as [_ Hother]
  end.
  - vm_compute. reflexivity.
  - reflexivity.
  - reflexivity.
  - apply Hother. discriminate.
Defined.

(** X23: endpoint B is unsubscribed; a dispatch to "u1" does not attempt
    it any more. *)
Lemma unsubscribe_route_removes_endpoint_witness :
  let payload := Server.alarm_payload Examples.date_alarm in
  let result :=
    Registry.unsubscribe_route Scenarios.db_up (Some "https://push.example/B")
      Examples.db_abc in
  result.1 = 200
  /\ forall s,
       (s, payload)
       ∈ Server.w_attempts
           (Server.sendPushNotification Examples.env_abc "u1" payload
              (Examples.world_of result.2)).1 ->
       sub_endpoint s <> "https://push.example/B".
Proof.
  intros payload result. split; [reflexivity|]. intros s.
  destruct (unsubscribe_route_removes_endpoint Examples.env_abc Scenarios.db_up
              (fun _ => eq_refl) (Some "https://push.example/B") Examples.db_abc)
    as (_ & _ & _ & Hgone).
  destruct (Hgone "https://push.example/B" eq_refl) as (_ & _ & Hreach).
  - discriminate.
  - reflexivity.
  - apply Hreach; reflexivity.
Defined.

(** X24: cancelling the weekly alarm 1 cancels the one-time alarm 12. *)
Lemma native_notification_ids_witness :
  Native.Schedule (Some 12) true
  ∈ (Native.scheduleNativeAlarm Scenarios.plugin_up true Scenarios.weekly).1
  /\ Native.Schedule (Some 12) false
     ∈ (Native.scheduleNativeAlarm Scenarios.plugin_up true Scenarios.one_time).1
  /\ 12 ∈ Native.idsToCancel 1.
Proof.
  assert (Native.Schedule (Some 12) true
          ∈ (Native.scheduleNativeAlarm Scenarios.plugin_up true Scenarios.weekly).1)
    as Ha by (vm_compute; left).
  assert (Native.Schedule (Some 12) false
          ∈ (Native.scheduleNativeAlarm Scenarios.plugin_up true Scenarios.one_time).1)
    as Hb by (vm_compute; left).
  split; [exact Ha|]. split; [exact Hb|].
  destruct (native_notification_ids Scenarios.plugin_up Scenarios.weekly
              Scenarios.one_time 12 true false Ha Hb) as (_ & Hin & _).
  exact Hin.
Defined.

(** X25: on a Wednesday after the alarm's time, Monday and Wednesday
    listed: some day of the coming week. *)
Lemma next_occurrence_is_nearest_witness :
  exists n,
    Native.getNextOccurrence 3 false (Some ["Mon"; "Wed"]) None = Native.DaysAhead n
    /\ 0 <= n <= 7.
Proof.
  destruct (next_occurrence_is_nearest 3 false ["Mon"; "Wed"])
    as [(n & Hrun & Hn & _) _].
  - lia.
  - discriminate.
  - intros day Hday. apply elem_of_cons in Hday as [->|Hday]; [by eexists|].
    apply list_elem_of_singleton in Hday as ->. by eexists.
  - exists n. split; [exact Hrun|exact Hn].
Defined.
